(** * speclite.filters: filter response convolutions

    A shallow embedding of the numerical core of [speclite/filters.py]:
    wavelength validation, [FilterResponse], [FilterConvolution] and the
    AB-maggies layer, together with the numpy/scipy primitives they call,
    and of the loading layer: the filter cache, [load_filter] and
    [load_filters].

    Numbers are rationals ([Q]); numeric equality is [==] ([Qeq]), the
    counterpart of Python's [==] on floats.  Two examples are also replayed
    on IEEE binary64 values ([PrimFloat]): a trapezoid sum and a unit
    conversion.  Arrays are one-dimensional. *)

From Stdlib Require Import String Ascii.
From Stdlib Require Import List Bool Arith ZArith QArith Qreduction Lqa Lia.
From Stdlib Require Import Permutation Sorted.
From Stdlib Require Floats Uint63.
Import ListNotations.

(** ** Comparisons on numbers, as boolean tests *)

Definition Qltb (x y : Q) : bool := negb (Qle_bool y x).
Definition Qgtb (x y : Q) : bool := Qltb y x.
Definition Qleb (x y : Q) : bool := Qle_bool x y.
Definition Qgeb (x y : Q) : bool := Qle_bool y x.

(** ** numpy primitives on one-dimensional arrays *)

Module Np.

(** [a[i]] for an index in range. *)
Definition getitem (a : list Q) (i : nat) : Q := nth i a 0.

(** [a[-1]]. *)
Definition last_item (a : list Q) : Q := nth (length a - 1) a 0.

(** [a[start:stop]] for non-negative bounds. *)
Definition slice {A} (start stop : nat) (a : list A) : list A :=
  firstn (stop - start) (skipn start a).

(** [np.diff(a)]: [a[i+1] - a[i]]. *)
Fixpoint diff (a : list Q) : list Q :=
  match a with
  | x :: ((y :: _) as t) => (y - x) :: diff t
  | _ => []
  end.

(** [np.diff] on an integer array. *)
Fixpoint diffn (a : list nat) : list Z :=
  match a with
  | x :: ((y :: _) as t) => (Z.of_nat y - Z.of_nat x)%Z :: diffn t
  | _ => []
  end.

(** [np.where(mask)[0]]: the positions of the true entries, in order. *)
Fixpoint where_from (i : nat) (mask : list bool) : list nat :=
  match mask with
  | [] => []
  | b :: m => if b then i :: where_from (S i) m else where_from (S i) m
  end.

Definition where_ (mask : list bool) : list nat := where_from 0 mask.

(** [np.any], [np.all]. *)
Definition any (mask : list bool) : bool := existsb (fun b => b) mask.
Definition all (mask : list bool) : bool := forallb (fun b => b) mask.

(** [np.searchsorted(a, v)] with the default [side='left']: a binary search
    for the first position whose element is not below the key.  The loop
    halves [hi - lo]; [fuel] bounds the number of iterations. *)
Fixpoint bisect_left (fuel : nat) (a : list Q) (key : Q) (lo hi : nat) : nat :=
  match fuel with
  | O => lo
  | S fuel' =>
      if (lo <? hi)%nat then
        let mid := (lo + (hi - lo) / 2)%nat in
        if Qltb (getitem a mid) key
        then bisect_left fuel' a key (S mid) hi
        else bisect_left fuel' a key lo mid
      else lo
  end.

Definition searchsorted1 (a : list Q) (key : Q) : nat :=
  bisect_left (length a) a key 0 (length a).

Definition searchsorted (a v : list Q) : list nat := map (searchsorted1 a) v.

(** [np.hstack([a, b])]. *)
Definition hstack (a b : list Q) : list Q := a ++ b.

(** [np.argsort(a)]: the positions of [a] ordered by value.  Modelled as an
    insertion sort that keeps equal values in their original order. *)
Fixpoint insert_index (a : list Q) (i : nat) (l : list nat) : list nat :=
  match l with
  | [] => [i]
  | j :: l' =>
      if Qleb (getitem a i) (getitem a j) then i :: l
      else j :: insert_index a i l'
  end.

Definition argsort (a : list Q) : list nat :=
  fold_right (insert_index a) [] (seq 0 (length a)).

(** [a[idx]] for an integer index array. *)
Definition take (a : list Q) (idx : list nat) : list Q := map (getitem a) idx.

(** Elementwise product of two arrays of one length. *)
Fixpoint mul (a b : list Q) : list Q :=
  match a, b with
  | x :: a', y :: b' => (x * y) :: mul a' b'
  | _, _ => []
  end.

(** Product with a scalar. *)
Definition scale (c : Q) (a : list Q) : list Q := map (fun x => x * c) a.

Definition sum (a : list Q) : Q := fold_left Qplus a 0.

(** [np.trapz(y, x)]: [sum(diff(x) * (y[1:] + y[:-1]) / 2.0)]. *)
Fixpoint trapz_terms (y x : list Q) : list Q :=
  match y, x with
  | y0 :: ((y1 :: _) as ty), x0 :: ((x1 :: _) as tx) =>
      ((x1 - x0) * (y1 + y0) / 2) :: trapz_terms ty tx
  | _, _ => []
  end.

Definition trapz (y x : list Q) : Q := sum (trapz_terms y x).

(** [a[0] = v] and [a[-1] = v]: assignment to the first and last entry. *)
Definition set_first (v : Q) (a : list Q) : list Q :=
  match a with
  | [] => []
  | _ :: t => v :: t
  end.

Definition set_last (v : Q) (a : list Q) : list Q :=
  match a with
  | [] => []
  | _ => removelast a ++ [v]
  end.

(** The element types that matter here. *)
Inductive dtype : Type :=
| Int64
| Float64.

(** The number that [a[i] = v] stores in an array of the given element
    type: an integer array keeps the whole part of [v], rounded towards
    zero.  (A value beyond the range of int64 is not represented.) *)
Definition cast (dt : dtype) (v : Q) : Q :=
  match dt with
  | Float64 => v
  | Int64 => inject_Z (Z.quot (Qnum v) (Zpos (Qden v)))
  end.

End Np.

(** ** The trapezoid rule on IEEE binary64 numbers

    [np.trapz] again, with the machine arithmetic of numpy's float64. *)

Module F64.

Import Floats.

Fixpoint trapz_terms (y x : list float) : list float :=
  match y, x with
  | y0 :: ((y1 :: _) as ty), x0 :: ((x1 :: _) as tx) =>
      ((x1 - x0) * (y1 + y0) / 2)%float :: trapz_terms ty tx
  | _, _ => []
  end.

Definition sum (a : list float) : float := fold_left PrimFloat.add a 0%float.

Definition trapz (y x : list float) : float := sum (trapz_terms y x).

(** [c * response] for a number [c]. *)
Definition times (c : float) (response : list float) : list float :=
  map (PrimFloat.mul c) response.

(** The rational number that a finite binary64 value is. *)
Definition to_Q (x : float) : Q :=
  match Prim2SF x with
  | S754_finite s m e =>
      (inject_Z (if s then Zneg m else Zpos m) * Qpower 2 e)%Q
  | _ => 0%Q
  end.

(** The binary64 value of an integer below 2^63 in size, and of a
    rational number: the rounded quotient of numerator and denominator,
    which is the number itself when it is a binary64 value of moderate
    size. *)
Definition of_Z (z : Z) : float :=
  if (z <? 0)%Z then PrimFloat.opp (PrimFloat.of_uint63 (Uint63.of_Z (- z)))
  else PrimFloat.of_uint63 (Uint63.of_Z z).

Definition of_Q (q : Q) : float :=
  (of_Z (Qnum (Qred q)) / of_Z (Zpos (Qden (Qred q))))%float.

(** astropy keeps the nanometre as 1e-9 m and the Angstrom as 0.1 nm: the
    factor from nanometre to Angstrom is the quotient of the two scales in
    metres, 1e-9 / (0.1 * 1e-9), which is 9.999999999999998. *)
Definition nm_to_Angstrom : float :=
  (0x1.12e0be826d695p-30 / (0x1.999999999999ap-4 * 0x1.12e0be826d695p-30))%float.

(** The binary64 number 700.0500000000001. *)
Definition just_above_700_05 : float := 0x1.5e06666666667p+9%float.

End F64.

(** ** scipy.interpolate.interp1d, kind='linear' *)

Module Scipy.

(** The linear evaluation: the insertion position of [x_new] is clipped to
    [1 .. len(x)-1] and the segment ending there is used. *)
Definition call_linear (x y : list Q) (x_new : Q) : Q :=
  let i := Nat.min (Nat.max (Np.searchsorted1 x x_new) 1) (length x - 1) in
  let lo := (i - 1)%nat in
  let slope := (Np.getitem y i - Np.getitem y lo) / (Np.getitem x i - Np.getitem x lo) in
  slope * (x_new - Np.getitem x lo) + Np.getitem y lo.

Definition out_of_bounds (x : list Q) (x_new : Q) : bool :=
  Qltb x_new (Np.getitem x 0) || Qgtb x_new (Np.last_item x).

(** [interp1d(x, y, bounds_error=False, fill_value=fill)(x_new)]. *)
Definition interp1d_fill (x y : list Q) (fill : Q) (x_new : Q) : Q :=
  if out_of_bounds x x_new then fill else call_linear x y x_new.

(** [interp1d(x, y, bounds_error=True)(x_new)] on an array: [None] stands
    for the ValueError raised when a point lies outside [x]. *)
Definition interp1d_strict (x y : list Q) (x_new : list Q) : option (list Q) :=
  if existsb (out_of_bounds x) x_new then None
  else Some (map (call_linear x y) x_new).

End Scipy.

(** ** Physical units

    A unit is a dimension (exponents of length, mass, time) and a scale with
    respect to the base units Angstrom, gram, second.  Two units convert
    into one another when their dimensions agree. *)

Record Unit : Type := mkUnit { dim : Z * Z * Z; scale : Q }.

Definition dim_eqb (a b : Z * Z * Z) : bool :=
  let '(a1, a2, a3) := a in
  let '(b1, b2, b3) := b in
  ((a1 =? b1) && (a2 =? b2) && (a3 =? b3))%Z.

Definition unit_mul (u v : Unit) : Unit :=
  let '(a1, a2, a3) := dim u in
  let '(b1, b2, b3) := dim v in
  mkUnit (a1 + b1, a2 + b2, a3 + b3)%Z (scale u * scale v).

Definition unit_div (u v : Unit) : Unit :=
  let '(a1, a2, a3) := dim u in
  let '(b1, b2, b3) := dim v in
  mkUnit (a1 - b1, a2 - b2, a3 - b3)%Z (scale u / scale v).

Definition unit_eqb (u v : Unit) : bool :=
  dim_eqb (dim u) (dim v) && Qeq_bool (scale u) (scale v).

(** [u.to(v)]: the factor that takes a value in [u] to a value in [v], as
    the exact ratio of the two scales (astropy holds a binary64 value of
    it); [None] stands for UnitConversionError. *)
Definition unit_to (u v : Unit) : option Q :=
  if dim_eqb (dim u) (dim v) then Some (scale u / scale v) else None.

Definition Angstrom : Unit := mkUnit (1, 0, 0)%Z 1.
Definition cm : Unit := mkUnit (1, 0, 0)%Z 100000000.
Definition second : Unit := mkUnit (0, 0, 1)%Z 1.
Definition erg : Unit := mkUnit (2, 1, -2)%Z 10000000000000000.

Definition default_wavelength_unit : Unit := Angstrom.

Definition default_flux_unit : Unit :=
  unit_div (unit_div (unit_div erg (unit_mul cm cm)) second) default_wavelength_unit.

(** The unit of [_hc_constant]. *)
Definition hc_unit : Unit := unit_mul erg default_wavelength_unit.

Definition _photon_weighted_unit : Unit :=
  unit_div (unit_mul default_wavelength_unit default_wavelength_unit) hc_unit.

(** A number, or an astropy Quantity: a number with a unit. *)
Inductive pyfloat : Type :=
| Float (v : Q)
| Quantity (v : Q) (u : Unit).

(** [x.value], falling back on [x] itself (AttributeError) for a plain number. *)
Definition value_of (x : pyfloat) : Q :=
  match x with
  | Float v => v
  | Quantity v _ => v
  end.

(** ** Exceptions *)

Inductive exn_class : Type :=
| ValueErrorC
| RuntimeErrorC
| UnitConversionErrorC.

Record exn : Type := mkExn { exn_kind : exn_class; exn_msg : string }.

Definition ValueError (msg : string) : exn := mkExn ValueErrorC msg.
Definition RuntimeError (msg : string) : exn := mkExn RuntimeErrorC msg.
Definition UnitConversionError : exn := mkExn UnitConversionErrorC EmptyString.

Inductive result (A : Type) : Type :=
| Ok (a : A)
| Raise (e : exn).

Arguments Ok {A} a.
Arguments Raise {A} e.

Definition rbind {A B} (r : result A) (k : A -> result B) : result B :=
  match r with
  | Ok a => k a
  | Raise e => Raise e
  end.

(** ** Arrays in memory

    numpy arrays are mutable objects.  The store maps an array reference to
    the numbers it holds; a computation threads the store and may raise.  A
    raise keeps the store: what was written before it stays written. *)

Definition ref : Type := nat.
Definition store : Type := list (list Q).

Definition M (A : Type) : Type := store -> result A * store.

Definition ret {A} (a : A) : M A := fun s => (Ok a, s).
Definition raise {A} (e : exn) : M A := fun s => (Raise e, s).
Definition bind {A B} (m : M A) (k : A -> M B) : M B :=
  fun s => match m s with
           | (Ok a, s') => k a s'
           | (Raise e, s') => (Raise e, s')
           end.
Definition lift {A} (r : result A) : M A := fun s => (r, s).

Notation "x <- m ;; k" := (bind m (fun x => k))
  (at level 61, m at next level, right associativity).
Notation "m ;;; k" := (bind m (fun _ => k))
  (at level 61, right associativity).

(** The numbers held by an array. *)
Definition contents (s : store) (r : ref) : list Q := nth r s [].

Definition load (r : ref) : M (list Q) := fun s => (Ok (contents s r), s).

(** A new array holding [l]. *)
Definition alloc (l : list Q) : M ref := fun s => (Ok (length s), s ++ [l]).

Fixpoint update {A} (i : nat) (x : A) (l : list A) : list A :=
  match l, i with
  | [], _ => []
  | _ :: t, O => x :: t
  | h :: t, S i' => h :: update i' x t
  end.

(** [a[start:stop] *= c], in place: the entries of the view are rescaled in
    the array the view belongs to. *)
Definition scale_slice (start stop : nat) (c : Q) (a : list Q) : list Q :=
  firstn start a ++ Np.scale c (Np.slice start stop a) ++ skipn (Nat.max start stop) a.

Definition imul_slice (r : ref) (start stop : nat) (c : Q) : M unit :=
  fun s => (Ok tt, update r (scale_slice start stop c (contents s r)) s).

(** [a *= c], in place. *)
Definition imul (r : ref) (c : Q) : M unit :=
  fun s => (Ok tt, update r (Np.scale c (contents s r)) s).

(** What the array [a] holds once the view [a[start:stop]] holds [v]. *)
Definition with_slice (start stop : nat) (v a : list Q) : list Q :=
  firstn start a ++ v ++ skipn stop a.

(** The view [a[start:stop]] of the array at [r] has been given the entries
    [v], one for one. *)
Definition setitem_slice (r : ref) (start stop : nat) (v : list Q) : M unit :=
  fun s => (Ok tt, update r (with_slice start stop v (contents s r)) s).

(** What a caller can pass where an array is expected: a Python sequence of
    numbers, a numpy array, or an astropy Quantity (an array with a unit). *)
Inductive pyarray : Type :=
| PyList (l : list Q)
| NdArray (r : ref)
| QuantityArray (r : ref) (u : Unit).

(** [np.asarray(x)]: a sequence is copied into a new array; an array is
    returned as it is, and a Quantity as a plain view of its own numbers.
    No copy is made in either of the last two cases, as the docstring of
    [validate_wavelength_array] says: "This function will not perform any
    copying or allocation if the input is already a numpy array or astropy
    Quantity." *)
Definition asarray (x : pyarray) : M ref :=
  match x with
  | PyList l => alloc l
  | NdArray r => ret r
  | QuantityArray r _ => ret r
  end.

(** [x.unit]; [None] stands for AttributeError. *)
Definition unit_attr (x : pyarray) : option Unit :=
  match x with
  | QuantityArray _ u => Some u
  | _ => None
  end.

(** ** validate_wavelength_array

    Arrays are one-dimensional here, so the test on the number of
    dimensions is not represented.  The differences of [np.diff] are taken
    as numbers: on an array of 64-bit integers numpy computes them modulo
    2^64, so the statements below that read the outcome of the ordering
    test as a fact about the numbers are made for arrays of floats. *)

Definition strictly_increasing (w : list Q) : bool :=
  Np.all (map (fun d => Qgtb d 0) (Np.diff w)).

Definition validate_wavelength_array (wavelength : pyarray) (min_length : nat) : M ref :=
  wavelength_no_units <- asarray wavelength ;;
  match unit_attr wavelength with
  | Some u =>
      match unit_to u default_wavelength_unit with
      | Some factor => imul wavelength_no_units factor
      | None => raise UnitConversionError
      end
  | None => ret tt
  end ;;;
  w <- load wavelength_no_units ;;
  if (length w <? min_length)%nat then
    raise (ValueError "Minimum length is {0}.")
  else if negb (strictly_increasing w) then
    raise (ValueError "Wavelength values must be strictly increasing.")
  else ret wavelength_no_units.

(** ** Constants and library functions taken from outside the module

    [_hc_constant.value] and [_ab_constant.value] come from astropy's table
    of physical constants; [simps] is [scipy.integrate.simps].

    [dtype_of x] is the element type of [np.asarray(x)] for a sequence or an
    array: numpy takes int64 for a sequence of Python integers and float64
    as soon as one number is a float, and an array has the type it was made
    with; the numbers of the model do not tell which.

    [quantity_to v u u'] is [Quantity(v, u).to(u').value] for two units that
    convert: the product of [v] with the library's conversion factor, as
    the library computes it in binary64. *)

Class Env : Type := {
  _hc_constant : Q;
  _ab_constant : Q;
  simps : list Q -> list Q -> Q;
  dtype_of : pyarray -> Np.dtype;
  quantity_to : Q -> Unit -> Unit -> Q
}.

(** The element type of the array behind an argument.  astropy keeps the
    numbers of a Quantity as floats. *)
Definition array_dtype `{Env} (x : pyarray) : Np.dtype :=
  match x with
  | QuantityArray _ _ => Np.Float64
  | _ => dtype_of x
  end.

(** [_filter_integration_methods]. *)
Definition _filter_integration_methods `{Env} : list (string * (list Q -> list Q -> Q)) :=
  [("trapz"%string, Np.trapz); ("simps"%string, simps)].

Fixpoint lookup {A} (key : string) (d : list (string * A)) : option A :=
  match d with
  | [] => None
  | (k, v) :: d' => if String.eqb k key then Some v else lookup key d'
  end.

(** ** Callables and tabulate_function_of_wavelength *)

(** What a function of wavelength hands back: one number or an array. *)
Inductive fvalue : Type :=
| Scalar (v : Q)
| Array (l : list Q).

(** A Python callable of wavelength, given by what it does under the four
    calling conventions: on the whole array or on one wavelength, with the
    argument carrying its unit ([true]) or not.  [None] stands for any
    exception raised by the call.  For a call on one wavelength that
    raises, [runtime_error] tells whether the exception is a RuntimeError,
    and gives its message: the element-by-element attempts pass a
    RuntimeError on and take anything else as a failed attempt. *)
Record callable : Type := {
  on_array : bool -> list Q -> option (fvalue * option Unit);
  on_scalar : bool -> Q -> option (Q * option Unit);
  runtime_error : bool -> Q -> option string
}.

Inductive loop_outcome : Type :=
| LoopDone (values : list Q) (units : option Unit)
| LoopRaise (e : exn)
| LoopFailed (units : option Unit).

(** The body of the two element-by-element attempts.  [function_units] is
    the variable of that name: it is assigned at [i == 0] only when the
    first value has a unit.  [f] is the call on one wavelength and [rt] the
    RuntimeError it raises, if that is what it raises: "except RuntimeError
    as e: raise e" comes before "except Exception". *)
Fixpoint tabulate_loop (f : Q -> option (Q * option Unit)) (rt : Q -> option string)
    (i : nat) (ws : list Q) (function_units : option Unit) (acc : list Q)
  : loop_outcome :=
  match ws with
  | [] => LoopDone (rev acc) function_units
  | w :: ws' =>
      match f w with
      | None =>
          match rt w with
          | Some msg => LoopRaise (RuntimeError msg)
          | None => LoopFailed function_units
          end
      | Some (value, vu) =>
          if (i =? 0)%nat then
            match vu with
            | Some u => tabulate_loop f rt (S i) ws' (Some u) (value :: acc)
            | None => tabulate_loop f rt (S i) ws' function_units (value :: acc)
            end
          else
            match function_units, vu with
            | None, Some _ =>
                LoopRaise (RuntimeError "Inconsistent function units: none, {0}.")
            | None, None => tabulate_loop f rt (S i) ws' function_units (value :: acc)
            | Some fu, None =>
                LoopRaise (RuntimeError "Inconsistent function units: {0}, none.")
            | Some fu, Some u =>
                if unit_eqb fu u
                then tabulate_loop f rt (S i) ws' function_units (value :: acc)
                else LoopRaise (RuntimeError "Inconsistent function units: {0}, {1}.")
            end
      end
  end.

(** [wavelength] holds the values of the Quantity that the opening
    [wavelength.to(default_wavelength_unit)] returns.  That conversion, and
    the ValueError it raises for an argument without a unit or with a unit
    that does not convert, come before what is modelled here; the callers
    in this module pass their own wavelengths in the default unit. *)
Definition tabulate_function_of_wavelength (function : callable) (wavelength : list Q)
  : result (fvalue * option Unit) :=
  match on_array function true wavelength with
  | Some (v, u) => Ok (v, u)
  | None =>
  match on_array function false wavelength with
  | Some (v, u) => Ok (v, u)
  | None =>
  match tabulate_loop (on_scalar function true) (runtime_error function true)
          0 wavelength None [] with
  | LoopDone v u => Ok (Array v, u)
  | LoopRaise e => Raise e
  | LoopFailed function_units =>
  match tabulate_loop (on_scalar function false) (runtime_error function false)
          0 wavelength function_units [] with
  | LoopDone v u => Ok (Array v, u)
  | LoopRaise e => Raise e
  | LoopFailed _ => Raise (ValueError "Invalid function.")
  end end end end.

(** [ab_reference_flux] at the default [magnitude=0]: it wants a wavelength
    with units and returns the flux in [default_flux_unit]. *)
Definition ab_flux `{Env} (w : Q) : Q := 1 * _ab_constant / (w * w).

Definition ab_reference_flux `{Env} : callable := {|
  on_array := fun with_units w =>
    if with_units then Some (Array (map ab_flux w), Some default_flux_unit) else None;
  on_scalar := fun with_units w =>
    if with_units then Some (ab_flux w, Some default_flux_unit) else None;
  runtime_error := fun _ _ => None
|}.

Definition dimensionless : Unit := mkUnit (0, 0, 0)%Z 1.

(** [lambda wlen: wlen]. *)
Definition lambda_wlen : callable := {|
  on_array := fun with_units w =>
    Some (Array w, if with_units then Some default_wavelength_unit else None);
  on_scalar := fun with_units w =>
    Some (w, if with_units then Some default_wavelength_unit else None);
  runtime_error := fun _ _ => None
|}.

(** [lambda wlen: one], with [one = astropy.units.Quantity(1.)]. *)
Definition lambda_one : callable := {|
  on_array := fun _ _ => Some (Scalar 1, Some dimensionless);
  on_scalar := fun _ _ => Some (1, Some dimensionless);
  runtime_error := fun _ _ => None
|}.

(** ** Metadata *)

Inductive meta_value : Type :=
| MetaStr (s : string)
| MetaOther.

Definition metadata : Type := list (string * meta_value).

Definition is_alpha_ (c : ascii) : bool :=
  let n := nat_of_ascii c in
  ((65 <=? n) && (n <=? 90) || (97 <=? n) && (n <=? 122) || (n =? 95))%nat.

Definition is_alnum_ (c : ascii) : bool :=
  let n := nat_of_ascii c in
  (is_alpha_ c || (48 <=? n) && (n <=? 57))%nat.

Fixpoint all_chars (p : ascii -> bool) (s : string) : bool :=
  match s with
  | EmptyString => true
  | String c s' => p c && all_chars p s'
  end.

(** [_name_pattern.match(s)]: a letter or underscore, then letters, digits
    and underscores to the end. *)
Definition _name_pattern_match (s : string) : bool :=
  match s with
  | EmptyString => false
  | String c s' => is_alpha_ c && all_chars is_alnum_ s'
  end.

Definition check_required (meta : metadata) (required : string) : result string :=
  match lookup required meta with
  | None => Raise (ValueError "Metadata missing required key.")
  | Some (MetaStr s) =>
      if _name_pattern_match s then Ok s
      else Raise (ValueError "Value is not a valid identifier.")
  | Some MetaOther => Raise (ValueError "Invalid value type.")
  end.

(** Division of two results, [numer / denom]. *)
Definition pydiv (a b : pyfloat) : pyfloat :=
  match a, b with
  | Quantity x u, Quantity y v => Quantity (x / y) (unit_div u v)
  | Quantity x u, Float y => Quantity (x / y) u
  | Float x, Quantity y v => Quantity (x / y) (unit_div dimensionless v)
  | Float x, Float y => Float (x / y)
  end.

(** ** class FilterResponse *)

Module FilterResponse.

Record t : Type := mk {
  _wavelength : list Q;
  response : list Q;
  meta : metadata;
  effective_wavelength : pyfloat;
  ab_zeropoint : pyfloat;
  name : string
}.

(** "Trim any extra leading and trailing zeros."  The checks before it leave
    [response[0] == 0] with some positive response, so [non_zero[0] - 1] is
    not negative. *)
Definition trim (wavelength response : list Q) : list Q * list Q :=
  let non_zero := Np.where_ (map (fun r => Qgtb r 0) response) in
  let start := (hd 0 non_zero - 1)%nat in
  let stop := (last non_zero 0 + 2)%nat in
  if (stop - start <? length wavelength)%nat
  then (Np.slice start stop wavelength, Np.slice start stop response)
  else (wavelength, response).

(** [integrand *= self.response]: a number is multiplied into a new array,
    an array is updated in place and must have the response's length. *)
Definition times_response (integrand : fvalue) (response : list Q) : result (list Q) :=
  match integrand with
  | Scalar c => Ok (map (Qmult c) response)
  | Array l =>
      if (length l =? length response)%nat then Ok (Np.mul l response)
      else Raise (ValueError "operands could not be broadcast together")
  end.

(** The declared-units check: the conversion is attempted and its result
    ([converted]) is not used. *)
Definition check_units (units func_units : option Unit) : result (option Unit) :=
  match units with
  | Some un =>
      match func_units with
      | Some fu =>
          match unit_to fu un with
          | Some converted => Ok (Some fu)
          | None => Raise (ValueError "Function units {0} not convertible to {1}.")
          end
      | None => Ok (Some un)
      end
  | None => Ok func_units
  end.

(** [convolve_with_function], on the arrays of [self]. *)
Definition convolve `{Env} (wavelength response : list Q) (function : callable)
    (photon_weighted : bool) (units : option Unit) (method : string) : result pyfloat :=
  match lookup method _filter_integration_methods with
  | None => Raise (ValueError "Invalid integration method {0}. Pick one of {1}.")
  | Some integrator =>
      rbind (tabulate_function_of_wavelength function wavelength) (fun tab =>
      let '(integrand, func_units) := tab in
      rbind (check_units units func_units) (fun func_units =>
      rbind (times_response integrand response) (fun integrand =>
      let integrand :=
        if photon_weighted
        then Np.mul integrand (map (fun w => w / _hc_constant) wavelength)
        else integrand in
      let func_units :=
        if photon_weighted
        then option_map (fun u => unit_mul u (unit_div default_wavelength_unit hc_unit)) func_units
        else func_units in
      let result := integrator integrand wavelength in
      Ok (match func_units with
          | Some u => Quantity result (unit_mul u default_wavelength_unit)
          | None => Float result
          end))))
  end.

(** The constructor once both arrays have been read.  [meta = None] stands
    for an object that [dict()] rejects.  The entry made in [_filter_cache]
    is not represented. *)
Definition init_arrays `{Env} (wavelength response : list Q) (meta : option metadata)
  : result t :=
  if negb (length wavelength =? length response)%nat then
    Raise (ValueError "Arrays must have same length.")
  else if Np.any (map (fun r => Qltb r 0) response) then
    Raise (ValueError "Response values must be non-negative.")
  else if Np.all (map (fun r => Qeq_bool r 0) response) then
    Raise (ValueError "Response values cannot all be zero.")
  else if negb (Qeq_bool (Np.getitem response 0) 0 && Qeq_bool (Np.last_item response) 0) then
    Raise (ValueError "Response must go to zero on both sides.")
  else
    let '(wavelength, response) := trim wavelength response in
    match meta with
    | None => Raise (ValueError "Invalid metadata dictionary.")
    | Some meta =>
        rbind (check_required meta "group_name") (fun group_name =>
        rbind (check_required meta "band_name") (fun band_name =>
        rbind (convolve wavelength response lambda_wlen true None "trapz") (fun numer =>
        rbind (convolve wavelength response lambda_one true None "trapz") (fun denom =>
        rbind (convolve wavelength response ab_reference_flux true
                 (Some default_flux_unit) "trapz") (fun zp =>
        Ok {| _wavelength := wavelength;
              response := response;
              meta := meta;
              effective_wavelength := pydiv numer denom;
              ab_zeropoint := zp;
              name := (group_name ++ "-" ++ band_name)%string |})))))
    end.

(** [FilterResponse.__init__]. *)
Definition init `{Env} (wavelength response : pyarray) (meta : option metadata) : M t :=
  w <- validate_wavelength_array wavelength 3 ;;
  wavelength <- load w ;;
  r <- asarray response ;;
  response <- load r ;;
  lift (init_arrays wavelength response meta).

(** [self.interpolator]: linear, zero outside the wavelength range. *)
Definition interpolator (self : t) (x : Q) : Q :=
  Scipy.interp1d_fill (_wavelength self) (response self) 0 x.

(** [FilterResponse.__call__] on one wavelength.  A wavelength with a unit
    is looked up at [wavelength.to(default_wavelength_unit).value], the
    number the library's conversion returns. *)
Definition call `{Env} (self : t) (wavelength : pyfloat) : result Q :=
  match wavelength with
  | Float w => Ok (interpolator self w)
  | Quantity w u =>
      match unit_to u default_wavelength_unit with
      | Some _ => Ok (interpolator self (quantity_to w u default_wavelength_unit))
      | None => Raise UnitConversionError
      end
  end.

(** [FilterResponse.__call__] on an array of wavelengths. *)
Definition call_array `{Env} (self : t) (wavelength : list Q) (unit : option Unit)
  : result (list Q) :=
  match unit with
  | None => Ok (map (interpolator self) wavelength)
  | Some u =>
      match unit_to u default_wavelength_unit with
      | Some _ =>
          Ok (map (fun w => interpolator self (quantity_to w u default_wavelength_unit))
                wavelength)
      | None => Raise UnitConversionError
      end
  end.

Definition convolve_with_function `{Env} (self : t) (function : callable)
    (photon_weighted : bool) (units : option Unit) (method : string) : result pyfloat :=
  convolve (_wavelength self) (response self) function photon_weighted units method.

End FilterResponse.

(** ** class FilterConvolution *)

Module FilterConvolution.

Record t : Type := mk {
  response : FilterResponse.t;
  _wavelength : list Q;
  num_wavelength : nat;
  response_slice : nat * nat;
  response_grid : list Q;
  interpolate_wavelength : option (list Q);
  interpolate_response : option (list Q);
  interpolate_sort_order : option (list nat);
  quad_wavelength : list Q;
  quad_weight : option (list Q);
  input_units : option Unit;
  output_units : option Unit
}.

(** "Find the smallest slice that covers the non-zero range of the
    integrand." *)
Definition covering_slice (wavelength : list Q) (lo hi : Q) : nat * nat :=
  let start :=
    if Qltb (Np.getitem wavelength 0) lo
    then last (Np.where_ (map (fun w => Qleb w lo) wavelength)) 0%nat
    else 0%nat in
  let stop :=
    if Qgtb (Np.last_item wavelength) hi
    then (1 + hd 0 (Np.where_ (map (fun w => Qgeb w hi) wavelength)))%nat
    else length wavelength in
  (start, stop).

(** [insert_index] and the positions [1 + np.where(np.diff(insert_index) == 0)[0]]. *)
Definition insert_index (wavelength filter_wavelength : list Q) : list nat :=
  Np.searchsorted wavelength (tl filter_wavelength).

Definition undersampled_mask (wavelength filter_wavelength : list Q) : list bool :=
  map (fun d => (d =? 0)%Z) (Np.diffn (insert_index wavelength filter_wavelength)).

Definition undersampled_index (wavelength filter_wavelength : list Q) : list nat :=
  map (fun i => (1 + i)%nat) (Np.where_ (undersampled_mask wavelength filter_wavelength)).

(** "Replace the quadrature endpoints with the actual filter endpoints."
    The two assignments store the end points in the element type of
    [quad]. *)
Definition clamp (dtype : Np.dtype) (quad : list Q) (lo hi : Q) : list Q :=
  let quad :=
    if Qltb (Np.getitem quad 0) lo then Np.set_first (Np.cast dtype lo) quad else quad in
  if Qgtb (Np.last_item quad) hi then Np.set_last (Np.cast dtype hi) quad else quad.

(** The constructor once the wavelength array has been validated and read;
    [dtype] is the element type of that array. *)
Definition init_grid `{Env} (response : FilterResponse.t) (wavelength : list Q)
    (dtype : Np.dtype) (photon_weighted interpolate : bool) (units : option Unit)
  : result t :=
  let fw := FilterResponse._wavelength response in
  let num_wavelength := length wavelength in
  let under := Qgtb (Np.getitem wavelength 0) (Np.getitem fw 0) in
  let over := Qltb (Np.last_item wavelength) (Np.last_item fw) in
  if under || over then
    Raise (ValueError "Wavelengths do not cover filter response {0:.1f}-{1:.1f} {2}.")
  else
    let '(start, stop) := covering_slice wavelength (Np.getitem fw 0) (Np.last_item fw) in
    let wavelength' :=
      if ((0 <? start) || (stop <? length wavelength))%nat
      then Np.slice start stop wavelength else wavelength in
    rbind (FilterResponse.call_array response wavelength' None) (fun response_grid =>
    let finish (aliased : bool) iw ir so (quad : list Q) : result t :=
      (* without interpolation [quad] is a view of the validated array and
         has its element type; with interpolation it is what np.hstack
         makes of the grid and the filter wavelengths, which has an integer
         type only if the filter wavelengths are integers themselves, so
         that the end points are stored as they are *)
      let quad :=
        clamp (if aliased then dtype else Np.Float64) quad
          (Np.getitem fw 0) (Np.last_item fw) in
      Ok {| response := response;
            (* without interpolation [quad_wavelength] is the very array
               [_wavelength], so the clamp shows in both *)
            _wavelength := if aliased then quad else wavelength';
            num_wavelength := num_wavelength;
            response_slice := (start, stop);
            response_grid := response_grid;
            interpolate_wavelength := iw;
            interpolate_response := ir;
            interpolate_sort_order := so;
            quad_wavelength := quad;
            quad_weight :=
              if photon_weighted
              then Some (map (fun w => w / _hc_constant) quad) else None;
            input_units := units;
            output_units :=
              match units with
              | Some u =>
                  Some (if photon_weighted then unit_mul u _photon_weighted_unit
                        else unit_mul u default_wavelength_unit)
              | None => None
              end |} in
    if Np.any (undersampled_mask wavelength' fw) then
      let undersampled := undersampled_index wavelength' fw in
      if interpolate then
        let interpolate_wavelength := Np.take fw undersampled in
        let interpolate_response := Np.take (FilterResponse.response response) undersampled in
        let quad := Np.hstack wavelength' interpolate_wavelength in
        let interpolate_sort_order := Np.argsort quad in
        finish false (Some interpolate_wavelength) (Some interpolate_response)
               (Some interpolate_sort_order) (Np.take quad interpolate_sort_order)
      else
        Raise (ValueError "Wavelengths undersample the response and interpolate is False.")
    else
      finish true None None None wavelength')
.

(** [FilterConvolution.__init__], for a [FilterResponse] object.  Without
    interpolation [self.quad_wavelength] is [self._wavelength], a view of
    the array that the validation returned: what the clamp assigns is
    written into that array, which is the caller's own when the caller
    passed an array. *)
Definition init `{Env} (response : FilterResponse.t) (wavelength : pyarray)
    (photon_weighted interpolate : bool) (units : option Unit) : M t :=
  w <- validate_wavelength_array wavelength 2 ;;
  grid <- load w ;;
  self <- lift (init_grid response grid (array_dtype wavelength)
                  photon_weighted interpolate units) ;;
  match interpolate_sort_order self with
  | Some _ => ret self
  | None =>
      let '(start, stop) := response_slice self in
      setitem_slice w start stop (quad_wavelength self) ;;; ret self
  end.

(** The unit handling of [__call__]: a value with units is rescaled in place,
    inside the slice, to the declared input unit. *)
Definition convert_input (self : t) (values : pyarray) (values_no_units : ref) : M bool :=
  match unit_attr values with
  | None => ret false
  | Some u =>
      match input_units self with
      | None => raise (ValueError "Must specify expected units for values with units.")
      | Some iu =>
          match unit_to u iu with
          | None => raise (ValueError "Values units {0} not convertible to {1}.")
          | Some factor =>
              let '(start, stop) := response_slice self in
              imul_slice values_no_units start stop factor ;;; ret true
          end
      end
  end.

(** The second half of [__call__]: from the sliced values, now in the input
    unit, to the integral. *)
Definition integrate (self : t) (integrator : list Q -> list Q -> Q)
    (values_slice : list Q) (input_has_units : bool) : result pyfloat :=
  let integrand := Np.mul values_slice (response_grid self) in
  rbind
    match interpolate_wavelength self, interpolate_response self,
          interpolate_sort_order self with
    | Some iw, Some ir, Some so =>
        match Scipy.interp1d_strict (_wavelength self) values_slice iw with
        | None => Raise (ValueError "A value in x_new is outside the interpolation range.")
        | Some interpolated_values =>
            Ok (Np.take (integrand ++ Np.mul interpolated_values ir) so)
        end
    | _, _, _ => Ok integrand
    end
    (fun integrand =>
       let integrand :=
         match quad_weight self with
         | Some qw => Np.mul integrand qw
         | None => integrand
         end in
       let integral := integrator integrand (quad_wavelength self) in
       Ok (match input_has_units, output_units self with
           | true, Some ou => Quantity integral ou
           | _, _ => Float integral
           end)).

(** [FilterConvolution.__call__] on one-dimensional values, [plot=False]. *)
Definition call `{Env} (self : t) (values : pyarray) (method : string) : M pyfloat :=
  match lookup method _filter_integration_methods with
  | None => raise (ValueError "Invalid method {0}, pick one of {1}.")
  | Some integrator =>
      values_no_units <- asarray values ;;
      v <- load values_no_units ;;
      if negb (length v =? num_wavelength self)%nat then
        raise (ValueError "Expected {0} values along axis {1}.")
      else
        input_has_units <- convert_input self values values_no_units ;;
        v <- load values_no_units ;;
        let '(start, stop) := response_slice self in
        lift (integrate self integrator (Np.slice start stop v) input_has_units)
  end.

End FilterConvolution.

(** ** Convolution with arrays and AB maggies *)

Definition convolve_with_array `{Env} (self : FilterResponse.t) (wavelength values : pyarray)
    (photon_weighted interpolate : bool) (units : option Unit) (method : string) : M pyfloat :=
  convolution <- FilterConvolution.init self wavelength photon_weighted interpolate units ;;
  FilterConvolution.call convolution values method.

(** The [spectrum] argument: a callable when [wavelength is None], else an
    array of values with its wavelength grid. *)
Inductive spectrum_arg : Type :=
| Callable (f : callable)
| Tabulated (values wavelength : pyarray).

Definition get_ab_maggies `{Env} (self : FilterResponse.t) (spectrum : spectrum_arg) : M Q :=
  convolution <-
    match spectrum with
    | Callable f =>
        lift (FilterResponse.convolve_with_function self f true (Some default_flux_unit) "trapz")
    | Tabulated values wavelength =>
        convolve_with_array self wavelength values true true (Some default_flux_unit) "trapz"
    end ;;
  ret (value_of convolution / value_of (FilterResponse.ab_zeropoint self)).

(** ** The filter cache and load_filter *)

(** [os.path.splitext] on POSIX paths, as the Python library defines it:
    the extension starts at the last dot of the last path component, unless
    that component has only dots before it. *)
Module Os.

(** [s.rfind(c)] scanning from index [i], with the last match so far. *)
Fixpoint rfind_from (c : ascii) (s : string) (i : Z) (found : Z) : Z :=
  match s with
  | EmptyString => found
  | String d s' => rfind_from c s' (i + 1) (if Ascii.eqb d c then i else found)
  end.

(** [s.rfind(c)]: the last index of [c], or [-1]. *)
Definition rfind (c : ascii) (s : string) : Z := rfind_from c s 0 (-1).

Definition splitext (p : string) : string * string :=
  let sepIndex := rfind "/" p in
  let dotIndex := rfind "." p in
  if (sepIndex <? dotIndex)%Z then
    let filenameIndex := Z.to_nat (sepIndex + 1) in
    let dot := Z.to_nat dotIndex in
    if existsb (fun c => negb (Ascii.eqb c "."))
         (list_ascii_of_string (substring filenameIndex (dot - filenameIndex) p))
    then (substring 0 dot p, substring dot (String.length p - dot) p)
    else (p, EmptyString)
  else (p, EmptyString).

(** [os.path.basename(p)]: what follows the last slash. *)
Definition basename (p : string) : string :=
  let i := Z.to_nat (rfind "/" p + 1) in
  substring i (String.length p - i) p.

(** [s.endswith('/')]. *)
Definition ends_with_sep (s : string) : bool :=
  match get (String.length s - 1) s with
  | Some c => Ascii.eqb c "/"
  | None => false
  end.

(** [os.path.join(a, b)]. *)
Definition join (a b : string) : string :=
  if prefix "/" b then b
  else if String.eqb a EmptyString || ends_with_sep a then (a ++ b)%string
  else (a ++ "/" ++ b)%string.

End Os.

(** A column of an astropy table, and the table read from a filter file. *)
Module Column.

Record t : Type := mk {
  data : list Q;
  unit : option Unit
}.

End Column.

Module Table.

Record t : Type := mk {
  columns : list (string * Column.t);
  meta : metadata
}.

End Table.

(** What [load_filter] asks of its surroundings: the location of the
    package data, [os.path.isfile], and [astropy.table.Table.read] in the
    ECSV format. *)
Class Files : Type := {
  _find_pkg_data_path : string -> string;
  isfile : string -> bool;
  read_table : string -> result Table.t
}.

(** [_filter_cache]: a dictionary from names to filters.  The first entry
    with a key is the dictionary's entry for it. *)
Definition filter_cache : Type := list (string * FilterResponse.t).

(** [FilterResponse(wavelength, response, meta)] with the last statement of
    the constructor, [_filter_cache[self.name] = self].  When the
    constructor raises, the cache is as it was. *)
Definition new_FilterResponse `{Env} (wavelength response : pyarray)
    (meta : option metadata) (cache : filter_cache)
  : M (FilterResponse.t * filter_cache) :=
  self <- FilterResponse.init wavelength response meta ;;
  ret (self, (FilterResponse.name self, self) :: cache).

(** [load_filter(name, load_from_cache)].  The result comes with the cache
    after the call. *)
Definition load_filter `{Env} `{Files} (name : string) (load_from_cache : bool)
    (cache : filter_cache) : M (FilterResponse.t * filter_cache) :=
  match (if load_from_cache then lookup name cache else None) with
  | Some cached => ret (cached, cache)
  | None =>
      let '(base_name, extension) := Os.splitext name in
      if negb (String.eqb extension EmptyString || String.eqb extension ".ecsv") then
        raise (ValueError "Invalid extension for filter file name: {0}.")
      else
        let file_name :=
          if String.eqb extension EmptyString
          then _find_pkg_data_path ("data/filters/" ++ name ++ ".ecsv")%string
          else name in
        if negb (isfile file_name) then
          raise (ValueError "No such filter file {0}.")
        else
          table <- lift (read_table file_name) ;;
          match lookup "wavelength" (Table.columns table) with
          | None => raise (RuntimeError "Table is missing required wavelength column.")
          | Some wavelength_column =>
          match Column.unit wavelength_column with
          | None => raise (RuntimeError "No wavelength column unit specified.")
          | Some wavelength_unit =>
              wavelength <- alloc (Column.data wavelength_column) ;;
              match lookup "response" (Table.columns table) with
              | None => raise (RuntimeError "Table is missing required response column.")
              | Some response_column =>
              match Column.unit response_column with
              | Some _ => raise (RuntimeError "Response column has unexpected units.")
              | None =>
                  response <- alloc (Column.data response_column) ;;
                  new_FilterResponse (QuantityArray wavelength wavelength_unit)
                    (NdArray response) (Some (Table.meta table)) cache
              end end end end
  end.

(** ** load_filters and FilterSequence *)

(** [_group_wildcard.match(s)]: an identifier, then a dash and a star to
    the end. *)
Definition _group_wildcard_match (s : string) : bool :=
  let n := String.length s in
  (2 <=? n)%nat && String.eqb (substring (n - 2) 2 s) "-*" &&
  _name_pattern_match (substring 0 (n - 2) s).

(** [glob.glob(pattern)]: the files that match, in the order the file system
    lists them. *)
Class Directory : Type := {
  glob : string -> list string
}.

(** [(weff, name) < (weff', name')] on tuples: the first components decide
    unless they are equal. *)
Definition band_ltb (a b : Q * string) : bool :=
  if Qeq_bool (fst a) (fst b) then String.ltb (snd a) (snd b)
  else Qltb (fst a) (fst b).

(** [sorted(...)]: a stable sort that compares with [<] only. *)
Fixpoint insert_band (x : Q * string) (l : list (Q * string)) : list (Q * string) :=
  match l with
  | [] => [x]
  | y :: l' => if band_ltb x y then x :: l else y :: insert_band x l'
  end.

Definition sorted (l : list (Q * string)) : list (Q * string) :=
  fold_left (fun acc x => insert_band x acc) l [].

(** The scan of one group: every file of the group is loaded, and its name
    and effective wavelength are noted. *)
Fixpoint scan_group `{Env} `{Files} (file_names : list string) (cache : filter_cache)
  : M (list (Q * string) * filter_cache) :=
  match file_names with
  | [] => ret ([], cache)
  | file_name :: rest =>
      let full_name := fst (Os.splitext (Os.basename file_name)) in
      loaded <- load_filter full_name true cache ;;
      let '(response, cache) := loaded in
      scanned <- scan_group rest cache ;;
      let '(bands, cache) := scanned in
      ret ((value_of (FilterResponse.effective_wavelength response), full_name) :: bands,
           cache)
  end.

(** The first loop of [load_filters]: [names_to_load]. *)
Fixpoint names_to_load `{Env} `{Files} `{Directory} (names : list string)
    (cache : filter_cache) : M (list string * filter_cache) :=
  match names with
  | [] => ret ([], cache)
  | name :: rest =>
      if _group_wildcard_match name then
        let filters_path := _find_pkg_data_path "data/filters/" in
        let file_names := glob (Os.join filters_path (name ++ ".ecsv")) in
        scanned <- scan_group file_names cache ;;
        let '(bands, cache) := scanned in
        more <- names_to_load rest cache ;;
        let '(others, cache) := more in
        ret (map snd (sorted bands) ++ others, cache)
      else
        more <- names_to_load rest cache ;;
        let '(others, cache) := more in
        ret (name :: others, cache)
  end.

(** The second loop: every name is loaded, in order. *)
Fixpoint load_each `{Env} `{Files} (names : list string) (cache : filter_cache)
  : M (list FilterResponse.t * filter_cache) :=
  match names with
  | [] => ret ([], cache)
  | name :: rest =>
      loaded <- load_filter name true cache ;;
      let '(response, cache) := loaded in
      more <- load_each rest cache ;;
      let '(responses, cache) := more in
      ret (response :: responses, cache)
  end.

(** [FilterSequence]: the list of its responses, with the two properties. *)
Module FilterSequence.

Definition t : Type := list FilterResponse.t.

Definition names (self : t) : list string := map FilterResponse.name self.

Definition effective_wavelengths (self : t) : list Q :=
  map (fun r => value_of (FilterResponse.effective_wavelength r)) self.

End FilterSequence.

(** [load_filters], called with the list of its arguments. *)
Definition load_filters `{Env} `{Files} `{Directory} (names : list string)
    (cache : filter_cache) : M (FilterSequence.t * filter_cache) :=
  listed <- names_to_load names cache ;;
  let '(to_load, cache) := listed in
  load_each to_load cache.

(** ** Predicates used in the statements *)

(** An array whose entries grow strictly with the index. *)
Definition increasing (a : list Q) : Prop :=
  forall i j, (i < j)%nat -> (j < length a)%nat -> Np.getitem a i < Np.getitem a j.

(** [r] is an insertion position of [key] in [a]: every entry before it is
    below the key and no entry from it on is. *)
Definition insertion_position (a : list Q) (key : Q) (r : nat) : Prop :=
  (r <= length a)%nat /\
  (forall i, (i < r)%nat -> Np.getitem a i < key) /\
  (forall i, (r <= i)%nat -> (i < length a)%nat -> key <= Np.getitem a i).

(** What the constructor's checks ask of a response array. *)
Definition checked_response (r : list Q) : Prop :=
  (forall i, (i < length r)%nat -> 0 <= Np.getitem r i) /\
  (exists i, (i < length r)%nat /\ ~ Np.getitem r i == 0) /\
  Np.getitem r 0 == 0 /\ Np.last_item r == 0.

(** The wavelength, in the default unit, that [FilterResponse.call] looks
    up for its argument: the number itself, or the number that the
    conversion of a Quantity returns. *)
Definition canonical_wavelength `{Env} (wavelength : pyfloat) : option Q :=
  match wavelength with
  | Float w => Some w
  | Quantity w u =>
      match unit_to u default_wavelength_unit with
      | Some _ => Some (quantity_to w u default_wavelength_unit)
      | None => None
      end
  end.

(** [x] lies outside the range of the array [a]. *)
Definition outside (a : list Q) (x : Q) : Prop :=
  x < Np.getitem a 0 \/ Np.last_item a < x.

(** The input grid covers the filter's wavelength range. *)
Definition covers (F : FilterResponse.t) (w : list Q) : Prop :=
  Np.getitem w 0 <= Np.getitem (FilterResponse._wavelength F) 0 /\
  Np.last_item (FilterResponse._wavelength F) <= Np.last_item w.

(** The store once a plan has been built on the validated array at [w]:
    without interpolation the quadrature grid, with its clamped ends, is in
    that array. *)
Definition clamped_store (p : FilterConvolution.t) (w : ref) (s : store) : store :=
  match FilterConvolution.interpolate_sort_order p with
  | Some _ => s
  | None =>
      update w
        (with_slice (fst (FilterConvolution.response_slice p))
           (snd (FilterConvolution.response_slice p))
           (FilterConvolution.quad_wavelength p) (contents s w)) s
  end.

(** The input grid restricted to the covering slice. *)
Definition restricted_grid (F : FilterResponse.t) (w : list Q) : list Q :=
  let fw := FilterResponse._wavelength F in
  let '(start, stop) :=
    FilterConvolution.covering_slice w (Np.getitem fw 0) (Np.last_item fw) in
  Np.slice start stop w.

Definition msg_not_covered : string :=
  "Wavelengths do not cover filter response {0:.1f}-{1:.1f} {2}.".

Definition msg_undersampled : string :=
  "Wavelengths undersample the response and interpolate is False.".

(** The sampling test as the specification words it, to be compared with
    [FilterConvolution.undersampled_index]: only the interior filter
    wavelengths (positions [1 .. n-2]) take part, and of a run of them that
    share an insertion position all but the first become extra nodes. *)
Definition spec_undersampled_index (w' fw : list Q) : list nat :=
  filter
    (fun k => (Np.searchsorted1 w' (Np.getitem fw (k - 1)) =?
               Np.searchsorted1 w' (Np.getitem fw k))%nat)
    (seq 2 (length fw - 3)).

Definition spec_interpolation_nodes (w' fw : list Q) : list Q :=
  Np.take fw (spec_undersampled_index w' fw).

(** ** Example inputs *)

(** An environment for the examples: h c in erg Angstrom and the AB
    constant 3631 Jy c in erg Angstrom / (cm2 s).  No example integrates
    with Simpson's rule; the trapezoid rule fills that slot here.  Every
    sequence and array holds floats, and a conversion multiplies by the
    exact ratio of the two units. *)
Definition example_env : Env := {|
  _hc_constant := 198644568 # 10000000000000000;
  _ab_constant := 1088546414998 # 10000000000000;
  simps := Np.trapz;
  dtype_of := fun _ => Np.Float64;
  quantity_to := fun v u u' => v * (scale u / scale u')
|}.

Definition example_meta : option metadata :=
  Some [("group_name"%string, MetaStr "example"); ("band_name"%string, MetaStr "r")].

Definition run_ok {A} (default : A) (r : result A * store) : A :=
  match fst r with
  | Ok a => a
  | Raise _ => default
  end.

Definition no_filter : FilterResponse.t :=
  FilterResponse.mk [] [] [] (Float 0) (Float 0) EmptyString.

(** The triangle: response 0, 1, 0 at 5000, 6000, 7000 Angstrom. *)
Definition triangle_filter : FilterResponse.t :=
  Eval vm_compute in
    run_ok no_filter
      (@FilterResponse.init example_env
         (PyList [5000; 6000; 7000]) (PyList [0; 1; 0]) example_meta []).

(** A flat band, passed in with one extra zero sample on each side. *)
Definition band_filter : FilterResponse.t :=
  Eval vm_compute in
    run_ok no_filter
      (@FilterResponse.init example_env
         (PyList [3900; 4000; 4100; 4200; 5000; 6000; 6100])
         (PyList [0; 0; 1; 1; 1; 0; 0]) example_meta []).

(** One nanometer is ten Angstrom. *)
Definition nm : Unit := mkUnit (1, 0, 0)%Z 10.

(** An environment where the conversion from nanometre to Angstrom is the
    binary64 product of the value with astropy's factor; the other
    conversions multiply by the exact ratio. *)
Definition binary64_env : Env := {|
  _hc_constant := 198644568 # 10000000000000000;
  _ab_constant := 1088546414998 # 10000000000000;
  simps := Np.trapz;
  dtype_of := fun _ => Np.Float64;
  quantity_to := fun v u u' =>
    if unit_eqb u nm && unit_eqb u' Angstrom
    then F64.to_Q (PrimFloat.mul (F64.of_Q v) F64.nm_to_Angstrom)
    else v * (scale u / scale u')
|}.

(** An environment where the arrays that are passed in as [ndarray] hold
    64-bit integers, and sequences hold floats. *)
Definition integer_grid_env : Env := {|
  _hc_constant := 198644568 # 10000000000000000;
  _ab_constant := 1088546414998 # 10000000000000;
  simps := Np.trapz;
  dtype_of := fun x => match x with NdArray _ => Np.Int64 | _ => Np.Float64 end;
  quantity_to := fun v u u' => v * (scale u / scale u')
|}.

(** A triangle whose range ends on half Angstroms: response 0, 1, 0 at
    5000.5, 6000, 7000.5 Angstrom. *)
Definition half_filter : FilterResponse.t :=
  Eval vm_compute in
    run_ok no_filter
      (@FilterResponse.init example_env
         (PyList [5000.5; 6000; 7000.5]) (PyList [0; 1; 0]) example_meta []).

(** The binary64 number 700.0500000000001, as a rational. *)
Definition just_above_700_05 : Q :=
  Eval vm_compute in Qred (F64.to_Q F64.just_above_700_05).

(** Flux per nanometer: a unit that converts to [default_flux_unit] with
    the factor 1/10. *)
Definition flux_per_nm : Unit :=
  unit_div (unit_div (unit_div erg (unit_mul cm cm)) second) nm.

(** A spectrum that is 1 at every wavelength, in a given unit or in none. *)
Definition flat_spectrum (u : option Unit) : callable := {|
  on_array := fun _ w => Some (Array (map (fun _ => 1) w), u);
  on_scalar := fun _ _ => Some (1, u);
  runtime_error := fun _ _ => None
|}.

(** [lambda wlen: 1]. *)
Definition constant_one : callable := {|
  on_array := fun _ _ => Some (Scalar 1, None);
  on_scalar := fun _ _ => Some (1, None);
  runtime_error := fun _ _ => None
|}.

(** The numbers an array argument holds when it is passed in. *)
Definition values_of (x : pyarray) (s : store) : list Q :=
  match x with
  | PyList l => l
  | NdArray r => contents s r
  | QuantityArray r _ => contents s r
  end.

(** Two values agree on their unit: both have none, or both have the same. *)
Definition units_agree (a b : option Unit) : bool :=
  match a, b with
  | None, None => true
  | Some u, Some v => unit_eqb u v
  | _, _ => false
  end.

(** A canonical filter name: a group name, a dash, a band name. *)
Definition canonical_name (k : string) : Prop :=
  exists group band,
    _name_pattern_match group = true /\ _name_pattern_match band = true /\
    k = (group ++ "-" ++ band)%string.

(** A cache as the constructor fills it: every filter sits under its own
    name, which is canonical. *)
Definition cache_by_name (cache : filter_cache) : Prop :=
  forall k F, lookup k cache = Some F ->
    FilterResponse.name F = k /\ canonical_name k.

(** A file system with one custom filter file, in nanometres. *)
Definition example_table : Table.t := {|
  Table.columns :=
    [("wavelength"%string, Column.mk [500; 600; 700] (Some nm));
     ("response"%string, Column.mk [0; 1; 0] None)];
  Table.meta :=
    [("group_name"%string, MetaStr "example"); ("band_name"%string, MetaStr "r")]
|}.

Definition example_files : Files := {|
  _find_pkg_data_path := fun p => ("/speclite/" ++ p)%string;
  isfile := fun p => String.eqb p "custom/r.ecsv";
  read_table := fun _ => Ok example_table
|}.

(** A function that cannot take an array and returns, for a wavelength
    with its unit attached, that wavelength in Angstrom. *)
Definition one_at_a_time : callable := {|
  on_array := fun _ _ => None;
  on_scalar := fun with_units w =>
    if with_units then Some (w, Some default_wavelength_unit) else None;
  runtime_error := fun _ _ => None
|}.

(** A function that raises however it is called. *)
Definition always_raises : callable := {|
  on_array := fun _ _ => None;
  on_scalar := fun _ _ => None;
  runtime_error := fun _ _ => None
|}.

(** A function that cannot take an array, takes a wavelength with units
    only below 5500 Angstrom, and returns a plain number for a plain
    number. *)
Definition units_below_5500 : callable := {|
  on_array := fun _ _ => None;
  on_scalar := fun with_units w =>
    if with_units
    then if Qltb w 5500 then Some (1, Some default_flux_unit) else None
    else Some (1, None);
  runtime_error := fun _ _ => None
|}.

(** The order of two bands by effective wavelength alone. *)
Definition by_wavelength (a b : Q * string) : Prop := fst a <= fst b.

(** A filter file says who it is: the table that [load_filter] reads for
    the name carries that name in its metadata. *)
Definition named_like_file `{Files} (full_name : string) : Prop :=
  let file_name :=
    if String.eqb (snd (Os.splitext full_name)) EmptyString
    then _find_pkg_data_path ("data/filters/" ++ full_name ++ ".ecsv")%string
    else full_name in
  forall table, read_table file_name = Ok table ->
    exists group band,
      lookup "group_name" (Table.meta table) = Some (MetaStr group) /\
      lookup "band_name" (Table.meta table) = Some (MetaStr band) /\
      full_name = (group ++ "-" ++ band)%string.

(** A package with the two bands of one group, listed red band first. *)
Definition example_band_table (band : string) (wavelength : list Q) : Table.t := {|
  Table.columns :=
    [("wavelength"%string, Column.mk wavelength (Some default_wavelength_unit));
     ("response"%string, Column.mk [0; 1; 0] None)];
  Table.meta :=
    [("group_name"%string, MetaStr "example"); ("band_name"%string, MetaStr band)]
|}.

Definition example_package : Files := {|
  _find_pkg_data_path := fun p => ("/speclite/" ++ p)%string;
  isfile := fun p =>
    String.eqb p "/speclite/data/filters/example-r.ecsv" ||
    String.eqb p "/speclite/data/filters/example-g.ecsv";
  read_table := fun p =>
    if String.eqb p "/speclite/data/filters/example-r.ecsv"
    then Ok (example_band_table "r" [5000; 6000; 7000])
    else Ok (example_band_table "g" [4000; 5000; 6000])
|}.

Definition example_directory : Directory := {|
  glob := fun pattern =>
    if String.eqb pattern "/speclite/data/filters/example-*.ecsv"
    then ["/speclite/data/filters/example-r.ecsv"%string;
          "/speclite/data/filters/example-g.ecsv"%string]
    else []
|}.

(** A package in which one file, example-a, carries the name of another,
    example-c; the file system lists the files c, b, a. *)
Definition misnamed_package : Files := {|
  _find_pkg_data_path := fun p => ("/speclite/" ++ p)%string;
  isfile := fun _ => true;
  read_table := fun p =>
    if String.eqb p "/speclite/data/filters/example-a.ecsv"
    then Ok (example_band_table "c" [1000; 2000; 3000])
    else if String.eqb p "/speclite/data/filters/example-b.ecsv"
    then Ok (example_band_table "b" [5000; 6000; 7000])
    else Ok (example_band_table "c" [8000; 9000; 10000])
|}.

Definition misnamed_directory : Directory := {|
  glob := fun _ =>
    ["/speclite/data/filters/example-c.ecsv"%string;
     "/speclite/data/filters/example-b.ecsv"%string;
     "/speclite/data/filters/example-a.ecsv"%string]
|}.

(** * Properties *)

(** ** Boolean comparisons *)

Lemma Qltb_lt x y : Qltb x y = true <-> x < y.
Proof.
  unfold Qltb. rewrite negb_true_iff.
  destruct (Qle_bool y x) eqn:E.
  - apply Qle_bool_iff in E. split; [discriminate | intro; lra].
  - split; [intros _ | reflexivity].
    apply Qnot_le_lt. intro H. apply Qle_bool_iff in H. congruence.
Qed.

Lemma Qltb_ge x y : Qltb x y = false <-> y <= x.
Proof.
  unfold Qltb. rewrite negb_false_iff. apply Qle_bool_iff.
Qed.

Lemma Qleb_le x y : Qleb x y = true <-> x <= y.
Proof. apply Qle_bool_iff. Qed.

Lemma Qleb_gt x y : Qleb x y = false <-> y < x.
Proof.
  unfold Qleb. destruct (Qle_bool x y) eqn:E.
  - apply Qle_bool_iff in E. split; [discriminate | intro; lra].
  - split; [intros _ | reflexivity].
    apply Qnot_le_lt. intro H. apply Qle_bool_iff in H. congruence.
Qed.

Ltac qbool :=
  repeat match goal with
  | H : Qltb _ _ = true |- _ => apply Qltb_lt in H
  | H : Qltb _ _ = false |- _ => apply Qltb_ge in H
  | H : Qgtb _ _ = true |- _ => apply Qltb_lt in H
  | H : Qgtb _ _ = false |- _ => apply Qltb_ge in H
  | H : Qleb _ _ = true |- _ => apply Qleb_le in H
  | H : Qleb _ _ = false |- _ => apply Qleb_gt in H
  | H : Qgeb _ _ = true |- _ => apply Qleb_le in H
  | H : Qgeb _ _ = false |- _ => apply Qleb_gt in H
  | H : Qeq_bool _ _ = true |- _ => apply Qeq_bool_iff in H
  | H : Qeq_bool _ _ = false |- _ => apply Qeq_bool_neq in H
  end.

(** ** Arrays: indexing, slices, masks *)

Section ArrayFacts.

Import Np.

Lemma slice_length {A} (start stop : nat) (a : list A) :
  (stop <= length a)%nat -> length (slice start stop a) = (stop - start)%nat.
Proof.
  intro H. unfold slice. rewrite length_firstn, length_skipn. lia.
Qed.

Lemma slice_nth (start stop i : nat) (a : list Q) :
  (i < stop - start)%nat -> getitem (slice start stop a) i = getitem a (start + i).
Proof.
  intro H. unfold getitem, slice.
  rewrite nth_firstn.
  destruct (i <? stop - start)%nat eqn:E; [| apply Nat.ltb_ge in E; lia].
  apply nth_skipn.
Qed.

Lemma slice_all {A} (a : list A) : slice 0 (length a) a = a.
Proof.
  unfold slice. rewrite Nat.sub_0_r. simpl. apply firstn_all.
Qed.

Lemma slice_split {A} (start stop : nat) (a : list A) :
  (start <= stop)%nat ->
  a = firstn start a ++ slice start stop a ++ skipn stop a.
Proof.
  intro H. unfold slice.
  rewrite <- (firstn_skipn start a) at 1. f_equal.
  rewrite <- (firstn_skipn (stop - start) (skipn start a)) at 1. f_equal.
  rewrite skipn_skipn. f_equal. lia.
Qed.

Lemma where_from_In (mask : list bool) :
  forall k i, In i (where_from k mask) <-> (k <= i)%nat /\ nth (i - k) mask false = true.
Proof.
  induction mask as [| b m IH]; intros k i; simpl.
  - split; [tauto |]. intros [_ H]. destruct (i - k)%nat; discriminate.
  - assert (Hstep : In i (where_from (S k) m) <->
                    (S k <= i)%nat /\ nth (i - S k) m false = true) by apply IH.
    destruct (Nat.eq_dec i k) as [-> | Hne].
    + rewrite Nat.sub_diag. destruct b; simpl.
      * split; [intros _; split; [lia | reflexivity] | intros _; now left].
      * rewrite Hstep. split; [lia | intros [_ H]; discriminate].
    + assert (Hn : (k <= i)%nat -> (i - k = S (i - S k))%nat) by lia.
      destruct b; simpl; rewrite Hstep.
      * split.
        -- intros [H | [H1 H2]]; [congruence |]. split; [lia |].
           rewrite Hn by lia. exact H2.
        -- intros [H1 H2]. right. split; [lia |].
           rewrite Hn in H2 by lia. exact H2.
      * split.
        -- intros [H1 H2]. split; [lia |]. rewrite Hn by lia. exact H2.
        -- intros [H1 H2]. split; [lia |]. rewrite Hn in H2 by lia. exact H2.
Qed.

Lemma where_from_sorted (mask : list bool) :
  forall k, StronglySorted lt (where_from k mask).
Proof.
  induction mask as [| b m IH]; intro k; simpl.
  - constructor.
  - destruct b; [| apply IH].
    constructor; [apply IH |].
    apply Forall_forall. intros i Hi. apply where_from_In in Hi. lia.
Qed.

Lemma where_In (mask : list bool) (i : nat) :
  In i (where_ mask) <-> nth i mask false = true.
Proof.
  unfold where_. rewrite where_from_In, Nat.sub_0_r. split; [tauto | split; [lia | assumption]].
Qed.

Lemma where_lt_length (mask : list bool) (i : nat) :
  In i (where_ mask) -> (i < length mask)%nat.
Proof.
  intro H. apply where_In in H.
  destruct (Nat.lt_ge_cases i (length mask)) as [Hlt | Hge]; [assumption |].
  rewrite nth_overflow in H by assumption. discriminate.
Qed.

Lemma any_true_iff (mask : list bool) :
  any mask = true <-> exists i, nth i mask false = true.
Proof.
  unfold any. rewrite existsb_exists. split.
  - intros [b [Hin Hb]]. subst b.
    destruct (In_nth _ _ false Hin) as [i [_ Hi]]. eauto.
  - intros [i Hi]. exists true. split; [| reflexivity].
    rewrite <- Hi. apply nth_In.
    destruct (Nat.lt_ge_cases i (length mask)) as [Hlt | Hge]; [assumption |].
    rewrite nth_overflow in Hi by assumption. discriminate.
Qed.

Lemma any_where (mask : list bool) : any mask = true <-> where_ mask <> [].
Proof.
  rewrite any_true_iff. split.
  - intros [i Hi] Hnil. apply where_In in Hi. rewrite Hnil in Hi. exact Hi.
  - intro Hne. destruct (where_ mask) as [| i l] eqn:E; [congruence |].
    exists i. apply where_In. rewrite E. now left.
Qed.

Lemma diffn_length (l : list nat) : length (diffn l) = (length l - 1)%nat.
Proof.
  induction l as [| x [| y t] IH]; simpl in *; try reflexivity.
  rewrite IH. lia.
Qed.

Lemma diffn_nth (l : list nat) :
  forall j, (S j < length l)%nat ->
  nth j (diffn l) 0%Z = (Z.of_nat (nth (S j) l 0%nat) - Z.of_nat (nth j l 0%nat))%Z.
Proof.
  induction l as [| x [| y t] IH]; intros j Hj; simpl in Hj; try lia.
  destruct j as [| j]; [reflexivity |].
  change (diffn (x :: y :: t)) with ((Z.of_nat y - Z.of_nat x)%Z :: diffn (y :: t)).
  change (nth (S j) ((Z.of_nat y - Z.of_nat x)%Z :: diffn (y :: t)) 0%Z)
    with (nth j (diffn (y :: t)) 0%Z).
  rewrite IH by (simpl; lia). reflexivity.
Qed.

End ArrayFacts.

(** ** Strictly increasing arrays *)

Section Increasing.

Import Np.

Lemma all_true_iff (mask : list bool) :
  all mask = true <-> forall i, (i < length mask)%nat -> nth i mask false = true.
Proof.
  unfold all. rewrite forallb_forall. split.
  - intros H i Hi. apply H. now apply nth_In.
  - intros H b Hb. destruct (In_nth _ _ false Hb) as [i [Hi Hn]].
    rewrite <- Hn. now apply H.
Qed.

Lemma diff_length (a : list Q) : length (diff a) = (length a - 1)%nat.
Proof.
  induction a as [| x [| y t] IH]; simpl in *; try reflexivity.
  rewrite IH. lia.
Qed.

Lemma diff_nth (a : list Q) :
  forall j, (S j < length a)%nat ->
  nth j (diff a) 0 = getitem a (S j) - getitem a j.
Proof.
  induction a as [| x [| y t] IH]; intros j Hj; simpl in Hj; try lia.
  destruct j as [| j]; [reflexivity |].
  change (diff (x :: y :: t)) with ((y - x) :: diff (y :: t)).
  change (nth (S j) ((y - x) :: diff (y :: t)) 0) with (nth j (diff (y :: t)) 0).
  rewrite IH by (simpl; lia). reflexivity.
Qed.

Lemma strictly_increasing_step (a : list Q) :
  strictly_increasing a = true <->
  forall j, (S j < length a)%nat -> getitem a j < getitem a (S j).
Proof.
  unfold strictly_increasing. rewrite all_true_iff, length_map, diff_length.
  split; intros H j Hj.
  - assert (Hj' : (j < length a - 1)%nat) by lia.
    specialize (H j Hj').
    rewrite (nth_indep _ false (Qgtb 0 0)) in H by (rewrite length_map, diff_length; lia).
    rewrite (map_nth (fun d => Qgtb d 0)) in H.
    rewrite diff_nth in H by assumption. qbool. lra.
  - rewrite (nth_indep _ false (Qgtb 0 0)) by (rewrite length_map, diff_length; lia).
    rewrite (map_nth (fun d => Qgtb d 0)).
    rewrite diff_nth by lia. apply Qltb_lt.
    assert (Hs : (S j < length a)%nat) by lia.
    specialize (H j Hs). lra.
Qed.

Lemma strictly_increasing_spec (a : list Q) :
  strictly_increasing a = true <-> increasing a.
Proof.
  rewrite strictly_increasing_step. split.
  - intros H i j Hij Hj. induction j as [| j IH]; [lia |].
    destruct (Nat.eq_dec i j) as [-> | Hne].
    + now apply H.
    + apply Qlt_trans with (getitem a j); [apply IH; lia | now apply H].
  - intros H j Hj. apply H; [lia | assumption].
Qed.

Lemma increasing_le (a : list Q) (i j : nat) :
  increasing a -> (i <= j)%nat -> (j < length a)%nat -> getitem a i <= getitem a j.
Proof.
  intros H Hij Hj. destruct (Nat.eq_dec i j) as [-> | Hne]; [lra |].
  apply Qlt_le_weak, H; [lia | assumption].
Qed.

(** Order of the values gives the order of the positions. *)
Lemma increasing_index_lt (a : list Q) (i j : nat) :
  increasing a -> (i < length a)%nat -> (j < length a)%nat ->
  getitem a i < getitem a j -> (i < j)%nat.
Proof.
  intros H Hi Hj Hlt.
  destruct (Nat.lt_ge_cases i j) as [Hij | Hji]; [assumption |].
  pose proof (increasing_le a j i H Hji Hi). lra.
Qed.

Lemma increasing_slice (a : list Q) (start stop : nat) :
  increasing a -> (stop <= length a)%nat -> increasing (slice start stop a).
Proof.
  intros H Hstop i j Hij Hj.
  rewrite slice_length in Hj by assumption.
  rewrite !slice_nth by lia. apply H; lia.
Qed.

End Increasing.

(** ** Binary search *)

Section BinarySearch.

Import Np.

Lemma half_lt (n : nat) : (0 < n)%nat -> (n / 2 < n)%nat.
Proof. intro H. apply Nat.div_lt; lia. Qed.

Lemma bisect_left_step (fuel : nat) (a : list Q) (key : Q) (lo hi : nat) :
  bisect_left (S fuel) a key lo hi =
  if (lo <? hi)%nat then
    if Qltb (getitem a (lo + (hi - lo) / 2)) key
    then bisect_left fuel a key (S (lo + (hi - lo) / 2)) hi
    else bisect_left fuel a key lo (lo + (hi - lo) / 2)
  else lo.
Proof. reflexivity. Qed.

Lemma bisect_left_spec (a : list Q) (key : Q) :
  increasing a ->
  forall fuel lo hi,
    (hi - lo <= fuel)%nat -> (lo <= hi)%nat -> (hi <= length a)%nat ->
    (forall i, (i < lo)%nat -> getitem a i < key) ->
    (forall i, (hi <= i)%nat -> (i < length a)%nat -> key <= getitem a i) ->
    let r := bisect_left fuel a key lo hi in
    (lo <= r)%nat /\ (r <= hi)%nat /\ insertion_position a key r.
Proof.
  intros Hinc fuel.
  induction fuel as [| fuel IH]; intros lo hi Hfuel Hlo Hhi Hbelow Habove r.
  - assert (lo = hi) by lia. subst hi r. simpl.
    repeat split; try lia; assumption.
  - subst r. rewrite bisect_left_step.
    destruct (lo <? hi)%nat eqn:Elt.
    + apply Nat.ltb_lt in Elt.
      pose proof (half_lt (hi - lo) ltac:(lia)) as Hhalf.
      set (mid := (lo + (hi - lo) / 2)%nat) in *.
      assert (Hmid : (lo <= mid)%nat /\ (mid < hi)%nat) by (unfold mid; lia).
      destruct (Qltb (getitem a mid) key) eqn:Ecmp; qbool.
      * destruct (IH (S mid) hi) as [H1 [H2 H3]]; try lia; try assumption.
        -- intros i Hi.
           apply Qle_lt_trans with (getitem a mid); [| assumption].
           apply increasing_le; [assumption | lia | lia].
        -- repeat split; try lia; apply H3.
      * destruct (IH lo mid) as [H1 [H2 H3]]; try lia; try assumption.
        -- intros i Hi Hlen.
           apply Qle_trans with (getitem a mid); [assumption |].
           apply increasing_le; [assumption | lia | lia].
        -- repeat split; try lia; apply H3.
    + apply Nat.ltb_ge in Elt. assert (lo = hi) by lia. subst hi.
      repeat split; try lia; assumption.
Qed.

(** [np.searchsorted] returns an insertion position in a sorted array. *)
Lemma searchsorted1_spec (a : list Q) (key : Q) :
  increasing a -> insertion_position a key (searchsorted1 a key).
Proof.
  intro Hinc. unfold searchsorted1.
  apply (bisect_left_spec a key Hinc (length a) 0%nat (length a)); lia.
Qed.

(** The insertion position is unique. *)
Lemma insertion_position_unique (a : list Q) (key : Q) (r r' : nat) :
  insertion_position a key r -> insertion_position a key r' -> r = r'.
Proof.
  intros [Hr [Hb Ha]] [Hr' [Hb' Ha']].
  destruct (Nat.lt_trichotomy r r') as [Hlt | [Heq | Hgt]]; [| assumption |].
  - specialize (Hb' r Hlt). specialize (Ha r (Nat.le_refl r) ltac:(lia)). lra.
  - specialize (Hb r' Hgt). specialize (Ha' r' (Nat.le_refl r') ltac:(lia)). lra.
Qed.

(** Larger keys are inserted further right. *)
Lemma searchsorted1_mono (a : list Q) (k1 k2 : Q) :
  increasing a -> k1 <= k2 -> (searchsorted1 a k1 <= searchsorted1 a k2)%nat.
Proof.
  intros Hinc Hle.
  destruct (searchsorted1_spec a k1 Hinc) as [Hr1 [Hb1 Ha1]].
  destruct (searchsorted1_spec a k2 Hinc) as [Hr2 [Hb2 Ha2]].
  destruct (Nat.le_gt_cases (searchsorted1 a k1) (searchsorted1 a k2)) as [H | H];
    [assumption |].
  specialize (Hb1 _ H). specialize (Ha2 _ (Nat.le_refl _) ltac:(lia)). lra.
Qed.

End BinarySearch.

(** ** Sorting by position *)

Section Sorting.

Import Np.





















End Sorting.

(** ** Masks built from a test on the entries *)

Section Masks.

Import Np.

Lemma nth_map_mask (f : Q -> bool) (l : list Q) (i : nat) :
  (i < length l)%nat -> nth i (map f l) false = f (getitem l i).
Proof.
  intro Hi. rewrite (nth_indep _ false (f 0)) by (now rewrite length_map).
  apply map_nth.
Qed.

Lemma any_map_false (f : Q -> bool) (l : list Q) :
  any (map f l) = false <-> forall i, (i < length l)%nat -> f (getitem l i) = false.
Proof.
  split.
  - intros H i Hi. destruct (f (getitem l i)) eqn:E; [| reflexivity].
    assert (Ht : any (map f l) = true).
    { apply any_true_iff. exists i. now rewrite nth_map_mask. }
    congruence.
  - intro H. destruct (any (map f l)) eqn:E; [| reflexivity].
    apply any_true_iff in E. destruct E as [i Hi].
    destruct (Nat.lt_ge_cases i (length l)) as [Hlt | Hge].
    + rewrite nth_map_mask in Hi by assumption. rewrite H in Hi by assumption. discriminate.
    + rewrite nth_overflow in Hi by (now rewrite length_map). discriminate.
Qed.

Lemma all_map_false (f : Q -> bool) (l : list Q) :
  all (map f l) = false -> exists i, (i < length l)%nat /\ f (getitem l i) = false.
Proof.
  unfold all. induction l as [| x l IH]; simpl; [discriminate |].
  destruct (f x) eqn:E; simpl.
  - intro H. destruct (IH H) as [i [Hi Hf]]. exists (S i). split; [lia | exact Hf].
  - intros _. exists 0%nat. split; [lia | exact E].
Qed.

Lemma where_map_In (f : Q -> bool) (l : list Q) (i : nat) :
  In i (where_ (map f l)) <-> (i < length l)%nat /\ f (getitem l i) = true.
Proof.
  split.
  - intro H. pose proof (where_lt_length _ _ H) as Hlen. rewrite length_map in Hlen.
    apply where_In in H. rewrite nth_map_mask in H by assumption. now split.
  - intros [Hi Hf]. apply where_In. now rewrite nth_map_mask.
Qed.

Lemma sorted_hd_last (l : list nat) (x : nat) :
  StronglySorted lt l -> In x l ->
  In (hd 0%nat l) l /\ In (last l 0%nat) l /\ (hd 0 l <= x)%nat /\ (x <= last l 0)%nat.
Proof.
  intro Hsorted. revert x.
  induction Hsorted as [| y l Hs IH Hall]; intros x Hin; [contradiction |].
  rewrite Forall_forall in Hall.
  destruct l as [| z l].
  - destruct Hin as [<- | []]. simpl. repeat split; auto.
  - assert (Hz : In z (z :: l)) by now left.
    destruct (IH _ Hz) as [_ [Hl _]].
    change (last (y :: z :: l) 0%nat) with (last (z :: l) 0%nat).
    repeat split.
    + now left.
    + now right.
    + simpl. destruct Hin as [<- | Hin]; [lia |]. specialize (Hall _ Hin). lia.
    + destruct Hin as [<- | Hin].
      * specialize (Hall _ Hl). lia.
      * now destruct (IH _ Hin) as [_ [_ [_ ?]]].
Qed.

End Masks.

(** ** Running the store monad *)

Lemma bind_ok {A B} (m : M A) (k : A -> M B) (s s' : store) (b : B) :
  bind m k s = (Ok b, s') ->
  exists a s1, m s = (Ok a, s1) /\ k a s1 = (Ok b, s').
Proof.
  unfold bind. destruct (m s) as [[a | e] s1]; [eauto | discriminate].
Qed.

Lemma bind_run {A B} (m : M A) (k : A -> M B) (s s1 : store) (a : A) :
  m s = (Ok a, s1) -> bind m k s = k a s1.
Proof. unfold bind. now intros ->. Qed.

Lemma validate_wavelength_array_ok (wavelength : pyarray) (min_length : nat)
    (s s1 : store) (w : ref) :
  validate_wavelength_array wavelength min_length s = (Ok w, s1) ->
  (min_length <= length (contents s1 w))%nat /\ increasing (contents s1 w).
Proof.
  unfold validate_wavelength_array. intro H.
  apply bind_ok in H. destruct H as [r [s0 [_ H]]].
  apply bind_ok in H. destruct H as [u [s2 [_ H]]].
  unfold bind, load in H.
  destruct (length (contents s2 r) <? min_length)%nat eqn:Elen; [discriminate |].
  destruct (strictly_increasing (contents s2 r)) eqn:Einc; [| discriminate].
  simpl in H. inversion H; subst. apply Nat.ltb_ge in Elen.
  split; [assumption | now apply strictly_increasing_spec].
Qed.

Lemma rbind_ok {A B} (r : result A) (k : A -> result B) (b : B) :
  rbind r k = Ok b -> exists a, r = Ok a /\ k a = Ok b.
Proof. destruct r; simpl; [eauto | discriminate]. Qed.

(** ** FilterResponse: the trimmed arrays *)

Section Trim.

Import Np.

Lemma trim_spec (w r : list Q) :
  length w = length r -> checked_response r ->
  exists start stop,
    (stop <= length r)%nat /\ (start + 3 <= stop)%nat /\
    FilterResponse.trim w r = (slice start stop w, slice start stop r) /\
    (forall i, (i <= start)%nat -> getitem r i == 0) /\
    0 < getitem r (start + 1) /\
    0 < getitem r (stop - 2) /\
    (forall i, (stop - 1 <= i)%nat -> (i < length r)%nat -> getitem r i == 0).
Proof.
  intros Hlen [Hnonneg [[i0 [Hi0 Hnz]] [Hfirst Hlast]]].
  unfold FilterResponse.trim.
  set (nz := where_ (map (fun x => Qgtb x 0) r)).
  assert (Hin : forall i, In i nz <-> (i < length r)%nat /\ 0 < getitem r i).
  { intro i. unfold nz. rewrite where_map_In. unfold Qgtb. now rewrite Qltb_lt. }
  assert (Hs : StronglySorted lt nz) by apply where_from_sorted.
  assert (Hi0in : In i0 nz).
  { apply Hin. split; [assumption |]. specialize (Hnonneg i0 Hi0).
    destruct (Qlt_le_dec 0 (getitem r i0)) as [Hpos | Hle]; [assumption |].
    exfalso. apply Hnz. lra. }
  destruct (sorted_hd_last nz i0 Hs Hi0in) as [Ha [Hb [Hai Hib]]].
  set (a := hd 0%nat nz) in *. set (b := last nz 0%nat) in *.
  apply Hin in Ha. apply Hin in Hb. destruct Ha as [Halen Hapos], Hb as [Hblen Hbpos].
  assert (Ha1 : (1 <= a)%nat).
  { destruct a; [lra | lia]. }
  assert (Hb1 : (b + 2 <= length r)%nat).
  { unfold last_item in Hlast.
    destruct (Nat.eq_dec b (length r - 1)) as [E | E]; [rewrite <- E in Hlast; unfold getitem in Hbpos; lra | lia]. }
  assert (Hzero : forall i, (i < length r)%nat -> ~ In i nz -> getitem r i == 0).
  { intros i Hi Hni. specialize (Hnonneg i Hi).
    destruct (Qlt_le_dec 0 (getitem r i)) as [Hpos | Hle]; [| lra].
    exfalso. apply Hni, Hin. now split. }
  exists (a - 1)%nat, (b + 2)%nat.
  split; [assumption |]. split; [lia |]. split; [| split; [| split; [| split]]].
  - destruct (b + 2 - (a - 1) <? length w)%nat eqn:E; [reflexivity |].
    apply Nat.ltb_ge in E.
    assert (a - 1 = 0)%nat by lia. assert (b + 2 = length r)%nat by lia.
    replace (a - 1)%nat with 0%nat by lia. replace (b + 2)%nat with (length r) by lia.
    rewrite slice_all. rewrite <- Hlen, slice_all. reflexivity.
  - intros i Hi. apply Hzero; [lia |]. intro Hc.
    destruct (sorted_hd_last nz i Hs Hc) as [_ [_ [Hle _]]]. fold a in Hle. lia.
  - replace (a - 1 + 1)%nat with a by lia. assumption.
  - replace (b + 2 - 2)%nat with b by lia. assumption.
  - intros i Hi Hlt. apply Hzero; [assumption |]. intro Hc.
    destruct (sorted_hd_last nz i Hs Hc) as [_ [_ [_ Hle]]]. fold b in Hle. lia.
Qed.

End Trim.

Section ResponseConstruction.

Import Np.
Context `{Env}.

Lemma init_arrays_ok (w r : list Q) (meta : option metadata) (F : FilterResponse.t) :
  FilterResponse.init_arrays w r meta = Ok F ->
  length w = length r /\ checked_response r /\
  (FilterResponse._wavelength F, FilterResponse.response F) = FilterResponse.trim w r.
Proof.
  unfold FilterResponse.init_arrays. intro Hinit.
  destruct (length w =? length r)%nat eqn:Elen; [| discriminate].
  destruct (any (map (fun x => Qltb x 0) r)) eqn:Eneg; [discriminate |].
  destruct (all (map (fun x => Qeq_bool x 0) r)) eqn:Ezero; [discriminate |].
  destruct (Qeq_bool (getitem r 0) 0 && Qeq_bool (last_item r) 0) eqn:Eends;
    [| discriminate].
  simpl in Hinit.
  apply Nat.eqb_eq in Elen. apply andb_prop in Eends. destruct Eends as [E0 E1].
  split; [assumption |]. split.
  - repeat split.
    + intros i Hi. rewrite any_map_false in Eneg. specialize (Eneg i Hi). now qbool.
    + apply all_map_false in Ezero. destruct Ezero as [i [Hi Hz]].
      exists i. split; [assumption | now qbool].
    + now qbool.
    + now qbool.
  - destruct (FilterResponse.trim w r) as [w' r'].
    destruct meta as [meta |]; [| discriminate].
    repeat (apply rbind_ok in Hinit; destruct Hinit as [? [_ Hinit]]).
    inversion Hinit. reflexivity.
Qed.

Lemma FilterResponse_init_ok (wavelength response : pyarray) (meta : option metadata)
    (s s' : store) (F : FilterResponse.t) :
  FilterResponse.init wavelength response meta s = (Ok F, s') ->
  exists w s1 r,
    validate_wavelength_array wavelength 3 s = (Ok w, s1) /\
    asarray response s1 = (Ok r, s') /\
    FilterResponse.init_arrays (contents s1 w) (contents s' r) meta = Ok F.
Proof.
  unfold FilterResponse.init. intro Hinit.
  apply bind_ok in Hinit. destruct Hinit as [w [s1 [Hv Hinit]]].
  apply bind_ok in Hinit. destruct Hinit as [wl [s2 [Hl Hinit]]].
  apply bind_ok in Hinit. destruct Hinit as [r [s3 [Ha Hinit]]].
  apply bind_ok in Hinit. destruct Hinit as [rl [s4 [Hr Hinit]]].
  unfold load in Hl, Hr. unfold lift in Hinit.
  inversion Hl; subst. inversion Hr; subst. inversion Hinit; subst.
  exists w, s2, r. repeat split; assumption.
Qed.

(** The stored wavelengths of a constructed filter grow strictly and there
    are at least three of them. *)
Lemma FilterResponse_init_wavelength (wavelength response : pyarray)
    (meta : option metadata) (s s' : store) (F : FilterResponse.t) :
  FilterResponse.init wavelength response meta s = (Ok F, s') ->
  increasing (FilterResponse._wavelength F) /\
  (3 <= length (FilterResponse._wavelength F))%nat.
Proof.
  intro Hinit.
  destruct (FilterResponse_init_ok _ _ _ _ _ _ Hinit) as [w [s1 [r [Hv [_ Harr]]]]].
  apply validate_wavelength_array_ok in Hv. destruct Hv as [_ Hinc].
  apply init_arrays_ok in Harr. destruct Harr as [Hlen [Hchk Htrim]].
  destruct (trim_spec _ _ Hlen Hchk) as [start [stop [Hstop [Hss [Heq _]]]]].
  rewrite Heq in Htrim. inversion Htrim as [[Hw Hr]]. rewrite Hw.
  split.
  - apply increasing_slice; [assumption | lia].
  - rewrite slice_length by lia. lia.
Qed.

(** C6.  After construction the stored arrays are a slice of the arrays that
    were passed in; every dropped response sample is zero; and the stored
    response has exactly one zero sample at each edge: its first and last
    values are zero and their neighbours are positive. *)
Theorem FilterResponse_init_trims_zeros (wavelength response : pyarray)
    (meta : option metadata) (s s' : store) (F : FilterResponse.t) :
  FilterResponse.init wavelength response meta s = (Ok F, s') ->
  exists w s1 r start stop,
    validate_wavelength_array wavelength 3 s = (Ok w, s1) /\
    asarray response s1 = (Ok r, s') /\
    let r_in := contents s' r in
    let W := FilterResponse._wavelength F in
    let R := FilterResponse.response F in
    W = slice start stop (contents s1 w) /\
    R = slice start stop r_in /\
    (forall i, (i < start \/ stop <= i)%nat -> (i < length r_in)%nat ->
               getitem r_in i == 0) /\
    length W = length R /\ (3 <= length R)%nat /\
    getitem R 0 == 0 /\ 0 < getitem R 1 /\
    0 < getitem R (length R - 2) /\ last_item R == 0.
Proof.
  intro Hinit.
  destruct (FilterResponse_init_ok _ _ _ _ _ _ Hinit) as [w [s1 [r [Hv [Ha Harr]]]]].
  apply init_arrays_ok in Harr. destruct Harr as [Hlen [Hchk Htrim]].
  destruct (trim_spec _ _ Hlen Hchk)
    as [start [stop [Hstop [Hss [Heq [Hlead [Hp1 [Hp2 Htrail]]]]]]]].
  rewrite Heq in Htrim. inversion Htrim as [[Hw Hr]].
  exists w, s1, r, start, stop.
  split; [assumption |]. split; [assumption |]. cbv zeta. rewrite Hw, Hr.
  assert (HlenR : length (slice start stop (contents s' r)) = (stop - start)%nat)
    by (apply slice_length; lia).
  split; [reflexivity |]. split; [reflexivity |]. split; [| split; [| split]].
  - intros i [Hi | Hi] Hlt; [apply Hlead; lia | apply Htrail; lia].
  - rewrite HlenR. apply slice_length. lia.
  - rewrite HlenR. lia.
  - unfold last_item. rewrite HlenR.
    fold (getitem (slice start stop (contents s' r)) (stop - start - 1)).
    rewrite !slice_nth by lia.
    replace (start + 0)%nat with start by lia.
    replace (start + (stop - start - 2))%nat with (stop - 2)%nat by lia.
    replace (start + (stop - start - 1))%nat with (stop - 1)%nat by lia.
    repeat split.
    + apply Hlead. lia.
    + assumption.
    + assumption.
    + apply Htrail; lia.
Qed.

End ResponseConstruction.

(** ** FilterResponse: point evaluation *)

Section PointEvaluation.

Context `{Env}.

Lemma out_of_bounds_outside (a : list Q) (x : Q) :
  Scipy.out_of_bounds a x = true <-> outside a x.
Proof.
  unfold Scipy.out_of_bounds, outside, Qgtb.
  rewrite orb_true_iff, !Qltb_lt. reflexivity.
Qed.

Lemma interpolator_outside (F : FilterResponse.t) (x : Q) :
  outside (FilterResponse._wavelength F) x -> FilterResponse.interpolator F x = 0.
Proof.
  intro Hout. unfold FilterResponse.interpolator, Scipy.interp1d_fill.
  apply out_of_bounds_outside in Hout. now rewrite Hout.
Qed.

(** C8, as amended.  Evaluating the response at a wavelength gives exactly
    0 when the number that is looked up lies below the first or above the
    last stored wavelength: for a plain number that is the number itself,
    for a number with a convertible unit it is the number that the
    conversion returns; and so entry by entry for an array. *)
Theorem FilterResponse_call_outside_is_zero (F : FilterResponse.t)
    (wavelength : pyfloat) (x : Q) :
  canonical_wavelength wavelength = Some x ->
  outside (FilterResponse._wavelength F) x ->
  FilterResponse.call F wavelength = Ok 0 /\
  forall ws, Forall (outside (FilterResponse._wavelength F)) ws ->
             FilterResponse.call_array F ws None = Ok (map (fun _ => 0) ws).
Proof.
  intros Hcanon Hout. split.
  - destruct wavelength as [w | w u]; simpl in *.
    + inversion Hcanon; subst. now rewrite interpolator_outside.
    + destruct (unit_to u default_wavelength_unit) as [factor |]; [| discriminate].
      inversion Hcanon; subst. now rewrite interpolator_outside.
  - intros ws Hall. simpl. f_equal.
    induction Hall as [| y ws Hy Hall IH]; [reflexivity |].
    simpl. rewrite interpolator_outside by assumption. now rewrite IH.
Qed.

End PointEvaluation.

(** ** FilterConvolution: the covering slice *)

Section CoveringSlice.

Import Np.

Lemma covering_slice_spec (w : list Q) (lo hi : Q) :
  increasing w -> (1 <= length w)%nat -> lo < hi ->
  getitem w 0 <= lo -> hi <= last_item w ->
  exists start stop,
    FilterConvolution.covering_slice w lo hi = (start, stop) /\
    (start + 2 <= stop)%nat /\ (stop <= length w)%nat /\
    getitem w start <= lo /\ hi <= getitem w (stop - 1) /\
    (forall i, (start < i)%nat -> (i < length w)%nat -> lo < getitem w i) /\
    (forall i, (i + 1 < stop)%nat -> getitem w i < hi).
Proof.
  intros Hinc Hlen Hlohi Hfirst Hlast.
  unfold FilterConvolution.covering_slice.
  set (below := where_ (map (fun x => Qleb x lo) w)).
  set (above := where_ (map (fun x => Qgeb x hi) w)).
  assert (Hbelow : forall i, In i below <-> (i < length w)%nat /\ getitem w i <= lo).
  { intro i. unfold below. rewrite where_map_In, Qleb_le. reflexivity. }
  assert (Habove : forall i, In i above <-> (i < length w)%nat /\ hi <= getitem w i).
  { intro i. unfold above. rewrite where_map_In. unfold Qgeb.
    rewrite Qle_bool_iff. reflexivity. }
  (* the start of the slice *)
  assert (Hstart : exists start,
    (if Qltb (getitem w 0) lo then last below 0%nat else 0%nat) = start /\
    (start < length w)%nat /\ getitem w start <= lo /\
    forall i, (start < i)%nat -> (i < length w)%nat -> lo < getitem w i).
  { destruct (Qltb (getitem w 0) lo) eqn:E; qbool.
    - assert (H0 : In 0%nat below) by (apply Hbelow; split; [lia | lra]).
      destruct (sorted_hd_last below 0%nat (where_from_sorted _ _) H0)
        as [_ [Hl _]].
      exists (last below 0%nat). split; [reflexivity |].
      pose proof Hl as Hl'. apply Hbelow in Hl'. destruct Hl' as [Hl1 Hl2].
      repeat split; try assumption.
      intros i Hi Hilen.
      destruct (Qlt_le_dec lo (getitem w i)) as [Hgt | Hle]; [assumption |].
      assert (Hin : In i below) by (apply Hbelow; now split).
      destruct (sorted_hd_last below i (where_from_sorted _ _) Hin)
        as [_ [_ [_ Hmax]]]. lia.
    - exists 0%nat. split; [reflexivity |]. repeat split; try lia; try assumption.
      intros i Hi Hilen. apply Qle_lt_trans with (getitem w 0); [assumption |].
      apply Hinc; assumption. }
  (* the stop of the slice *)
  assert (Hstop : exists stop,
    (if Qgtb (last_item w) hi then (1 + hd 0 above)%nat else length w) = stop /\
    (1 <= stop)%nat /\ (stop <= length w)%nat /\ hi <= getitem w (stop - 1) /\
    forall i, (i + 1 < stop)%nat -> getitem w i < hi).
  { destruct (Qgtb (last_item w) hi) eqn:E; qbool.
    - assert (Hn : In (length w - 1)%nat above).
      { apply Habove. split; [lia |]. unfold last_item in E. unfold getitem. lra. }
      destruct (sorted_hd_last above _ (where_from_sorted _ _) Hn)
        as [Hh _].
      exists (1 + hd 0 above)%nat. split; [reflexivity |].
      pose proof Hh as Hh'. apply Habove in Hh'. destruct Hh' as [Hh1 Hh2].
      replace (1 + hd 0 above - 1)%nat with (hd 0%nat above) by lia.
      repeat split; try lia; try assumption.
      intros i Hi.
      destruct (Qlt_le_dec (getitem w i) hi) as [Hlt | Hge]; [assumption |].
      assert (Hin : In i above) by (apply Habove; split; [lia | assumption]).
      destruct (sorted_hd_last above i (where_from_sorted _ _) Hin)
        as [_ [_ [Hmin _]]]. lia.
    - exists (length w). split; [reflexivity |].
      repeat split; try lia; try assumption.
      intros i Hi. apply Qlt_le_trans with (getitem w (length w - 1)).
      + apply Hinc; lia.
      + unfold last_item in E. unfold getitem. lra. }
  destruct Hstart as [start [Es [Hs1 [Hs2 Hs3]]]].
  destruct Hstop as [stop [Et [Ht0 [Ht1 [Ht2 Ht3]]]]].
  exists start, stop. rewrite Es, Et.
  split; [reflexivity |].
  assert (Hlt : (start < stop - 1)%nat).
  { apply (increasing_index_lt w); try assumption; try lia. lra. }
  repeat split; try assumption; lia.
Qed.

End CoveringSlice.

(** ** FilterConvolution: construction *)

Section PlanConstruction.

Import Np.
Context `{Env}.

Lemma FilterConvolution_init_run (F : FilterResponse.t) (wavelength : pyarray)
    (pw interp : bool) (units : option Unit) (s s1 : store) (w : ref) :
  validate_wavelength_array wavelength 2 s = (Ok w, s1) ->
  FilterConvolution.init F wavelength pw interp units s =
  match FilterConvolution.init_grid F (contents s1 w) (array_dtype wavelength)
          pw interp units with
  | Ok p => (Ok p, clamped_store p w s1)
  | Raise e => (Raise e, s1)
  end.
Proof.
  intro Hv. unfold FilterConvolution.init.
  rewrite (bind_run _ _ _ _ _ Hv). unfold bind, load, lift.
  destruct (FilterConvolution.init_grid F (contents s1 w) (array_dtype wavelength)
              pw interp units) as [p | e]; [| reflexivity].
  unfold clamped_store.
  destruct (FilterConvolution.interpolate_sort_order p); [reflexivity |].
  destruct (FilterConvolution.response_slice p) as [start stop]. reflexivity.
Qed.

Lemma FilterConvolution_init_ok (F : FilterResponse.t) (wavelength : pyarray)
    (pw interp : bool) (units : option Unit) (s s' : store) (p : FilterConvolution.t) :
  FilterConvolution.init F wavelength pw interp units s = (Ok p, s') ->
  exists w s1,
    validate_wavelength_array wavelength 2 s = (Ok w, s1) /\
    FilterConvolution.init_grid F (contents s1 w) (array_dtype wavelength)
      pw interp units = Ok p /\
    s' = clamped_store p w s1.
Proof.
  intro Hinit.
  destruct (validate_wavelength_array wavelength 2 s) as [[w | e] s1] eqn:Hv.
  - rewrite (FilterConvolution_init_run F wavelength pw interp units s s1 w Hv) in Hinit.
    destruct (FilterConvolution.init_grid F (contents s1 w) (array_dtype wavelength)
                pw interp units) as [p' | e] eqn:Hg; [| discriminate].
    injection Hinit as <- <-. exists w, s1. auto.
  - unfold FilterConvolution.init, bind in Hinit. rewrite Hv in Hinit. discriminate.
Qed.

Lemma covers_test (F : FilterResponse.t) (w : list Q) :
  let fw := FilterResponse._wavelength F in
  Qgtb (getitem w 0) (getitem fw 0) || Qltb (last_item w) (last_item fw) = false
  <-> covers F w.
Proof.
  cbv zeta. unfold covers, Qgtb. rewrite orb_false_iff, !Qltb_ge. reflexivity.
Qed.

Lemma init_grid_not_covered (F : FilterResponse.t) (w : list Q) (dt : dtype)
    (pw interp : bool) (units : option Unit) :
  ~ covers F w ->
  FilterConvolution.init_grid F w dt pw interp units = Raise (ValueError msg_not_covered).
Proof.
  intro Hn. unfold FilterConvolution.init_grid.
  destruct (Qgtb (getitem w 0) (getitem (FilterResponse._wavelength F) 0)
            || Qltb (last_item w) (last_item (FilterResponse._wavelength F))) eqn:E;
    [reflexivity |].
  apply covers_test in E. contradiction.
Qed.

(** What the constructor does with a grid that covers the filter. *)
Lemma init_grid_covered (F : FilterResponse.t) (w : list Q) (dt : dtype)
    (pw interp : bool) (units : option Unit) :
  let fw := FilterResponse._wavelength F in
  let w' := restricted_grid F w in
  let lo := getitem fw 0 in
  let hi := last_item fw in
  increasing w -> (1 <= length w)%nat -> lo < hi -> covers F w ->
  (any (FilterConvolution.undersampled_mask w' fw) = true /\ interp = false /\
   FilterConvolution.init_grid F w dt pw interp units = Raise (ValueError msg_undersampled))
  \/
  (exists p,
     FilterConvolution.init_grid F w dt pw interp units = Ok p /\
     FilterConvolution.response p = F /\
     FilterConvolution.response_slice p = FilterConvolution.covering_slice w lo hi /\
     ((any (FilterConvolution.undersampled_mask w' fw) = false /\
       FilterConvolution.interpolate_wavelength p = None /\
       FilterConvolution.quad_wavelength p = FilterConvolution.clamp dt w' lo hi)
      \/
      (any (FilterConvolution.undersampled_mask w' fw) = true /\ interp = true /\
       let nodes := take fw (FilterConvolution.undersampled_index w' fw) in
       FilterConvolution.interpolate_wavelength p = Some nodes /\
       FilterConvolution.quad_wavelength p =
         FilterConvolution.clamp Float64
           (take (hstack w' nodes) (argsort (hstack w' nodes))) lo hi))).
Proof.
  intros fw w' lo hi Hinc Hlen Hlohi Hcov.
  pose proof (proj2 (covers_test F w) Hcov) as Htest. cbv zeta in Htest.
  destruct Hcov as [Hc1 Hc2].
  destruct (covering_slice_spec w lo hi Hinc Hlen Hlohi Hc1 Hc2)
    as [start [stop [Eslice [Hss [Hstop _]]]]].
  assert (Ew : (if ((0 <? start) || (stop <? length w))%nat
                then slice start stop w else w) = w').
  { unfold w', restricted_grid. fold fw. fold lo. fold hi. rewrite Eslice.
    destruct ((0 <? start) || (stop <? length w))%nat eqn:E; [reflexivity |].
    apply orb_false_iff in E. destruct E as [E1 E2].
    apply Nat.ltb_ge in E1, E2.
    assert (start = 0)%nat by lia. assert (stop = length w) by lia. subst start stop.
    now rewrite slice_all. }
  clearbody w'. subst lo hi fw.
  unfold FilterConvolution.init_grid. cbv zeta.
  rewrite Htest, Eslice.
  rewrite Ew.
  unfold FilterResponse.call_array, rbind.
  destruct (any (FilterConvolution.undersampled_mask w'
                 (FilterResponse._wavelength F))) eqn:Eany.
  - destruct interp.
    + right. eexists. split; [reflexivity |]. simpl.
      split; [reflexivity |]. split; [reflexivity |]. right.
      repeat split; reflexivity.
    + left. repeat split; reflexivity.
  - right. eexists. split; [reflexivity |]. simpl.
    split; [reflexivity |]. split; [reflexivity |]. left.
    repeat split; reflexivity.
Qed.

End PlanConstruction.

Section PlanGrid.

Import Np.
Context `{Env}.

Lemma restricted_grid_spec (F : FilterResponse.t) (w : list Q) :
  let fw := FilterResponse._wavelength F in
  let w' := restricted_grid F w in
  increasing w -> (1 <= length w)%nat -> getitem fw 0 < last_item fw -> covers F w ->
  increasing w' /\ (2 <= length w')%nat /\
  getitem w' 0 <= getitem fw 0 /\ last_item fw <= last_item w' /\
  (forall i, (1 <= i)%nat -> (i < length w')%nat -> getitem fw 0 < getitem w' i) /\
  (forall i, (i + 1 < length w')%nat -> getitem w' i < last_item fw).
Proof.
  intros fw w' Hinc Hlen Hlohi [Hc1 Hc2].
  destruct (covering_slice_spec w _ _ Hinc Hlen Hlohi Hc1 Hc2)
    as [start [stop [Eslice [Hss [Hstop [Hlo [Hhi [Hmin Hmax]]]]]]]].
  assert (Ew : w' = slice start stop w).
  { unfold w', restricted_grid. fold fw. now rewrite Eslice. }
  assert (Hl : length w' = (stop - start)%nat) by (rewrite Ew; now apply slice_length).
  split; [rewrite Ew; now apply increasing_slice |].
  split; [lia |]. unfold last_item. rewrite Hl.
  fold (getitem w' (stop - start - 1)). rewrite Ew.
  rewrite !slice_nth by lia.
  replace (start + 0)%nat with start by lia.
  replace (start + (stop - start - 1))%nat with (stop - 1)%nat by lia.
  split; [assumption |]. split; [assumption |]. split.
  - intros i Hi1 Hi2. rewrite slice_nth by lia. apply Hmin; lia.
  - intros i Hi. rewrite slice_nth by lia. apply Hmax. lia.
Qed.






End PlanGrid.

(** ** FilterConvolution: the sampling test *)

Section SamplingTest.

Import Np.

Lemma nth_map_in_range {A B} (f : A -> B) (l : list A) (i : nat) (d : B) (d' : A) :
  (i < length l)%nat -> nth i (map f l) d = f (nth i l d').
Proof.
  intro Hi. rewrite (nth_indep _ d (f d')) by (now rewrite length_map).
  apply map_nth.
Qed.

Lemma nth_tl (l : list Q) (i : nat) : nth i (tl l) 0 = nth (S i) l 0.
Proof. destruct l; [destruct i |]; reflexivity. Qed.

Lemma length_tl (l : list Q) : length (tl l) = (length l - 1)%nat.
Proof. destruct l; simpl; lia. Qed.

Lemma insert_index_nth (w' fw : list Q) (j : nat) :
  (S j < length fw)%nat ->
  nth j (FilterConvolution.insert_index w' fw) 0%nat = searchsorted1 w' (getitem fw (S j)).
Proof.
  intro Hj. unfold FilterConvolution.insert_index, searchsorted.
  rewrite (nth_map_in_range _ _ _ _ 0) by (rewrite length_tl; lia).
  now rewrite nth_tl.
Qed.

Lemma insert_index_length (w' fw : list Q) :
  length (FilterConvolution.insert_index w' fw) = (length fw - 1)%nat.
Proof.
  unfold FilterConvolution.insert_index, searchsorted.
  now rewrite length_map, length_tl.
Qed.

Lemma undersampled_mask_nth (w' fw : list Q) (j : nat) :
  nth j (FilterConvolution.undersampled_mask w' fw) false = true <->
  (j + 2 < length fw)%nat /\
  searchsorted1 w' (getitem fw (j + 1)) = searchsorted1 w' (getitem fw (j + 2)).
Proof.
  unfold FilterConvolution.undersampled_mask.
  set (ins := FilterConvolution.insert_index w' fw).
  assert (Hl : length (diffn ins) = (length fw - 2)%nat).
  { rewrite diffn_length. unfold ins. rewrite insert_index_length. lia. }
  destruct (Nat.lt_ge_cases j (length (diffn ins))) as [Hlt | Hge].
  - rewrite (nth_map_in_range _ _ _ _ 0%Z) by assumption.
    rewrite diffn_nth by (unfold ins; rewrite insert_index_length; lia).
    unfold ins. rewrite !insert_index_nth by lia.
    replace (j + 1)%nat with (S j) by lia. replace (j + 2)%nat with (S (S j)) by lia.
    rewrite Z.eqb_eq. split.
    + intro Hz. split; [lia | lia].
    + intros [_ Heq]. rewrite Heq. lia.
  - rewrite nth_overflow by (now rewrite length_map).
    split; [discriminate | intros [Hlt _]; lia].
Qed.

(** A position is selected exactly when the filter wavelength there and the
    next one have the same insertion position. *)
Lemma undersampled_index_In (w' fw : list Q) (k : nat) :
  In k (FilterConvolution.undersampled_index w' fw) <->
  (1 <= k)%nat /\ (k + 1 < length fw)%nat /\
  searchsorted1 w' (getitem fw k) = searchsorted1 w' (getitem fw (k + 1)).
Proof.
  unfold FilterConvolution.undersampled_index. rewrite in_map_iff. split.
  - intros [j [Hk Hj]]. subst k. apply where_In, undersampled_mask_nth in Hj.
    destruct Hj as [Hlt Heq].
    replace (1 + j)%nat with (j + 1)%nat by lia.
    replace (j + 1 + 1)%nat with (j + 2)%nat by lia.
    repeat split; [lia | lia | assumption].
  - intros [Hk [Hlt Heq]]. exists (k - 1)%nat. split; [lia |].
    apply where_In, undersampled_mask_nth.
    replace (k - 1 + 1)%nat with k by lia.
    replace (k - 1 + 2)%nat with (k + 1)%nat by lia.
    split; [lia | assumption].
Qed.

Lemma sorted_map_succ (l : list nat) :
  StronglySorted lt l -> StronglySorted lt (map (fun i => (1 + i)%nat) l).
Proof.
  induction 1 as [| x l Hs IH Hall]; simpl; constructor; [assumption |].
  rewrite Forall_forall in *. intros y Hy. apply in_map_iff in Hy.
  destruct Hy as [z [<- Hz]]. specialize (Hall z Hz). lia.
Qed.

Lemma undersampled_index_sorted (w' fw : list Q) :
  StronglySorted lt (FilterConvolution.undersampled_index w' fw).
Proof.
  unfold FilterConvolution.undersampled_index, where_.
  apply sorted_map_succ, where_from_sorted.
Qed.

Lemma undersampled_any (w' fw : list Q) :
  any (FilterConvolution.undersampled_mask w' fw) = true <->
  FilterConvolution.undersampled_index w' fw <> [].
Proof.
  rewrite any_where. unfold FilterConvolution.undersampled_index.
  destruct (where_ (FilterConvolution.undersampled_mask w' fw)); simpl;
    split; intro Hn; congruence.
Qed.

End SamplingTest.

Section SamplingProperties.

Import Np.
Context `{Env}.

(** C1, as amended.  With interpolation allowed, the extra nodes of a
    constructed plan are filter wavelengths at interior positions, listed in
    increasing order; and for two neighbouring interior wavelengths
    [fw[k]], [fw[k+1]], the earlier one [fw[k]] is a node exactly when both
    have the same binary-search insertion position in the restricted grid.
    So of a run of interior wavelengths sharing a position, all but the last
    are nodes, and the grid counts as undersampled whenever such a run has
    two or more members. *)
Theorem interpolation_nodes (filter_wavelength filter_response : pyarray)
    (meta : option metadata) (s0 s0' : store) (F : FilterResponse.t)
    (wavelength : pyarray) (pw : bool) (units : option Unit)
    (s s' : store) (p : FilterConvolution.t) :
  FilterResponse.init filter_wavelength filter_response meta s0 = (Ok F, s0') ->
  FilterConvolution.init F wavelength pw true units s = (Ok p, s') ->
  exists w s1 idx,
    validate_wavelength_array wavelength 2 s = (Ok w, s1) /\
    let fw := FilterResponse._wavelength F in
    let w' := restricted_grid F (contents s1 w) in
    let pos := fun k => searchsorted1 w' (getitem fw k) in
    (forall k, insertion_position w' (getitem fw k) (pos k)) /\
    FilterConvolution.interpolate_wavelength p =
      match idx with
      | [] => None
      | _ => Some (take fw idx)
      end /\
    StronglySorted lt idx /\
    (forall k, In k idx -> (1 <= k)%nat /\ (k + 1 < length fw)%nat) /\
    (forall k, (1 <= k)%nat -> (k + 2 < length fw)%nat ->
               (In k idx <-> pos k = pos (k + 1)%nat)).
Proof.
  intros HF Hp.
  destruct (FilterResponse_init_wavelength _ _ _ _ _ _ HF) as [Hfinc Hflen].
  assert (Hlohi : getitem (FilterResponse._wavelength F) 0
                  < last_item (FilterResponse._wavelength F)) by (apply Hfinc; lia).
  destruct (FilterConvolution_init_ok _ _ _ _ _ _ _ _ Hp) as [w [s1 [Hv [Hgrid _]]]].
  destruct (validate_wavelength_array_ok _ _ _ _ _ Hv) as [Hwlen Hwinc].
  set (W := contents s1 w) in *.
  set (dt := array_dtype wavelength) in *.
  assert (Hcov : covers F W).
  { destruct (Qgtb (getitem W 0) (getitem (FilterResponse._wavelength F) 0)
              || Qltb (last_item W) (last_item (FilterResponse._wavelength F))) eqn:E.
    - assert (Hn : ~ covers F W).
      { intro Hc. apply covers_test in Hc. cbv zeta in Hc. congruence. }
      rewrite (init_grid_not_covered _ _ dt pw true units Hn) in Hgrid. discriminate.
    - now apply covers_test. }
  destruct (restricted_grid_spec F W Hwinc ltac:(lia) Hlohi Hcov) as [Hinc' _].
  exists w, s1, (FilterConvolution.undersampled_index (restricted_grid F W)
                   (FilterResponse._wavelength F)).
  split; [assumption |]. cbv zeta. fold W.
  set (w' := restricted_grid F W) in *.
  set (fw := FilterResponse._wavelength F) in *.
  split; [intro k; now apply searchsorted1_spec |].
  split; [| split; [apply undersampled_index_sorted | split]].
  - destruct (init_grid_covered F W dt pw true units Hwinc ltac:(lia) Hlohi Hcov)
      as [[_ [Hfalse _]] | [p' [Hok [_ [_ Hcases]]]]]; [discriminate |].
    rewrite Hok in Hgrid. inversion Hgrid; subst p'.
    fold w' fw in Hcases.
    destruct Hcases as [[Hany [Hnone _]] | [Hany [_ [Hsome _]]]].
    + rewrite Hnone.
      destruct (FilterConvolution.undersampled_index w' fw) eqn:E; [reflexivity |].
      assert (Ht : any (FilterConvolution.undersampled_mask w' fw) = true)
        by (apply undersampled_any; rewrite E; discriminate).
      congruence.
    + rewrite Hsome. apply undersampled_any in Hany.
      destruct (FilterConvolution.undersampled_index w' fw); [congruence | reflexivity].
  - intros k Hk. apply undersampled_index_In in Hk. tauto.
  - intros k Hk1 Hk2. rewrite undersampled_index_In. split; [tauto |].
    intro Heq. repeat split; [assumption | lia | assumption].
Qed.

(** C4, as amended.  When the grid covers the filter, two neighbouring
    interior filter wavelengths share an insertion position and
    interpolation is not allowed, the constructor raises and gives no plan.
    What it raises is a ValueError, the class of the other validation
    errors; only the message tells them apart. *)
Theorem undersampled_without_interpolation
    (filter_wavelength filter_response : pyarray)
    (meta : option metadata) (s0 s0' : store) (F : FilterResponse.t)
    (wavelength : pyarray) (pw : bool) (units : option Unit)
    (s s1 : store) (w : ref) (k : nat) :
  FilterResponse.init filter_wavelength filter_response meta s0 = (Ok F, s0') ->
  validate_wavelength_array wavelength 2 s = (Ok w, s1) ->
  let fw := FilterResponse._wavelength F in
  let w' := restricted_grid F (contents s1 w) in
  covers F (contents s1 w) ->
  (1 <= k)%nat -> (k + 2 < length fw)%nat ->
  searchsorted1 w' (getitem fw k) = searchsorted1 w' (getitem fw (k + 1)) ->
  FilterConvolution.init F wavelength pw false units s
    = (Raise (ValueError msg_undersampled), s1) /\
  exn_kind (ValueError msg_undersampled) = ValueErrorC /\
  exn_kind (ValueError msg_undersampled) = exn_kind (ValueError msg_not_covered).
Proof.
  intros HF Hv fw w' Hcov Hk1 Hk2 Hpos.
  destruct (FilterResponse_init_wavelength _ _ _ _ _ _ HF) as [Hfinc Hflen].
  fold fw in Hfinc, Hflen.
  assert (Hlohi : getitem fw 0 < last_item fw) by (apply Hfinc; lia).
  destruct (validate_wavelength_array_ok _ _ _ _ _ Hv) as [Hwlen Hwinc].
  rewrite (FilterConvolution_init_run _ _ _ _ _ _ _ _ Hv).
  split; [| split; reflexivity].
  assert (Hany : any (FilterConvolution.undersampled_mask w' fw) = true).
  { apply undersampled_any. intro Hnil.
    assert (Hin : In k (FilterConvolution.undersampled_index w' fw)).
    { apply undersampled_index_In. repeat split; [assumption | lia | assumption]. }
    rewrite Hnil in Hin. exact Hin. }
  destruct (init_grid_covered F (contents s1 w) (array_dtype wavelength) pw false units
              Hwinc ltac:(lia) Hlohi Hcov)
    as [[_ [_ Herr]] | [p' [_ [_ [_ Hcases]]]]]; [rewrite Herr; reflexivity |].
  fold w' fw in Hcases.
  destruct Hcases as [[Hnone _] | [_ [Hinterp _]]]; congruence.
Qed.

End SamplingProperties.

(** ** The properties on concrete filters and grids *)

Lemma triangle_filter_init :
  @FilterResponse.init example_env
    (PyList [5000; 6000; 7000]) (PyList [0; 1; 0]) example_meta []
  = (Ok triangle_filter, [[5000; 6000; 7000]; [0; 1; 0]]).
Proof. vm_compute. reflexivity. Qed.

Lemma band_filter_init :
  @FilterResponse.init example_env
    (PyList [3900; 4000; 4100; 4200; 5000; 6000; 6100])
    (PyList [0; 0; 1; 1; 1; 0; 0]) example_meta []
  = (Ok band_filter,
     [[3900; 4000; 4100; 4200; 5000; 6000; 6100]; [0; 0; 1; 1; 1; 0; 0]]).
Proof. vm_compute. reflexivity. Qed.

Lemma FilterResponse_init_trims_zeros_witness :
  @FilterResponse.init example_env
    (PyList [3900; 4000; 4100; 4200; 5000; 6000; 6100])
    (PyList [0; 0; 1; 1; 1; 0; 0]) example_meta []
  = (Ok band_filter,
     [[3900; 4000; 4100; 4200; 5000; 6000; 6100]; [0; 0; 1; 1; 1; 0; 0]]) /\
  let R := FilterResponse.response band_filter in
  length (FilterResponse._wavelength band_filter) = length R /\
  (3 <= length R)%nat /\
  Np.getitem R 0 == 0 /\ 0 < Np.getitem R 1 /\
  0 < Np.getitem R (length R - 2) /\ Np.last_item R == 0.
Proof.
  split; [vm_compute; reflexivity |].
  destruct (@FilterResponse_init_trims_zeros example_env _ _ _ _ _ _ band_filter_init)
    as [w [s1 [r [start [stop [_ [_ [_ [_ [_ Hedges]]]]]]]]]].
  exact Hedges.
Defined.

Lemma FilterResponse_call_outside_is_zero_witness :
  @canonical_wavelength example_env (Quantity 400 nm) = Some (400 * (10 / 1)) /\
  outside (FilterResponse._wavelength triangle_filter) (400 * (10 / 1)) /\
  @FilterResponse.call example_env triangle_filter (Quantity 400 nm) = Ok 0.
Proof.
  assert (Hc : @canonical_wavelength example_env (Quantity 400 nm)
               = Some (400 * (10 / 1))) by reflexivity.
  assert (Ho : outside (FilterResponse._wavelength triangle_filter) (400 * (10 / 1)))
    by (left; vm_compute; reflexivity).
  split; [exact Hc |]. split; [exact Ho |].
  exact (proj1 (@FilterResponse_call_outside_is_zero example_env triangle_filter
                  _ _ Hc Ho)).
Defined.

(** The wavelength 700.0500000000001 nm lies above the range of a filter
    that ends at 7000.5 Angstrom, but the conversion returns
    7000.499999999999, inside the range, and the response there is not 0. *)
Lemma FilterResponse_call_nonzero_above_range :
  Np.last_item (FilterResponse._wavelength half_filter) < just_above_700_05 * 10 /\
  @canonical_wavelength binary64_env (Quantity just_above_700_05 nm)
  = Some (7697131150245887 # 1099511627776) /\
  exists v,
    @FilterResponse.call binary64_env half_filter (Quantity just_above_700_05 nm) = Ok v /\
    ~ v == 0.
Proof.
  split; [reflexivity |]. split; [vm_compute; reflexivity |].
  eexists. split; [vm_compute; reflexivity | discriminate].
Qed.



(** C7.  On a grid of 64-bit integers the clamp does not reach the filter's
    end points.  For the filter on 5000.5, 6000, 7000.5 and the integer
    array 4000, 5500, 6500, 8000 the assignments store 5000 and 7000, in the
    plan's quadrature grid and in the caller's array, which is the same
    array.  When the integer grid 4000, 8000 undersamples the filter and
    interpolation is allowed, the quadrature grid is a new array of floats
    and its ends are the filter's. *)
Theorem quad_wavelength_endpoints_truncated :
  let fw := FilterResponse._wavelength half_filter in
  (Np.getitem fw 0 == 5000.5 /\ Np.last_item fw == 7000.5) /\
  (exists p,
     @FilterConvolution.init integer_grid_env half_filter (NdArray 0%nat)
       true false None [[4000; 5500; 6500; 8000]]
     = (Ok p, [[5000; 5500; 6500; 7000]]) /\
     FilterConvolution.quad_wavelength p = [5000; 5500; 6500; 7000] /\
     ~ Np.getitem (FilterConvolution.quad_wavelength p) 0 == Np.getitem fw 0 /\
     ~ Np.last_item (FilterConvolution.quad_wavelength p) == Np.last_item fw) /\
  (exists p,
     @FilterConvolution.init integer_grid_env half_filter (NdArray 0%nat)
       true true None [[4000; 8000]]
     = (Ok p, [[4000; 8000]]) /\
     FilterConvolution.quad_wavelength p = [5000.5; 6000; 7000.5]).
Proof.
  cbv zeta. split; [split; reflexivity |]. split.
  - eexists. split; [vm_compute; reflexivity |].
    split; [reflexivity |]. split; discriminate.
  - eexists. split; [vm_compute; reflexivity | reflexivity].
Qed.

Lemma interpolation_nodes_witness :
  @FilterResponse.init example_env
    (PyList [3900; 4000; 4100; 4200; 5000; 6000; 6100])
    (PyList [0; 0; 1; 1; 1; 0; 0]) example_meta []
  = (Ok band_filter,
     [[3900; 4000; 4100; 4200; 5000; 6000; 6100]; [0; 0; 1; 1; 1; 0; 0]]) /\
  exists p s' w s1 idx,
    @FilterConvolution.init example_env band_filter
      (PyList [4000; 4500; 5000; 6000]) true true None [] = (Ok p, s') /\
    validate_wavelength_array (PyList [4000; 4500; 5000; 6000]) 2 [] = (Ok w, s1) /\
    FilterConvolution.interpolate_wavelength p =
      match idx with
      | [] => None
      | _ => Some (Np.take (FilterResponse._wavelength band_filter) idx)
      end /\
    StronglySorted lt idx.
Proof.
  assert (Hp : exists p s',
    @FilterConvolution.init example_env band_filter
      (PyList [4000; 4500; 5000; 6000]) true true None [] = (Ok p, s'))
    by (vm_compute; eauto).
  destruct Hp as [p [s' Hp]].
  destruct (@interpolation_nodes example_env _ _ _ _ _ _ _ _ _ _ _ _
              band_filter_init Hp) as [w [s1 [idx [Hv [_ [Hn [Hs _]]]]]]].
  split; [exact band_filter_init |].
  exists p, s', w, s1, idx. repeat split; assumption.
Defined.

(** C1, as stated, fails: on this grid the filter wavelengths 4100 and 4200
    share an insertion position; the plan interpolates at 4100, the first of
    the two, where all-but-the-first would give 4200. *)
Lemma interpolation_nodes_not_all_but_first :
  exists p s',
    @FilterConvolution.init example_env band_filter
      (PyList [4000; 4500; 5000; 6000]) true true None [] = (Ok p, s') /\
    FilterConvolution.interpolate_wavelength p = Some [4100] /\
    spec_interpolation_nodes
      (restricted_grid band_filter [4000; 4500; 5000; 6000])
      (FilterResponse._wavelength band_filter) = [4200] /\
    FilterConvolution.interpolate_wavelength p <>
      Some (spec_interpolation_nodes
              (restricted_grid band_filter [4000; 4500; 5000; 6000])
              (FilterResponse._wavelength band_filter)).
Proof.
  eexists. eexists. split; [vm_compute; reflexivity |].
  split; [reflexivity |]. split; [vm_compute; reflexivity |].
  vm_compute. discriminate.
Qed.

Lemma undersampled_without_interpolation_witness :
  @FilterResponse.init example_env
    (PyList [3900; 4000; 4100; 4200; 5000; 6000; 6100])
    (PyList [0; 0; 1; 1; 1; 0; 0]) example_meta []
  = (Ok band_filter,
     [[3900; 4000; 4100; 4200; 5000; 6000; 6100]; [0; 0; 1; 1; 1; 0; 0]]) /\
  validate_wavelength_array (PyList [4000; 4500; 5000; 6000]) 2 []
    = (Ok 0%nat, [[4000; 4500; 5000; 6000]]) /\
  covers band_filter [4000; 4500; 5000; 6000] /\
  @FilterConvolution.init example_env band_filter
    (PyList [4000; 4500; 5000; 6000]) true false None []
  = (Raise (ValueError msg_undersampled), [[4000; 4500; 5000; 6000]]).
Proof.
  assert (Hv : validate_wavelength_array (PyList [4000; 4500; 5000; 6000]) 2 []
               = (Ok 0%nat, [[4000; 4500; 5000; 6000]])) by (vm_compute; reflexivity).
  assert (Hc : covers band_filter [4000; 4500; 5000; 6000])
    by (split; vm_compute; discriminate).
  split; [exact band_filter_init |].
  split; [exact Hv |]. split; [exact Hc |].
  apply (@undersampled_without_interpolation example_env _ _ _ _ _ band_filter
           (PyList [4000; 4500; 5000; 6000]) true None [] _ 0%nat 1%nat
           band_filter_init Hv Hc); [lia | vm_compute; lia | vm_compute; reflexivity].
Defined.

(** C4, as stated, fails: the undersampling error and the error for a grid
    that does not cover the filter, or is not increasing, are of one kind. *)
Lemma undersampling_error_kind_not_distinct :
  exists e1 e2 e3,
    fst (@FilterConvolution.init example_env band_filter
           (PyList [4000; 4500; 5000; 6000]) true false None []) = Raise e1 /\
    exn_msg e1 = msg_undersampled /\
    fst (@FilterConvolution.init example_env band_filter
           (PyList [4500; 5000; 6000]) true false None []) = Raise e2 /\
    exn_msg e2 = msg_not_covered /\
    fst (@FilterConvolution.init example_env band_filter
           (PyList [6000; 5000; 4000]) true false None []) = Raise e3 /\
    exn_kind e1 = exn_kind e2 /\ exn_kind e1 = exn_kind e3.
Proof.
  do 3 eexists.
  split; [vm_compute; reflexivity |]. split; [reflexivity |].
  split; [vm_compute; reflexivity |]. split; [reflexivity |].
  split; [vm_compute; reflexivity |]. split; reflexivity.
Qed.

(** ** validate_wavelength_array and the caller's array *)

Lemma contents_alloc (s : store) (l : list Q) : contents (s ++ [l]) (length s) = l.
Proof.
  unfold contents. rewrite app_nth2 by lia. now rewrite Nat.sub_diag.
Qed.

Lemma contents_alloc_old (s : store) (l : list Q) (r : ref) :
  (r < length s)%nat -> contents (s ++ [l]) r = contents s r.
Proof. intro Hr. unfold contents. now rewrite app_nth1. Qed.

Lemma update_length {A} (i : nat) (x : A) (l : list A) : length (update i x l) = length l.
Proof.
  revert i. induction l as [| h t IH]; intros [| i]; simpl; try reflexivity.
  now rewrite IH.
Qed.

Lemma contents_update (s : store) (r r' : ref) (l : list Q) :
  (r < length s)%nat ->
  contents (update r l s) r' = if (r' =? r)%nat then l else contents s r'.
Proof.
  unfold contents. revert r r'.
  induction s as [| h t IH]; intros r r' Hr; simpl in Hr; [lia |].
  destruct r as [| r]; destruct r' as [| r']; simpl; try reflexivity.
  apply IH. lia.
Qed.

(** What the call leaves in the store.  A sequence is copied to a new
    array; an array without units is left as it is; the numbers of a
    Quantity are multiplied, in the caller's own array, by the conversion
    factor, whether or not the later checks pass. *)
Lemma validate_wavelength_array_effect (wavelength : pyarray) (min_length : nat)
    (s s' : store) (res : result ref) :
  validate_wavelength_array wavelength min_length s = (res, s') ->
  match wavelength with
  | PyList l => s' = s ++ [l]
  | NdArray r => s' = s
  | QuantityArray r u =>
      match unit_to u default_wavelength_unit with
      | Some factor => s' = update r (Np.scale factor (contents s r)) s
      | None => s' = s /\ res = Raise UnitConversionError
      end
  end.
Proof.
  unfold validate_wavelength_array, bind, load.
  destruct wavelength as [l | r | r u]; simpl.
  - destruct (length (contents (s ++ [l]) (length s)) <? min_length)%nat;
      [| destruct (strictly_increasing (contents (s ++ [l]) (length s)))];
      simpl; intro Hr; now inversion Hr.
  - destruct (length (contents s r) <? min_length)%nat;
      [| destruct (strictly_increasing (contents s r))];
      simpl; intro Hr; now inversion Hr.
  - destruct (unit_to u default_wavelength_unit) as [factor |]; simpl.
    + match goal with |- context [(length ?c <? min_length)%nat] =>
        destruct (length c <? min_length)%nat; [| destruct (strictly_increasing c)]
      end; simpl; intro Hr; now inversion Hr.
    + intro Hr. now inversion Hr.
Qed.

(** On success the returned array holds the caller's numbers in the default
    unit: the numbers themselves when there is no unit, and the numbers
    times the conversion factor for a Quantity. *)
Lemma validate_wavelength_array_values (wavelength : pyarray) (min_length : nat)
    (s s' : store) (w : ref) :
  validate_wavelength_array wavelength min_length s = (Ok w, s') ->
  match wavelength with
  | PyList l => contents s' w = l
  | NdArray r => w = r /\ contents s' w = contents s r
  | QuantityArray r u =>
      w = r /\
      exists factor, unit_to u default_wavelength_unit = Some factor /\
        ((r < length s)%nat -> contents s' w = Np.scale factor (contents s r))
  end.
Proof.
  intro Hv. pose proof (validate_wavelength_array_effect _ _ _ _ _ Hv) as He.
  unfold validate_wavelength_array in Hv.
  apply bind_ok in Hv. destruct Hv as [r0 [s0 [Ha Hv]]].
  apply bind_ok in Hv. destruct Hv as [u0 [s2 [_ Hv]]].
  unfold bind, load in Hv.
  destruct (length (contents s2 r0) <? min_length)%nat; [discriminate |].
  destruct (strictly_increasing (contents s2 r0)); [| discriminate].
  simpl in Hv. inversion Hv; subst w s2. clear Hv.
  destruct wavelength as [l | r | r u]; simpl in Ha.
  - unfold alloc in Ha. inversion Ha; subst. apply contents_alloc.
  - unfold ret in Ha. inversion Ha; subst. split; reflexivity.
  - unfold ret in Ha. inversion Ha; subst. split; [reflexivity |].
    destruct (unit_to u default_wavelength_unit) as [factor |].
    + exists factor. split; [reflexivity |]. intro Hr. subst s'.
      rewrite contents_update by assumption. now rewrite Nat.eqb_refl.
    + destruct He as [_ He]. discriminate.
Qed.

(** C3 fails on the code.  A wavelength array given in nanometers is valid
    and the call succeeds, but the caller's array, which held 500, 600, 700,
    holds 5000, 6000, 7000 afterwards (and the caller's Quantity still says
    nanometers). *)
Theorem validate_wavelength_array_overwrites_input :
  let caller := [[500; 600; 700]] in
  validate_wavelength_array (QuantityArray 0%nat nm) 3 caller
    = (Ok 0%nat, [[5000; 6000; 7000]]) /\
  contents [[5000; 6000; 7000]] 0%nat <> contents caller 0%nat.
Proof.
  split; [vm_compute; reflexivity | vm_compute; discriminate].
Qed.

(** ** FilterConvolution: repeated evaluation *)

Section Evaluation.

Context `{Env}.

(** Values without units are only read.  An array is left as it is, a
    sequence is copied to a new array, and a second evaluation returns what
    the first returned. *)
Lemma FilterConvolution_call_without_units (p : FilterConvolution.t)
    (values : pyarray) (method : string) (s : store) :
  unit_attr values = None ->
  let first := FilterConvolution.call p values method s in
  let second := FilterConvolution.call p values method (snd first) in
  fst second = fst first /\
  (forall r, (r < length s)%nat -> contents (snd first) r = contents s r).
Proof.
  intros Hu first second. subst second first.
  unfold FilterConvolution.call.
  destruct (lookup method _filter_integration_methods) as [integrator |];
    [| simpl; split; reflexivity].
  unfold FilterConvolution.convert_input. rewrite Hu.
  destruct (FilterConvolution.response_slice p) as [start stop].
  destruct values as [l | r0 | r0 u]; [| | discriminate];
    unfold bind, asarray, alloc, load, ret, raise, lift.
  - rewrite !contents_alloc.
    destruct (negb (length l =? FilterConvolution.num_wavelength p)%nat); simpl.
    + rewrite ?contents_alloc.
      split; [reflexivity | intros r Hr; now apply contents_alloc_old].
    + rewrite ?contents_alloc.
      split; [reflexivity | intros r Hr; now apply contents_alloc_old].
  - destruct (negb (length (contents s r0) =? FilterConvolution.num_wavelength p)%nat)
      eqn:E; simpl; rewrite E; split; reflexivity.
Qed.

End Evaluation.

(** C2 fails on the code.  The plan expects flux per Angstrom; the caller's
    values are 10, 10, 10 per nanometer.  The first evaluation rescales the
    caller's array in place to 1, 1, 1 and returns 1000; the second, on the
    same array object, rescales once more and returns 100. *)
Theorem FilterConvolution_call_twice_differs :
  exists p r1 s1 r2 s2,
    @FilterConvolution.init example_env triangle_filter
      (PyList [5000; 6000; 7000]) false false (Some default_flux_unit) []
      = (Ok p, [[5000; 6000; 7000]]) /\
    let values := QuantityArray 1%nat flux_per_nm in
    let caller := [[5000; 6000; 7000]; [10; 10; 10]] in
    @FilterConvolution.call example_env p values "trapz" caller = (Ok r1, s1) /\
    @FilterConvolution.call example_env p values "trapz" s1 = (Ok r2, s2) /\
    value_of r1 == 1000 /\ value_of r2 == 100 /\
    ~ value_of r1 == value_of r2 /\
    contents s1 1%nat <> contents caller 1%nat.
Proof.
  do 5 eexists. split; [vm_compute; reflexivity |].
  cbv zeta. split; [vm_compute; reflexivity |].
  split; [vm_compute; reflexivity |].
  split; [vm_compute; reflexivity |].
  split; [vm_compute; reflexivity |].
  split; vm_compute; discriminate.
Qed.

(** ** Convolution with a function: the triangle and the units check *)

Section FunctionConvolution.

Import Floats.
Context `{Env}.

(** C9.  For the filter with response 0, 1, 0 at 5000, 6000, 7000 and a
    function that tabulates to 1 without units, the unweighted convolution
    by the trapezoid rule is a plain number equal to 1000; the same sum in
    binary64 arithmetic is exactly 1000.0. *)
Theorem triangle_convolution_is_1000 (F : FilterResponse.t) (function : callable)
    (v : fvalue) :
  FilterResponse._wavelength F = [5000; 6000; 7000] ->
  FilterResponse.response F = [0; 1; 0] ->
  tabulate_function_of_wavelength function [5000; 6000; 7000] = Ok (v, None) ->
  v = Scalar 1 \/ v = Array [1; 1; 1] ->
  (exists r,
     FilterResponse.convolve_with_function F function false None "trapz" = Ok (Float r) /\
     r == 1000 /\ Qred r = 1000) /\
  (F64.trapz (F64.times 1 [0; 1; 0]) [5000; 6000; 7000] = 1000)%float.
Proof.
  intros Hw Hr Htab Hv. split.
  - unfold FilterResponse.convolve_with_function, FilterResponse.convolve.
    rewrite Hw, Hr, Htab.
    destruct Hv as [-> | ->]; eexists; (split; [vm_compute; reflexivity |]);
      split; vm_compute; reflexivity.
  - vm_compute. reflexivity.
Qed.

(** The maggies of a callable, once it has been tabulated: its unit, when
    it has one, is only tested for convertibility. *)
Lemma get_ab_maggies_callable (F : FilterResponse.t) (f : callable) (v : fvalue)
    (fu : option Unit) (s : store) :
  let fw := FilterResponse._wavelength F in
  tabulate_function_of_wavelength f fw = Ok (v, fu) ->
  (forall u, fu = Some u -> exists c, unit_to u default_flux_unit = Some c) ->
  get_ab_maggies F (Callable f) s =
  (match FilterResponse.times_response v (FilterResponse.response F) with
   | Ok integrand =>
       Ok (Np.trapz (Np.mul integrand (map (fun w => w / _hc_constant) fw)) fw
           / value_of (FilterResponse.ab_zeropoint F))
   | Raise e => Raise e
   end, s).
Proof.
  intros fw Hf Hconv.
  unfold get_ab_maggies, FilterResponse.convolve_with_function, FilterResponse.convolve.
  fold fw. simpl lookup. cbv iota. rewrite Hf. unfold rbind at 1.
  assert (Hchk : exists fu', FilterResponse.check_units (Some default_flux_unit) fu
                             = Ok (Some fu')).
  { unfold FilterResponse.check_units. destruct fu as [u |].
    - destruct (Hconv u eq_refl) as [c Hc]. rewrite Hc. eauto.
    - eauto. }
  destruct Hchk as [fu' Hchk]. rewrite Hchk. unfold rbind at 1.
  destruct (FilterResponse.times_response v (FilterResponse.response F));
    reflexivity.
Qed.

(** C10.  [get_ab_maggies] of a callable whose values carry a unit that
    converts to the default flux unit equals [get_ab_maggies] of a callable
    returning the same numbers with no unit, or with the default unit: the
    conversion factor [c] does not enter the result, which is the quotient
    of the two raw numbers. *)
Theorem get_ab_maggies_ignores_unit_scale (F : FilterResponse.t)
    (f f' : callable) (v : fvalue) (u : Unit) (c : Q) (s : store) :
  let fw := FilterResponse._wavelength F in
  tabulate_function_of_wavelength f fw = Ok (v, Some u) ->
  unit_to u default_flux_unit = Some c ->
  tabulate_function_of_wavelength f' fw = Ok (v, None) \/
  tabulate_function_of_wavelength f' fw = Ok (v, Some default_flux_unit) ->
  get_ab_maggies F (Callable f) s = get_ab_maggies F (Callable f') s /\
  forall integrand,
    FilterResponse.times_response v (FilterResponse.response F) = Ok integrand ->
    get_ab_maggies F (Callable f) s =
    (Ok (Np.trapz (Np.mul integrand (map (fun w => w / _hc_constant) fw)) fw
         / value_of (FilterResponse.ab_zeropoint F)), s).
Proof.
  intros fw Hf Hu Hf'.
  assert (E : get_ab_maggies F (Callable f) s =
              (match FilterResponse.times_response v (FilterResponse.response F) with
               | Ok integrand =>
                   Ok (Np.trapz
                         (Np.mul integrand (map (fun w => w / _hc_constant) fw)) fw
                       / value_of (FilterResponse.ab_zeropoint F))
               | Raise e => Raise e
               end, s)).
  { apply (get_ab_maggies_callable F f v (Some u) s Hf).
    intros u0 Hu0. inversion Hu0; subst. eauto. }
  split.
  - rewrite E. symmetry. destruct Hf' as [Hf' | Hf'].
    + apply (get_ab_maggies_callable F f' v None s Hf'). discriminate.
    + apply (get_ab_maggies_callable F f' v (Some default_flux_unit) s Hf').
      intros u0 Hu0. inversion Hu0; subst. eexists. reflexivity.
  - intros integrand Hi. rewrite E, Hi. reflexivity.
Qed.

End FunctionConvolution.

Lemma triangle_convolution_is_1000_witness :
  tabulate_function_of_wavelength constant_one [5000; 6000; 7000] = Ok (Scalar 1, None) /\
  exists r,
    @FilterResponse.convolve_with_function example_env triangle_filter constant_one
      false None "trapz" = Ok (Float r) /\
    r == 1000.
Proof.
  split; [reflexivity |].
  destruct (@triangle_convolution_is_1000 example_env triangle_filter constant_one
              (Scalar 1) eq_refl eq_refl eq_refl (or_introl eq_refl))
    as [[r [Hr [Heq _]]] _].
  exists r. split; assumption.
Defined.

Lemma get_ab_maggies_ignores_unit_scale_witness :
  tabulate_function_of_wavelength (flat_spectrum (Some flux_per_nm))
    (FilterResponse._wavelength triangle_filter)
    = Ok (Array [1; 1; 1], Some flux_per_nm) /\
  (exists c, unit_to flux_per_nm default_flux_unit = Some c /\ c == 1 / 10) /\
  @get_ab_maggies example_env triangle_filter
    (Callable (flat_spectrum (Some flux_per_nm))) []
  = @get_ab_maggies example_env triangle_filter (Callable (flat_spectrum None)) [].
Proof.
  split; [reflexivity |].
  split; [eexists; split; [reflexivity | vm_compute; reflexivity] |].
  exact (proj1 (@get_ab_maggies_ignores_unit_scale example_env triangle_filter
           (flat_spectrum (Some flux_per_nm)) (flat_spectrum None)
           (Array [1; 1; 1]) flux_per_nm _ [] eq_refl eq_refl (or_introl eq_refl))).
Defined.

(** ** Construction succeeds on valid input *)

Section Success.

Import Np.
Context `{Env}.




(** With interpolation allowed, every valid grid that covers a constructed
    filter makes a plan. *)
Lemma FilterConvolution_init_succeeds
    (filter_wavelength filter_response : pyarray)
    (meta : option metadata) (s0 s0' : store) (F : FilterResponse.t)
    (wavelength : pyarray) (pw : bool) (units : option Unit)
    (s s1 : store) (w : ref) :
  FilterResponse.init filter_wavelength filter_response meta s0 = (Ok F, s0') ->
  validate_wavelength_array wavelength 2 s = (Ok w, s1) ->
  covers F (contents s1 w) ->
  exists p,
    FilterConvolution.init F wavelength pw true units s = (Ok p, clamped_store p w s1).
Proof.
  intros HF Hv Hcov.
  destruct (FilterResponse_init_wavelength _ _ _ _ _ _ HF) as [Hfinc Hflen].
  assert (Hlohi : getitem (FilterResponse._wavelength F) 0
                  < last_item (FilterResponse._wavelength F)) by (apply Hfinc; lia).
  destruct (validate_wavelength_array_ok _ _ _ _ _ Hv) as [Hwlen Hwinc].
  rewrite (FilterConvolution_init_run _ _ _ _ _ _ _ _ Hv).
  destruct (init_grid_covered F (contents s1 w) (array_dtype wavelength) pw true units
              Hwinc ltac:(lia) Hlohi Hcov)
    as [[_ [Hfalse _]] | [p [Hok _]]]; [discriminate |].
  exists p. now rewrite Hok.
Qed.

End Success.

(** The closing boundary point takes part in the sampling test: on the grid
    5000, 7000 the triangle's one interior wavelength 6000 shares its
    insertion position with the boundary 7000, and is interpolated. *)
Example boundary_point_in_sampling_test :
  exists p s',
    @FilterConvolution.init example_env triangle_filter
      (PyList [5000; 7000]) true true None [] = (Ok p, s') /\
    FilterConvolution.interpolate_wavelength p = Some [6000] /\
    FilterConvolution.quad_wavelength p = [5000; 6000; 7000].
Proof.
  eexists. eexists. split; [vm_compute; reflexivity |]. split; reflexivity.
Qed.

(** * Further properties *)

(** ** The trapezoid rule *)

Section TrapezoidRule.

Import Np.

Lemma sum_acc (a : list Q) (acc : Q) :
  fold_left Qplus a acc == acc + fold_left Qplus a 0.
Proof.
  revert acc. induction a as [| x a IH]; intro acc; simpl; [lra |].
  rewrite (IH (acc + x)), (IH (0 + x)). lra.
Qed.

Lemma sum_cons (x : Q) (a : list Q) : sum (x :: a) == x + sum a.
Proof. unfold sum. simpl. rewrite sum_acc. lra. Qed.

Lemma trapz_cons (y0 y1 x0 x1 : Q) (ty tx : list Q) :
  trapz (y0 :: y1 :: ty) (x0 :: x1 :: tx)
  == (x1 - x0) * (y1 + y0) / 2 + trapz (y1 :: ty) (x1 :: tx).
Proof. unfold trapz. simpl trapz_terms. apply sum_cons. Qed.

Lemma trapz_short (y x : list Q) : (length x <= 1)%nat -> trapz y x = 0.
Proof.
  intro H. destruct y as [| y0 [| y1 ty]]; destruct x as [| x0 [| x1 tx]];
    simpl in H; try lia; reflexivity.
Qed.





(** The rule is linear in the samples. *)
Lemma trapz_linear (a b : Q) (x : list Q) :
  forall y z, length y = length x -> length z = length x ->
  trapz (map (fun p => a * fst p + b * snd p) (combine y z)) x
  == a * trapz y x + b * trapz z x.
Proof.
  induction x as [| x0 tx IH]; intros y z Hy Hz.
  - rewrite !trapz_short by (simpl; lia). lra.
  - destruct tx as [| x1 tx]; [rewrite !trapz_short by (simpl; lia); lra |].
    destruct y as [| y0 [| y1 ty]]; simpl in Hy; try lia.
    destruct z as [| z0 [| z1 tz]]; simpl in Hz; try lia.
    change (map (fun p => a * fst p + b * snd p)
              (combine (y0 :: y1 :: ty) (z0 :: z1 :: tz)))
      with ((a * y0 + b * z0) :: (a * y1 + b * z1) ::
            map (fun p => a * fst p + b * snd p) (combine ty tz)).
    rewrite !trapz_cons.
    change ((a * y1 + b * z1) :: map (fun p => a * fst p + b * snd p) (combine ty tz))
      with (map (fun p => a * fst p + b * snd p) (combine (y1 :: ty) (z1 :: tz))).
    rewrite IH by (simpl; lia). field.
Qed.



End TrapezoidRule.

(** ** FilterResponse: the derived quantities *)

Section DerivedQuantities.

Import Np.
Context `{Env}.




End DerivedQuantities.

Section FilterFacts.

Import Np.
Context `{Env}.


Lemma combine_map_nth (g : Q * Q -> Q) (y z : list Q) (i : nat) :
  length y = length z -> (i < length y)%nat ->
  getitem (map g (combine y z)) i = g (getitem y i, getitem z i).
Proof.
  intros Hlen Hi. unfold getitem.
  rewrite (nth_indep _ 0 (g (0, 0))) by (rewrite length_map, length_combine; lia).
  rewrite map_nth. now rewrite combine_nth.
Qed.







End FilterFacts.

(** ** FilterConvolution: the plan as a whole *)

Section PlanFields.

Import Np.
Context `{Env}.

(** Every attribute of a constructed plan, in terms of the restricted grid
    [w'] and the selected positions [idx] (none unless the grid is
    undersampled). *)
Lemma init_grid_fields (F : FilterResponse.t) (w : list Q) (dt : dtype)
    (pw interp : bool) (units : option Unit) (p : FilterConvolution.t) :
  let fw := FilterResponse._wavelength F in
  let w' := restricted_grid F w in
  let lo := getitem fw 0 in
  let hi := last_item fw in
  let idx := FilterConvolution.undersampled_index w' fw in
  let h := hstack w' (take fw idx) in
  increasing w -> (1 <= length w)%nat -> lo < hi ->
  FilterConvolution.init_grid F w dt pw interp units = Ok p ->
  covers F w /\
  FilterConvolution.response p = F /\
  FilterConvolution.num_wavelength p = length w /\
  FilterConvolution.response_slice p = FilterConvolution.covering_slice w lo hi /\
  FilterConvolution.response_grid p = map (FilterResponse.interpolator F) w' /\
  FilterConvolution.quad_weight p =
    (if pw then Some (map (fun l => l / _hc_constant) (FilterConvolution.quad_wavelength p))
     else None) /\
  FilterConvolution.input_units p = units /\
  ((idx = [] /\
    FilterConvolution.interpolate_wavelength p = None /\
    FilterConvolution.interpolate_response p = None /\
    FilterConvolution.interpolate_sort_order p = None /\
    FilterConvolution.quad_wavelength p = FilterConvolution.clamp dt w' lo hi /\
    FilterConvolution._wavelength p = FilterConvolution.clamp dt w' lo hi)
   \/
   (idx <> [] /\ interp = true /\
    FilterConvolution.interpolate_wavelength p = Some (take fw idx) /\
    FilterConvolution.interpolate_response p
      = Some (take (FilterResponse.response F) idx) /\
    FilterConvolution.interpolate_sort_order p = Some (argsort h) /\
    FilterConvolution.quad_wavelength p
      = FilterConvolution.clamp Float64 (take h (argsort h)) lo hi /\
    FilterConvolution._wavelength p = w')).
Proof.
  intros fw w' lo hi idx h Hinc Hlen Hlohi Hinit.
  assert (Hcov : covers F w).
  { destruct (Qgtb (getitem w 0) lo || Qltb (last_item w) hi) eqn:E.
    - assert (Hn : ~ covers F w).
      { intro Hc. apply covers_test in Hc. cbv zeta in Hc.
        fold fw lo hi in Hc. congruence. }
      rewrite (init_grid_not_covered _ _ dt pw interp units Hn) in Hinit. discriminate.
    - now apply covers_test. }
  split; [assumption |].
  pose proof (proj2 (covers_test F w) Hcov) as Htest. cbv zeta in Htest.
  destruct Hcov as [Hc1 Hc2].
  destruct (covering_slice_spec w lo hi Hinc Hlen Hlohi Hc1 Hc2)
    as [start [stop [Eslice [Hss [Hstop _]]]]].
  assert (Ew : (if ((0 <? start) || (stop <? length w))%nat
                then slice start stop w else w) = w').
  { unfold w', restricted_grid. fold fw. fold lo. fold hi. rewrite Eslice.
    destruct ((0 <? start) || (stop <? length w))%nat eqn:E; [reflexivity |].
    apply orb_false_iff in E. destruct E as [E1 E2].
    apply Nat.ltb_ge in E1, E2.
    assert (start = 0)%nat by lia. assert (stop = length w) by lia. subst start stop.
    now rewrite slice_all. }
  assert (Hany : any (FilterConvolution.undersampled_mask w' fw) = true <-> idx <> [])
    by apply undersampled_any.
  subst h idx. clearbody w'. subst lo hi fw.
  unfold FilterConvolution.init_grid in Hinit. cbv zeta in Hinit.
  rewrite Htest, Eslice, Ew in Hinit.
  unfold FilterResponse.call_array, rbind in Hinit.
  destruct (any (FilterConvolution.undersampled_mask w'
                   (FilterResponse._wavelength F))) eqn:Eany.
  - destruct interp; [| discriminate].
    inversion Hinit; subst p; clear Hinit. simpl.
    repeat (split; [first [reflexivity | symmetry; exact Eslice] |]).
    right. split; [now apply Hany |]. repeat split; reflexivity.
  - inversion Hinit; subst p; clear Hinit. simpl.
    repeat (split; [first [reflexivity | symmetry; exact Eslice] |]).
    left. split.
    + destruct (FilterConvolution.undersampled_index w' (FilterResponse._wavelength F));
        [reflexivity |].
      assert (false = true) by (apply Hany; discriminate).
      discriminate.
    + repeat split; reflexivity.
Qed.

End PlanFields.

(** ** FilterConvolution: the quadrature grid is strictly increasing *)

Section QuadratureGrid.

Import Np.













End QuadratureGrid.

Section MergedGrid.

Import Np.


(** A selected filter wavelength lies strictly inside the filter range and
    differs from every wavelength of the restricted grid. *)
Lemma node_off_grid (w' fw : list Q) (k : nat) :
  increasing w' -> increasing fw ->
  In k (FilterConvolution.undersampled_index w' fw) ->
  getitem fw 0 < getitem fw k /\ getitem fw k < last_item fw /\
  forall j, (j < length w')%nat -> ~ getitem w' j == getitem fw k.
Proof.
  intros Hw Hf Hk. apply undersampled_index_In in Hk. destruct Hk as [Hk1 [Hk2 Hpos]].
  split; [apply Hf; lia |]. split; [apply (Hf k (length fw - 1)%nat); lia |].
  intros j Hj.
  destruct (searchsorted1_spec w' (getitem fw k) Hw) as [_ [Hb _]].
  destruct (searchsorted1_spec w' (getitem fw (k + 1)) Hw) as [_ [_ Ha]].
  rewrite <- Hpos in Ha.
  assert (Hstep : getitem fw k < getitem fw (k + 1)) by (apply Hf; lia).
  destruct (Nat.lt_ge_cases j (searchsorted1 w' (getitem fw k))) as [Hlt | Hge].
  - specialize (Hb j Hlt). lra.
  - specialize (Ha j Hge Hj). lra.
Qed.


Context `{Env}.



End MergedGrid.

(** ** FilterConvolution: evaluation *)

Section PlanEvaluation.

Import Np.
Context `{Env}.

(** Evaluation of values without units: the length test, then the
    integral of the slice.  A sequence is copied to a new array first. *)
Lemma call_without_units (p : FilterConvolution.t) (values : pyarray)
    (method : string) (integrator : list Q -> list Q -> Q) (s : store) :
  unit_attr values = None ->
  lookup method _filter_integration_methods = Some integrator ->
  let v := values_of values s in
  FilterConvolution.call p values method s =
  (if negb (length v =? FilterConvolution.num_wavelength p)%nat
   then Raise (ValueError "Expected {0} values along axis {1}.")
   else FilterConvolution.integrate p integrator
          (slice (fst (FilterConvolution.response_slice p))
                 (snd (FilterConvolution.response_slice p)) v) false,
   match values with
   | PyList l => s ++ [l]
   | _ => s
   end).
Proof.
  intros Hu Hm v. subst v. unfold FilterConvolution.call. rewrite Hm.
  unfold FilterConvolution.convert_input. rewrite Hu.
  destruct (FilterConvolution.response_slice p) as [start stop].
  destruct values as [l | r | r u]; [| | discriminate];
    unfold bind, asarray, alloc, load, ret, raise, lift; simpl values_of;
    rewrite ?contents_alloc.
  - destruct (negb (length l =? FilterConvolution.num_wavelength p)%nat);
      [reflexivity |]. now rewrite contents_alloc.
  - destruct (negb (length (contents s r) =? FilterConvolution.num_wavelength p)%nat);
      reflexivity.
Qed.

(** In a constructed plan the interpolation nodes lie within the restricted
    grid, so the interpolation of the values never goes out of bounds and
    the integral is always formed. *)
Lemma integrate_succeeds (filter_wavelength filter_response : pyarray)
    (meta : option metadata) (s0 s0' : store) (F : FilterResponse.t)
    (wavelength : pyarray) (pw interp : bool) (units : option Unit)
    (s s' : store) (p : FilterConvolution.t)
    (integrator : list Q -> list Q -> Q) (vs : list Q) (has_units : bool) :
  FilterResponse.init filter_wavelength filter_response meta s0 = (Ok F, s0') ->
  FilterConvolution.init F wavelength pw interp units s = (Ok p, s') ->
  exists integrand,
    FilterConvolution.integrate p integrator vs has_units =
    Ok (match has_units, FilterConvolution.output_units p with
        | true, Some ou =>
            Quantity (integrator integrand (FilterConvolution.quad_wavelength p)) ou
        | _, _ => Float (integrator integrand (FilterConvolution.quad_wavelength p))
        end).
Proof.
  intros HF Hp.
  destruct (FilterResponse_init_wavelength _ _ _ _ _ _ HF) as [Hfinc Hflen].
  assert (Hlohi : getitem (FilterResponse._wavelength F) 0
                  < last_item (FilterResponse._wavelength F)) by (apply Hfinc; lia).
  destruct (FilterConvolution_init_ok _ _ _ _ _ _ _ _ Hp) as [w [s1 [Hv [Hgrid _]]]].
  destruct (validate_wavelength_array_ok _ _ _ _ _ Hv) as [Hwlen Hwinc].
  destruct (init_grid_fields F _ _ pw interp units p Hwinc ltac:(lia) Hlohi Hgrid)
    as [Hcov [_ [_ [_ [_ [_ [_ Hcases]]]]]]].
  destruct (restricted_grid_spec F _ Hwinc ltac:(lia) Hlohi Hcov)
    as [Hinc' [Hl' [Hf' [Hla' _]]]].
  unfold FilterConvolution.integrate.
  destruct Hcases as [[_ [Hiw [Hir [Hso _]]]] | [_ [_ [Hiw [Hir [Hso [_ Hw']]]]]]];
    rewrite Hiw, ?Hir, ?Hso.
  - unfold rbind. eexists. reflexivity.
  - rewrite Hw'.
    set (w' := restricted_grid F (contents s1 w)) in *.
    set (fw := FilterResponse._wavelength F) in *.
    assert (Hin : existsb (Scipy.out_of_bounds w')
                    (take fw (FilterConvolution.undersampled_index w' fw)) = false).
    { destruct (existsb _ _) eqn:E; [| reflexivity].
      apply existsb_exists in E. destruct E as [x [Hx Hout]].
      unfold take in Hx. apply in_map_iff in Hx. destruct Hx as [k [<- Hk]].
      destruct (node_off_grid w' fw k Hinc' Hfinc Hk) as [H1 [H2 _]].
      apply out_of_bounds_outside in Hout. destruct Hout as [Hout | Hout]; lra. }
    unfold Scipy.interp1d_strict. rewrite Hin. unfold rbind. eexists. reflexivity.
Qed.

(** X7.  Evaluating a constructed plan on values without units never fails
    once they have one entry per input wavelength: with either integration
    method the result is a plain number.  With any other number of entries
    it raises ValueError. *)
Theorem FilterConvolution_call_succeeds (filter_wavelength filter_response : pyarray)
    (meta : option metadata) (s0 s0' : store) (F : FilterResponse.t)
    (wavelength : pyarray) (pw interp : bool) (units : option Unit)
    (s s' : store) (p : FilterConvolution.t)
    (values : pyarray) (method : string) (st : store) :
  FilterResponse.init filter_wavelength filter_response meta s0 = (Ok F, s0') ->
  FilterConvolution.init F wavelength pw interp units s = (Ok p, s') ->
  unit_attr values = None ->
  method = "trapz"%string \/ method = "simps"%string ->
  let outcome := fst (FilterConvolution.call p values method st) in
  if (length (values_of values st) =? FilterConvolution.num_wavelength p)%nat
  then exists x, outcome = Ok (Float x)
  else outcome = Raise (ValueError "Expected {0} values along axis {1}.").
Proof.
  intros HF Hp Hu Hm outcome.
  assert (Hl : exists integrator,
            lookup method _filter_integration_methods = Some integrator)
    by (destruct Hm as [-> | ->]; eexists; reflexivity).
  destruct Hl as [integrator Hl].
  unfold outcome. rewrite (call_without_units p values method integrator st Hu Hl).
  simpl fst.
  destruct (length (values_of values st) =? FilterConvolution.num_wavelength p)%nat;
    simpl negb; cbv iota; [| reflexivity].
  destruct (integrate_succeeds _ _ _ _ _ _ _ _ _ _ _ _ _ integrator
              (slice (fst (FilterConvolution.response_slice p))
                     (snd (FilterConvolution.response_slice p))
                     (values_of values st)) false HF Hp) as [integrand ->].
  eexists. reflexivity.
Qed.

End PlanEvaluation.

(** ** Refusals that leave the caller's data alone *)

Section Refusals.

Import Np.
Context `{Env}.

(** X9.  The integration method is tested before anything else: a name
    other than trapz and simps raises ValueError, and nothing is read,
    copied or rescaled, whatever the values are. *)
Theorem FilterConvolution_call_unknown_method (p : FilterConvolution.t)
    (values : pyarray) (method : string) (st : store) :
  method <> "trapz"%string -> method <> "simps"%string ->
  FilterConvolution.call p values method st
  = (Raise (ValueError "Invalid method {0}, pick one of {1}."), st).
Proof.
  intros H1 H2. unfold FilterConvolution.call.
  assert (Hl : lookup method _filter_integration_methods = None).
  { unfold _filter_integration_methods, lookup.
    destruct (String.eqb_spec "trapz" method) as [E | _]; [congruence |].
    destruct (String.eqb_spec "simps" method) as [E | _]; [congruence |].
    reflexivity. }
  rewrite Hl. reflexivity.
Qed.

(** X10.  Values with units are refused with ValueError when the plan was
    built without expected units, or when their unit does not convert to
    the plan's; in both cases the caller's array keeps its numbers. *)
Theorem FilterConvolution_call_unit_refusal (p : FilterConvolution.t)
    (r : ref) (u : Unit) (method : string) (st : store) :
  method = "trapz"%string \/ method = "simps"%string ->
  length (contents st r) = FilterConvolution.num_wavelength p ->
  match FilterConvolution.input_units p with
  | None => True
  | Some iu => unit_to u iu = None
  end ->
  exists msg,
    FilterConvolution.call p (QuantityArray r u) method st
    = (Raise (ValueError msg), st).
Proof.
  intros Hm Hlen Hunits. unfold FilterConvolution.call.
  assert (Hl : exists integrator,
            lookup method _filter_integration_methods = Some integrator)
    by (destruct Hm as [-> | ->]; eexists; reflexivity).
  destruct Hl as [integrator ->].
  unfold bind, asarray, ret, load. rewrite Hlen, Nat.eqb_refl.
  unfold FilterConvolution.convert_input, unit_attr, raise. simpl.
  destruct (FilterConvolution.input_units p) as [iu |].
  - rewrite Hunits. eexists. reflexivity.
  - eexists. reflexivity.
Qed.

End Refusals.

(** ** validate_wavelength_array: what is accepted *)

Section ValidateAccepts.

Import Np.
Context `{Env}.

(** X11.  For an input of floats without units, validation looks at the
    length first and at the order second: too few entries raise the
    minimum-length ValueError, enough entries that do not increase strictly
    raise the ordering ValueError, and otherwise the array holding the
    caller's numbers is returned. *)
Theorem validate_wavelength_array_accepts (wavelength : pyarray) (min_length : nat)
    (s : store) :
  unit_attr wavelength = None ->
  array_dtype wavelength = Float64 ->
  let w := values_of wavelength s in
  let outcome := validate_wavelength_array wavelength min_length s in
  ((length w < min_length)%nat ->
     fst outcome = Raise (ValueError "Minimum length is {0}.")) /\
  ((min_length <= length w)%nat -> ~ increasing w ->
     fst outcome = Raise (ValueError "Wavelength values must be strictly increasing.")) /\
  ((min_length <= length w)%nat -> increasing w ->
     exists r, fst outcome = Ok r /\ contents (snd outcome) r = w).
Proof.
  intros Hu _ w outcome. subst w outcome.
  unfold validate_wavelength_array, bind. rewrite Hu.
  destruct wavelength as [l | r | r u]; [| | discriminate];
    unfold asarray, alloc, ret, load; simpl values_of; rewrite ?contents_alloc;
    match goal with |- context [(length ?c <? min_length)%nat] =>
      destruct (Nat.ltb_spec (length c) min_length) as [Hlt | Hge];
      [| destruct (strictly_increasing c) eqn:Einc]
    end; simpl fst; simpl snd;
    (split; [| split]); intros; try lia; try reflexivity;
    try (exfalso; apply strictly_increasing_spec in Einc; contradiction);
    try (match goal with Hi : increasing _ |- _ =>
           apply strictly_increasing_spec in Hi; congruence end).
  - eexists. split; [reflexivity | apply contents_alloc].
  - eexists. split; reflexivity.
Qed.

(** X12.  What validation does to the store.  A sequence is copied to a
    new array; an array without units is left as it is; the numbers of a
    Quantity whose unit converts are multiplied by the conversion factor in
    the caller's own array, whether validation then succeeds or raises; a
    Quantity whose unit does not convert raises UnitConversionError and is
    left as it is. *)
Theorem validate_wavelength_array_store (wavelength : pyarray) (min_length : nat)
    (s s' : store) (res : result ref) :
  validate_wavelength_array wavelength min_length s = (res, s') ->
  match wavelength with
  | PyList l => s' = s ++ [l]
  | NdArray r => s' = s
  | QuantityArray r u =>
      match unit_to u default_wavelength_unit with
      | Some factor => s' = update r (scale factor (contents s r)) s
      | None => s' = s /\ res = Raise UnitConversionError
      end
  end.
Proof. apply validate_wavelength_array_effect. Qed.

End ValidateAccepts.

(** ** FilterResponse.__init__: what is accepted, and the name *)

Section Construction.

Import Np.
Context `{Env}.

Lemma check_required_ok (meta : metadata) (key value : string) :
  check_required meta key = Ok value <->
  lookup key meta = Some (MetaStr value) /\ _name_pattern_match value = true.
Proof.
  unfold check_required. split.
  - destruct (lookup key meta) as [[v |] |]; try discriminate.
    destruct (_name_pattern_match v) eqn:E; [| discriminate].
    intros [= <-]. auto.
  - intros [-> ->]. reflexivity.
Qed.

Lemma init_arrays_meta (w r : list Q) (meta : option metadata) (F : FilterResponse.t) :
  FilterResponse.init_arrays w r meta = Ok F ->
  exists m group band,
    meta = Some m /\ FilterResponse.meta F = m /\
    check_required m "group_name" = Ok group /\
    check_required m "band_name" = Ok band /\
    FilterResponse.name F = (group ++ "-" ++ band)%string.
Proof.
  unfold FilterResponse.init_arrays.
  destruct (negb (length w =? length r)%nat); [discriminate |].
  destruct (any _); [discriminate |].
  destruct (all _); [discriminate |].
  destruct (negb _); [discriminate |].
  destruct (FilterResponse.trim w r) as [w' r'].
  destruct meta as [m |]; [| discriminate].
  intros HF.
  apply rbind_ok in HF. destruct HF as [group [Hg HF]].
  apply rbind_ok in HF. destruct HF as [band [Hb HF]].
  apply rbind_ok in HF. destruct HF as [numer [_ HF]].
  apply rbind_ok in HF. destruct HF as [denom [_ HF]].
  apply rbind_ok in HF. destruct HF as [zp [_ HF]].
  injection HF as <-. exists m, group, band. simpl. auto.
Qed.


(** X14.  A constructed filter keeps the metadata it was given, and its
    name is the group name, a dash, and the band name, both taken from the
    metadata and both identifiers. *)
Theorem FilterResponse_init_name (wavelength response : pyarray)
    (meta : option metadata) (s s' : store) (F : FilterResponse.t) :
  FilterResponse.init wavelength response meta s = (Ok F, s') ->
  exists group band,
    meta = Some (FilterResponse.meta F) /\
    lookup "group_name" (FilterResponse.meta F) = Some (MetaStr group) /\
    lookup "band_name" (FilterResponse.meta F) = Some (MetaStr band) /\
    _name_pattern_match group = true /\ _name_pattern_match band = true /\
    FilterResponse.name F = (group ++ "-" ++ band)%string.
Proof.
  intros HF.
  destruct (FilterResponse_init_ok _ _ _ _ _ _ HF) as [wr [s1 [rr [_ [_ Hi]]]]].
  destruct (init_arrays_meta _ _ _ _ Hi) as [m [g [b [Hm [HFm [Hg [Hb Hn]]]]]]].
  apply check_required_ok in Hg, Hb. subst m.
  exists g, b. rewrite Hm. tauto.
Qed.

Lemma identifier_no_dash (s : string) :
  _name_pattern_match s = true -> all_chars is_alnum_ s = true.
Proof.
  destruct s as [| c s]; [discriminate |]. simpl.
  intros Hs. apply andb_true_iff in Hs. destruct Hs as [Hc ->].
  unfold is_alnum_. rewrite Hc. reflexivity.
Qed.

Lemma dash_split (g1 g2 b1 b2 : string) :
  all_chars is_alnum_ g1 = true -> all_chars is_alnum_ g2 = true ->
  (g1 ++ "-" ++ b1 = g2 ++ "-" ++ b2)%string -> g1 = g2 /\ b1 = b2.
Proof.
  revert g2. induction g1 as [| c g1 IH]; intros [| d g2] H1 H2 E; simpl in *.
  - injection E as <-. auto.
  - injection E as <- _. discriminate.
  - injection E as -> _. discriminate.
  - injection E as <- E.
    apply andb_true_iff in H1, H2.
    destruct (IH g2 (proj2 H1) (proj2 H2) E) as [<- <-]. auto.
Qed.

(** X15.  The name tells the group and the band: two constructed filters
    with the same name carry the same group name and the same band name in
    their metadata, since neither part can contain the dash. *)
Theorem filter_name_determines_group_and_band
    (w1 r1 w2 r2 : pyarray) (meta1 meta2 : option metadata)
    (s1 s1' s2 s2' : store) (F1 F2 : FilterResponse.t) :
  FilterResponse.init w1 r1 meta1 s1 = (Ok F1, s1') ->
  FilterResponse.init w2 r2 meta2 s2 = (Ok F2, s2') ->
  FilterResponse.name F1 = FilterResponse.name F2 ->
  lookup "group_name" (FilterResponse.meta F1)
    = lookup "group_name" (FilterResponse.meta F2) /\
  lookup "band_name" (FilterResponse.meta F1)
    = lookup "band_name" (FilterResponse.meta F2).
Proof.
  intros HF1 HF2 Hn.
  destruct (FilterResponse_init_ok _ _ _ _ _ _ HF1) as [? [? [? [_ [_ Hi1]]]]].
  destruct (FilterResponse_init_ok _ _ _ _ _ _ HF2) as [? [? [? [_ [_ Hi2]]]]].
  destruct (init_arrays_meta _ _ _ _ Hi1) as [m1 [g1 [b1 [_ [Hm1 [Hg1 [Hb1 Hn1]]]]]]].
  destruct (init_arrays_meta _ _ _ _ Hi2) as [m2 [g2 [b2 [_ [Hm2 [Hg2 [Hb2 Hn2]]]]]]].
  apply check_required_ok in Hg1, Hb1, Hg2, Hb2.
  rewrite Hn1, Hn2 in Hn.
  destruct (dash_split g1 g2 b1 b2) as [<- <-];
    [apply identifier_no_dash; tauto | apply identifier_no_dash; tauto | exact Hn |].
  rewrite Hm1, Hm2.
  destruct Hg1 as [-> _], Hb1 as [-> _], Hg2 as [-> _], Hb2 as [-> _]. auto.
Qed.

End Construction.

(** ** FilterConvolution.__init__: what is accepted *)

Section PlanAccepts.

Import Np.
Context `{Env}.


End PlanAccepts.

(** ** tabulate_function_of_wavelength: the element-by-element attempts *)

Section Tabulate.

Import Np.

Lemma unit_eqb_refl (u : Unit) : unit_eqb u u = true.
Proof.
  unfold unit_eqb. apply andb_true_iff. split.
  - unfold dim_eqb. destruct (dim u) as [[a b] c].
    rewrite !Z.eqb_refl. reflexivity.
  - apply Qeq_bool_iff. reflexivity.
Qed.

Lemma units_agree_refl (a : option Unit) : units_agree a a = true.
Proof. destruct a; simpl; [apply unit_eqb_refl | reflexivity]. Qed.

(** After the first element the loop keeps [function_units] as it is: it
    completes when every value agrees with it, raises RuntimeError at the
    first value that does not or at the first call that raises one, and
    gives up at the first call that fails otherwise. *)
Lemma tabulate_loop_tail (f : Q -> option (Q * option Unit)) (rt : Q -> option string)
    (ws : list Q) :
  forall (i : nat) (fu : option Unit) (acc : list Q),
  match tabulate_loop f rt (S i) ws fu acc with
  | LoopDone vs u =>
      u = fu /\
      exists xs, vs = rev acc ++ xs /\ length xs = length ws /\
        forall k, (k < length ws)%nat ->
          exists vu, f (getitem ws k) = Some (getitem xs k, vu) /\
                     units_agree fu vu = true
  | LoopRaise e => exn_kind e = RuntimeErrorC
  | LoopFailed u =>
      u = fu /\
      exists k, (k < length ws)%nat /\ f (getitem ws k) = None /\ rt (getitem ws k) = None
  end.
Proof.
  induction ws as [| w ws IH]; intros i fu acc.
  - simpl. split; [reflexivity |]. exists []. rewrite app_nil_r.
    repeat split. intros k Hk. simpl in Hk. lia.
  - cbn [tabulate_loop]. destruct (f w) as [[value vu] |] eqn:Ef.
    + replace (S i =? 0)%nat with false by reflexivity.
      assert (Hstep :
        units_agree fu vu = true ->
        match tabulate_loop f rt (S (S i)) ws fu (value :: acc) with
        | LoopDone vs u =>
            u = fu /\
            exists xs, vs = rev acc ++ xs /\ length xs = length (w :: ws) /\
              forall k, (k < length (w :: ws))%nat ->
                exists vu, f (getitem (w :: ws) k) = Some (getitem xs k, vu) /\
                           units_agree fu vu = true
        | LoopRaise e => exn_kind e = RuntimeErrorC
        | LoopFailed u =>
            u = fu /\
            exists k, (k < length (w :: ws))%nat /\ f (getitem (w :: ws) k) = None /\
                      rt (getitem (w :: ws) k) = None
        end).
      { intros Hagree. specialize (IH (S i) fu (value :: acc)).
        destruct (tabulate_loop f rt (S (S i)) ws fu (value :: acc)) as [vs u | e | u].
        - destruct IH as [Hu [xs [Hvs [Hlen Hall]]]]. split; [exact Hu |].
          exists (value :: xs). split; [| split].
          + rewrite Hvs. simpl. rewrite <- app_assoc. reflexivity.
          + simpl. lia.
          + intros [| k] Hk.
            * exists vu. unfold getitem. simpl. auto.
            * destruct (Hall k ltac:(simpl in Hk; lia)) as [vu' Hk']. exists vu'. exact Hk'.
        - exact IH.
        - destruct IH as [Hu [k [Hk Hf]]]. split; [exact Hu |].
          exists (S k). split; [simpl; lia | exact Hf]. }
      destruct fu as [u0 |], vu as [u1 |].
      * simpl units_agree in Hstep. destruct (unit_eqb u0 u1).
        -- apply Hstep. reflexivity.
        -- reflexivity.
      * reflexivity.
      * reflexivity.
      * apply Hstep. reflexivity.
    + destruct (rt w) as [msg |] eqn:Er; [reflexivity |].
      split; [reflexivity |]. exists 0%nat. split; [simpl; lia | split; assumption].
Qed.

(** The loop from a clean start, on a function that answers everywhere. *)
Lemma tabulate_loop_total (f : Q -> option (Q * option Unit)) (rt : Q -> option string)
    (g : Q -> Q) (h : Q -> option Unit) (w : list Q) :
  (forall x, In x w -> f x = Some (g x, h x)) ->
  (forallb (fun x => units_agree (h (getitem w 0)) (h x)) w = true ->
   tabulate_loop f rt 0 w None []
   = LoopDone (map g w) (match w with [] => None | x :: _ => h x end)) /\
  (forallb (fun x => units_agree (h (getitem w 0)) (h x)) w = false ->
   exists msg, tabulate_loop f rt 0 w None [] = LoopRaise (RuntimeError msg)).
Proof.
  intros Hf. destruct w as [| x0 w].
  - split; [reflexivity | discriminate].
  - replace (getitem (x0 :: w) 0) with x0 by reflexivity.
    cbn [tabulate_loop forallb]. rewrite (Hf x0 (or_introl eq_refl)).
    replace (0 =? 0)%nat with true by reflexivity.
    rewrite units_agree_refl. cbn [andb].
    assert (Hgen : forall (ws : list Q) (i : nat) (fu : option Unit) (acc : list Q),
              (forall x, In x ws -> f x = Some (g x, h x)) ->
              (forallb (fun x => units_agree fu (h x)) ws = true ->
               tabulate_loop f rt (S i) ws fu acc = LoopDone (rev acc ++ map g ws) fu) /\
              (forallb (fun x => units_agree fu (h x)) ws = false ->
               exists msg, tabulate_loop f rt (S i) ws fu acc = LoopRaise (RuntimeError msg))).
    { induction ws as [| y ws IH]; intros i fu acc Hws.
      - split; [intros _; simpl; rewrite app_nil_r; reflexivity | discriminate].
      - cbn [tabulate_loop forallb]. rewrite (Hws y (or_introl eq_refl)).
        replace (S i =? 0)%nat with false by reflexivity.
        specialize (IH (S i) fu (g y :: acc) (fun x Hx => Hws x (or_intror Hx))).
        destruct IH as [IHt IHf].
        destruct fu as [u0 |], (h y) as [u1 |]; cbn [units_agree andb].
        + destruct (unit_eqb u0 u1); cbn [andb].
          * split; intros Hb.
            -- rewrite (IHt Hb). simpl. rewrite <- app_assoc. reflexivity.
            -- exact (IHf Hb).
          * split; [discriminate | intros _; eexists; reflexivity].
        + split; [discriminate | intros _; eexists; reflexivity].
        + split; [discriminate | intros _; eexists; reflexivity].
        + split; intros Hb.
          * rewrite (IHt Hb). simpl. rewrite <- app_assoc. reflexivity.
          * exact (IHf Hb). }
    assert (Hw : forall x, In x w -> f x = Some (g x, h x))
      by (intros x Hx; apply Hf; right; exact Hx).
    destruct (h x0) as [u0 |].
    + destruct (Hgen w 0%nat (Some u0) [g x0] Hw) as [Ht Hr].
      split; intros Hb; [rewrite (Ht Hb); reflexivity | exact (Hr Hb)].
    + destruct (Hgen w 0%nat None [g x0] Hw) as [Ht Hr].
      split; intros Hb; [rewrite (Ht Hb); reflexivity | exact (Hr Hb)].
Qed.

(** X17.  A function that cannot take the whole array but answers for each
    wavelength with its unit attached is tabulated value by value, and the
    result carries the unit of the first value.  If some value disagrees
    with the first on its unit the call raises RuntimeError; the attempt
    without units is not made. *)
Theorem tabulate_element_by_element (function : callable)
    (g : Q -> Q) (h : Q -> option Unit) (w : list Q) :
  on_array function true w = None ->
  on_array function false w = None ->
  (forall x, In x w -> on_scalar function true x = Some (g x, h x)) ->
  if forallb (fun x => units_agree (h (getitem w 0)) (h x)) w
  then tabulate_function_of_wavelength function w
       = Ok (Array (map g w), match w with [] => None | x :: _ => h x end)
  else exists msg,
       tabulate_function_of_wavelength function w = Raise (RuntimeError msg).
Proof.
  intros Ha1 Ha2 Hf. unfold tabulate_function_of_wavelength. rewrite Ha1, Ha2.
  destruct (tabulate_loop_total (on_scalar function true) (runtime_error function true)
              g h w Hf) as [Ht Hr].
  destruct (forallb _ w).
  - rewrite (Ht eq_refl). reflexivity.
  - destruct (Hr eq_refl) as [msg ->]. exists msg. reflexivity.
Qed.

Lemma tabulate_loop_start (f : Q -> option (Q * option Unit)) (rt : Q -> option string)
    (ws : list Q) (fu : option Unit) :
  match tabulate_loop f rt 0 ws fu [] with
  | LoopRaise e => exn_kind e = RuntimeErrorC
  | LoopFailed _ => exists x, In x ws /\ f x = None /\ rt x = None
  | LoopDone _ _ => True
  end.
Proof.
  destruct ws as [| w ws]; [exact I |].
  cbn [tabulate_loop]. destruct (f w) as [[value vu] |] eqn:Ef.
  - replace (0 =? 0)%nat with true by reflexivity.
    assert (Hgen : forall fu',
              match tabulate_loop f rt 1 ws fu' [value] with
              | LoopRaise e => exn_kind e = RuntimeErrorC
              | LoopFailed _ => exists x, In x (w :: ws) /\ f x = None /\ rt x = None
              | LoopDone _ _ => True
              end).
    { intros fu'. pose proof (tabulate_loop_tail f rt ws 0%nat fu' [value]) as Ht.
      destruct (tabulate_loop f rt 1 ws fu' [value]) as [vs u | e | u].
      - exact I.
      - exact Ht.
      - destruct Ht as [_ [k [Hk Hf]]]. exists (getitem ws k). split; [| exact Hf].
        right. unfold getitem. apply nth_In. exact Hk. }
    destruct vu; apply Hgen.
  - destruct (rt w) as [msg |] eqn:Er; [reflexivity |].
    exists w. split; [left; reflexivity | split; assumption].
Qed.

(** X18.  The four attempts raise nothing but RuntimeError and the
    ValueError for an invalid function.  The latter is raised only when the
    function fails on the whole array with and without units and, called on
    single wavelengths, fails on one of them with units and on one of them
    without, neither time with a RuntimeError. *)
Theorem tabulate_invalid_function (function : callable) (w : list Q) (e : exn) :
  tabulate_function_of_wavelength function w = Raise e ->
  exn_kind e = RuntimeErrorC \/
  (e = ValueError "Invalid function." /\
   on_array function true w = None /\ on_array function false w = None /\
   (exists x, In x w /\ on_scalar function true x = None /\
              runtime_error function true x = None) /\
   (exists x, In x w /\ on_scalar function false x = None /\
              runtime_error function false x = None)).
Proof.
  unfold tabulate_function_of_wavelength.
  destruct (on_array function true w) as [[v u] |] eqn:Ea1; [discriminate |].
  destruct (on_array function false w) as [[v u] |] eqn:Ea2; [discriminate |].
  pose proof (tabulate_loop_start (on_scalar function true)
                (runtime_error function true) w None) as H1.
  destruct (tabulate_loop (on_scalar function true) (runtime_error function true)
              0 w None []) as [vs u | e1 | fu];
    [discriminate | intros [= <-]; left; exact H1 |].
  pose proof (tabulate_loop_start (on_scalar function false)
                (runtime_error function false) w fu) as H2.
  destruct (tabulate_loop (on_scalar function false) (runtime_error function false)
              0 w fu []) as [vs u | e2 | fu'];
    [discriminate | intros [= <-]; left; exact H2 |].
  intros [= <-]. right. auto.
Qed.

(** X19.  The attempt without units starts from the unit the attempt with
    units had seen.  A function that returns a value with a unit for the
    first wavelength when called with units, fails for a later one with an
    exception that is not a RuntimeError, and works everywhere without
    units, returning plain numbers, is not tabulated: the call raises
    RuntimeError at the second wavelength. *)
Theorem tabulate_keeps_units_of_failed_attempt (function : callable)
    (g : Q -> Q) (v0 : Q) (u : Unit) (x0 x1 : Q) (rest : list Q) :
  let w := x0 :: x1 :: rest in
  on_array function true w = None ->
  on_array function false w = None ->
  on_scalar function true x0 = Some (v0, Some u) ->
  (exists x, In x (x1 :: rest) /\ on_scalar function true x = None) ->
  (forall x, In x (x1 :: rest) -> on_scalar function true x = None ->
             runtime_error function true x = None) ->
  (forall x, In x (x1 :: rest) -> on_scalar function true x <> None ->
             exists v, on_scalar function true x = Some (v, Some u)) ->
  (forall x, In x w -> on_scalar function false x = Some (g x, None)) ->
  tabulate_function_of_wavelength function w
  = Raise (RuntimeError "Inconsistent function units: {0}, none.").
Proof.
  intros w Ha1 Ha2 H0 Hfail Hrt Hsame Hplain. subst w.
  unfold tabulate_function_of_wavelength. rewrite Ha1, Ha2.
  assert (Hloop : forall ws i acc,
            (exists x, In x ws /\ on_scalar function true x = None) ->
            (forall x, In x ws -> on_scalar function true x = None ->
                       runtime_error function true x = None) ->
            (forall x, In x ws -> on_scalar function true x <> None ->
                       exists v, on_scalar function true x = Some (v, Some u)) ->
            tabulate_loop (on_scalar function true) (runtime_error function true)
              (S i) ws (Some u) acc
            = LoopFailed (Some u)).
  { induction ws as [| y ws IH]; intros i acc [x [Hx Hn]] Hr Hs.
    - destruct Hx.
    - cbn [tabulate_loop].
      destruct (on_scalar function true y) as [[v vu] |] eqn:Ey.
      + replace (S i =? 0)%nat with false by reflexivity.
        destruct (Hs y (or_introl eq_refl) ltac:(congruence)) as [v' Hv'].
        rewrite Ey in Hv'. injection Hv' as _ ->.
        rewrite unit_eqb_refl. apply IH.
        * destruct Hx as [-> | Hx]; [congruence |]. exists x. auto.
        * intros z Hz. apply Hr. right. exact Hz.
        * intros z Hz. apply Hs. right. exact Hz.
      + rewrite (Hr y (or_introl eq_refl) Ey). reflexivity. }
  remember (x1 :: rest) as ws eqn:Ews.
  cbn [tabulate_loop]. rewrite H0.
  replace (0 =? 0)%nat with true by reflexivity.
  rewrite (Hloop ws 0%nat [v0] Hfail Hrt Hsame).
  rewrite (Hplain x0 (or_introl eq_refl)). subst ws.
  cbn [tabulate_loop].
  rewrite (Hplain x1 (or_intror (or_introl eq_refl))).
  replace (1 =? 0)%nat with false by reflexivity.
  reflexivity.
Qed.

End Tabulate.

(** ** The filter cache and load_filter *)

Section Cache.

Import Np.
Context `{Env} `{Files}.

Lemma new_FilterResponse_ok (wavelength response : pyarray) (meta : option metadata)
    (cache cache' : filter_cache) (s s' : store) (F : FilterResponse.t) :
  new_FilterResponse wavelength response meta cache s = (Ok (F, cache'), s') ->
  FilterResponse.init wavelength response meta s = (Ok F, s') /\
  cache' = (FilterResponse.name F, F) :: cache.
Proof.
  unfold new_FilterResponse. intros Hn.
  apply bind_ok in Hn. destruct Hn as [F0 [s1 [HF Hr]]].
  unfold ret in Hr. injection Hr as <- <- <-. auto.
Qed.

Lemma lookup_head {A} (k : string) (v : A) (d : list (string * A)) :
  lookup k ((k, v) :: d) = Some v.
Proof. simpl. rewrite String.eqb_refl. reflexivity. Qed.

Lemma load_filter_hit (name : string) (cache : filter_cache) (F : FilterResponse.t)
    (s : store) :
  lookup name cache = Some F ->
  load_filter name true cache s = (Ok (F, cache), s).
Proof. intros Hl. unfold load_filter. rewrite Hl. reflexivity. Qed.

(** X20.  A filter built by hand is served by name from then on: once the
    constructor has returned, [load_filter] with that filter's name returns
    the very same filter without looking at any file, also when a standard
    filter of that name exists and also when another filter had the name
    before. *)
Theorem constructed_filter_is_loaded_from_cache
    (wavelength response : pyarray) (meta : option metadata)
    (cache cache' : filter_cache) (s s' : store) (F : FilterResponse.t) :
  new_FilterResponse wavelength response meta cache s = (Ok (F, cache'), s') ->
  forall s2, load_filter (FilterResponse.name F) true cache' s2 = (Ok (F, cache'), s2).
Proof.
  intros Hn s2. apply new_FilterResponse_ok in Hn. destruct Hn as [_ ->].
  apply load_filter_hit, lookup_head.
Qed.

Lemma init_canonical_name (wavelength response : pyarray) (meta : option metadata)
    (s s' : store) (F : FilterResponse.t) :
  FilterResponse.init wavelength response meta s = (Ok F, s') ->
  canonical_name (FilterResponse.name F).
Proof.
  intros HF.
  destruct (FilterResponse_init_ok _ _ _ _ _ _ HF) as [wr [s1 [rr [_ [_ Hi]]]]].
  destruct (init_arrays_meta _ _ _ _ Hi) as [m [g [b [_ [_ [Hg [Hb Hn]]]]]]].
  apply check_required_ok in Hg, Hb.
  exists g, b. tauto.
Qed.

Lemma cache_by_name_cons (cache : filter_cache) (F : FilterResponse.t) :
  cache_by_name cache -> canonical_name (FilterResponse.name F) ->
  cache_by_name ((FilterResponse.name F, F) :: cache).
Proof.
  intros Hc Hn k G. simpl.
  destruct (String.eqb_spec (FilterResponse.name F) k) as [<- | _].
  - intros [= <-]. auto.
  - apply Hc.
Qed.

(** What a call that went to the file has done. *)
Lemma load_filter_miss (name : string) (load_from_cache : bool)
    (cache cache' : filter_cache) (s s' : store) (F : FilterResponse.t) :
  (if load_from_cache then lookup name cache else None) = None ->
  load_filter name load_from_cache cache s = (Ok (F, cache'), s') ->
  let extension := snd (Os.splitext name) in
  let file_name :=
    if String.eqb extension EmptyString
    then _find_pkg_data_path ("data/filters/" ++ name ++ ".ecsv")%string
    else name in
  (extension = EmptyString \/ extension = ".ecsv"%string) /\
  isfile file_name = true /\
  exists table wavelength_column response_column wavelength_unit,
    read_table file_name = Ok table /\
    lookup "wavelength" (Table.columns table) = Some wavelength_column /\
    Column.unit wavelength_column = Some wavelength_unit /\
    lookup "response" (Table.columns table) = Some response_column /\
    Column.unit response_column = None /\
    new_FilterResponse (QuantityArray (length s) wavelength_unit)
      (NdArray (S (length s))) (Some (Table.meta table)) cache
      ((s ++ [Column.data wavelength_column]) ++ [Column.data response_column])
    = (Ok (F, cache'), s').
Proof.
  intros Hmiss. unfold load_filter. rewrite Hmiss.
  destruct (Os.splitext name) as [base_name extension]. simpl snd.
  assert (Hrun : forall file_name,
    (if negb (isfile file_name) then
       raise (ValueError "No such filter file {0}.")
     else
       table <- lift (read_table file_name) ;;
       match lookup "wavelength" (Table.columns table) with
       | None => raise (RuntimeError "Table is missing required wavelength column.")
       | Some wavelength_column =>
       match Column.unit wavelength_column with
       | None => raise (RuntimeError "No wavelength column unit specified.")
       | Some wavelength_unit =>
           wavelength <- alloc (Column.data wavelength_column) ;;
           match lookup "response" (Table.columns table) with
           | None => raise (RuntimeError "Table is missing required response column.")
           | Some response_column =>
           match Column.unit response_column with
           | Some _ => raise (RuntimeError "Response column has unexpected units.")
           | None =>
               response <- alloc (Column.data response_column) ;;
               new_FilterResponse (QuantityArray wavelength wavelength_unit)
                 (NdArray response) (Some (Table.meta table)) cache
           end end end end) s = (Ok (F, cache'), s') ->
    isfile file_name = true /\
    exists table wavelength_column response_column wavelength_unit,
      read_table file_name = Ok table /\
      lookup "wavelength" (Table.columns table) = Some wavelength_column /\
      Column.unit wavelength_column = Some wavelength_unit /\
      lookup "response" (Table.columns table) = Some response_column /\
      Column.unit response_column = None /\
      new_FilterResponse (QuantityArray (length s) wavelength_unit)
        (NdArray (S (length s))) (Some (Table.meta table)) cache
        ((s ++ [Column.data wavelength_column]) ++ [Column.data response_column])
      = (Ok (F, cache'), s')).
  { intros file_name.
    destruct (isfile file_name); cbn [negb]; [| discriminate].
    unfold bind at 1, lift at 1.
    destruct (read_table file_name) as [table | e] eqn:Eread; [| discriminate].
    destruct (lookup "wavelength" (Table.columns table)) as [wc |] eqn:Ewc;
      [| discriminate].
    destruct (Column.unit wc) as [wu |] eqn:Ewu; [| discriminate].
    unfold bind at 1, alloc at 1.
    destruct (lookup "response" (Table.columns table)) as [rc |] eqn:Erc;
      [| discriminate].
    destruct (Column.unit rc) as [ru |] eqn:Eru; [discriminate |].
    unfold bind at 1, alloc at 1. rewrite length_app. simpl length.
    replace (length s + 1)%nat with (S (length s)) by lia.
    intros Hnew. split; [reflexivity |].
    exists table, wc, rc, wu. repeat split; assumption. }
  destruct (String.eqb_spec extension EmptyString) as [He | He].
  - cbn [orb negb]. intros Hload. split; [auto |]. exact (Hrun _ Hload).
  - destruct (String.eqb_spec extension ".ecsv") as [He' | He'].
    + cbn [orb negb]. intros Hload. split; [auto |]. exact (Hrun _ Hload).
    + cbn [orb negb]. discriminate.
Qed.

(** X21.  A cache in which every filter sits under its own canonical name
    stays so across [load_filter], and the filter a call returns is the one
    later calls with that filter's name return, without reading a file:
    this holds whether the call was answered from the cache or from a
    file, and whatever name or path it was given. *)
Theorem load_filter_then_cached (name : string) (load_from_cache : bool)
    (cache cache' : filter_cache) (s s' : store) (F : FilterResponse.t) :
  cache_by_name cache ->
  load_filter name load_from_cache cache s = (Ok (F, cache'), s') ->
  cache_by_name cache' /\
  forall s2, load_filter (FilterResponse.name F) true cache' s2 = (Ok (F, cache'), s2).
Proof.
  intros Hc Hload.
  destruct (if load_from_cache then lookup name cache else None) as [G |] eqn:Ehit.
  - unfold load_filter in Hload. rewrite Ehit in Hload.
    unfold ret in Hload. injection Hload as <- <- <-.
    destruct load_from_cache; [| discriminate].
    destruct (Hc name G Ehit) as [Hname _].
    split; [exact Hc |]. intros s2. apply load_filter_hit. rewrite Hname. exact Ehit.
  - destruct (load_filter_miss name load_from_cache cache cache' s s' F Ehit Hload)
      as [_ [_ [table [wc [rc [wu [_ [_ [_ [_ [_ Hnew]]]]]]]]]]].
    apply new_FilterResponse_ok in Hnew. destruct Hnew as [HF ->].
    split.
    + apply cache_by_name_cons; [exact Hc | exact (init_canonical_name _ _ _ _ _ _ HF)].
    + intros s2. apply load_filter_hit, lookup_head.
Qed.

Lemma all_chars_app (p : ascii -> bool) (a b : string) :
  all_chars p (a ++ b) = all_chars p a && all_chars p b.
Proof.
  induction a as [| c a IH]; simpl; [reflexivity |].
  rewrite IH. apply andb_assoc.
Qed.

Lemma all_chars_impl (p q : ascii -> bool) (s : string) :
  (forall c, p c = true -> q c = true) -> all_chars p s = true -> all_chars q s = true.
Proof.
  intros Hpq. induction s as [| c s IH]; simpl; [reflexivity |].
  intros Hs. apply andb_true_iff in Hs. destruct Hs as [Hc Hs].
  rewrite (Hpq c Hc), (IH Hs). reflexivity.
Qed.

Lemma is_alnum_not_dot (c : ascii) :
  is_alnum_ c = true -> negb (Ascii.eqb c ".") = true.
Proof.
  destruct (Ascii.eqb_spec c ".") as [-> | _]; [discriminate | reflexivity].
Qed.

Lemma canonical_name_no_dot (k : string) :
  canonical_name k -> all_chars (fun c => negb (Ascii.eqb c ".")) k = true.
Proof.
  intros [g [b [Hg [Hb ->]]]]. rewrite !all_chars_app.
  apply identifier_no_dash in Hg, Hb.
  rewrite (all_chars_impl _ _ g is_alnum_not_dot Hg).
  rewrite (all_chars_impl _ _ b is_alnum_not_dot Hb). reflexivity.
Qed.

Lemma rfind_from_absent (c : ascii) (s : string) (i found : Z) :
  all_chars (fun d => negb (Ascii.eqb d c)) s = true ->
  Os.rfind_from c s i found = found.
Proof.
  revert i found. induction s as [| d s IH]; intros i found; simpl; [reflexivity |].
  intros Hs. apply andb_true_iff in Hs. destruct Hs as [Hd Hs].
  rewrite IH by exact Hs. destruct (Ascii.eqb d c); [discriminate | reflexivity].
Qed.

Lemma rfind_from_lower (c : ascii) (s : string) (i found : Z) :
  (found <= i)%Z -> (found <= Os.rfind_from c s i found)%Z.
Proof.
  revert i found. induction s as [| d s IH]; intros i found Hle; simpl; [lia |].
  destruct (Ascii.eqb d c).
  - specialize (IH (i + 1)%Z i ltac:(lia)). lia.
  - apply IH. lia.
Qed.

Lemma splitext_no_dot (p : string) :
  all_chars (fun c => negb (Ascii.eqb c ".")) p = true ->
  Os.splitext p = (p, EmptyString).
Proof.
  intros Hp. unfold Os.splitext, Os.rfind.
  rewrite (rfind_from_absent "." p 0 (-1) Hp).
  pose proof (rfind_from_lower "/" p 0 (-1) ltac:(lia)) as Hsep.
  destruct (Z.ltb_spec (Os.rfind_from "/" p 0 (-1)) (-1)); [lia | reflexivity].
Qed.

(** X22.  A name with an extension is never answered from the cache: the
    keys of the cache are canonical names, which have no dot, so a custom
    filter file is read again at every call, with or without
    [load_from_cache]. *)
Theorem load_filter_custom_file_not_cached (name : string)
    (cache : filter_cache) (s : store) :
  cache_by_name cache ->
  snd (Os.splitext name) <> EmptyString ->
  load_filter name true cache s = load_filter name false cache s.
Proof.
  intros Hc Hext.
  assert (Hmiss : lookup name cache = None).
  { destruct (lookup name cache) as [G |] eqn:El; [| reflexivity].
    exfalso. apply Hext.
    destruct (Hc name G El) as [_ Hcanon].
    rewrite (splitext_no_dot name (canonical_name_no_dot name Hcanon)). reflexivity. }
  unfold load_filter. rewrite Hmiss. reflexivity.
Qed.

(** X23.  A filter that comes from a file holds the table's wavelengths
    converted to Angstrom from the unit of the column, and the table's
    responses, both trimmed of surplus zeros; it keeps the table's
    metadata, and is entered in the cache under its own name. *)
Theorem load_filter_from_table (name : string) (cache cache' : filter_cache)
    (s s' : store) (F : FilterResponse.t) :
  load_filter name false cache s = (Ok (F, cache'), s') ->
  exists file_name table wavelength_column response_column wavelength_unit factor,
    read_table file_name = Ok table /\
    lookup "wavelength" (Table.columns table) = Some wavelength_column /\
    lookup "response" (Table.columns table) = Some response_column /\
    Column.unit wavelength_column = Some wavelength_unit /\
    unit_to wavelength_unit default_wavelength_unit = Some factor /\
    (FilterResponse._wavelength F, FilterResponse.response F)
    = FilterResponse.trim (scale factor (Column.data wavelength_column))
        (Column.data response_column) /\
    FilterResponse.meta F = Table.meta table /\
    cache' = (FilterResponse.name F, F) :: cache.
Proof.
  intros Hload.
  destruct (load_filter_miss name false cache cache' s s' F eq_refl Hload)
    as [_ [_ [table [wc [rc [wu [Hread [Hwc [Hwu [Hrc [_ Hnew]]]]]]]]]]].
  apply new_FilterResponse_ok in Hnew. destruct Hnew as [HF Hcache].
  destruct (FilterResponse_init_ok _ _ _ _ _ _ HF) as [wr [s1 [rr [Hv [Ha Hi]]]]].
  pose proof (validate_wavelength_array_values _ _ _ _ _ Hv) as [-> [factor [Hf Hw]]].
  pose proof (validate_wavelength_array_effect _ _ _ _ _ Hv) as Hs1.
  simpl in Hs1. rewrite Hf in Hs1.
  unfold asarray, ret in Ha. injection Ha as <- <-.
  assert (Hlt : (length s < length ((s ++ [Column.data wc]) ++ [Column.data rc]))%nat)
    by (rewrite !length_app; simpl; lia).
  specialize (Hw Hlt).
  assert (Hcw : contents ((s ++ [Column.data wc]) ++ [Column.data rc]) (length s)
                = Column.data wc).
  { unfold contents. rewrite app_nth1 by (rewrite length_app; simpl; lia).
    rewrite app_nth2 by lia. rewrite Nat.sub_diag. reflexivity. }
  rewrite Hcw in Hw, Hs1.
  assert (Hcr : contents s1 (S (length s)) = Column.data rc).
  { rewrite Hs1. rewrite contents_update; try lia.
    - unfold contents. rewrite app_nth2 by (rewrite length_app; simpl; lia).
      rewrite length_app. simpl length.
      replace (S (length s) - (length s + 1))%nat with 0%nat by lia.
      destruct (Nat.eqb_spec (S (length s)) (length s)); [lia | reflexivity]. }
  rewrite Hw, Hcr in Hi.
  destruct (init_arrays_ok _ _ _ _ Hi) as [_ [_ Htrim]].
  destruct (init_arrays_meta _ _ _ _ Hi) as [m [g [b [Hm [HFm _]]]]].
  injection Hm as <-.
  eexists _, table, wc, rc, wu, factor.
  repeat split; eauto.
Qed.

End Cache.

(** ** load_filters: a group comes back in order *)

Section Groups.

Import Np.
Context `{Env} `{Files} `{Directory}.

Lemma band_ltb_true (x y : Q * string) : band_ltb x y = true -> by_wavelength x y.
Proof.
  unfold band_ltb, by_wavelength.
  destruct (Qeq_bool (fst x) (fst y)) eqn:E.
  - intros _. apply Qeq_bool_iff in E. rewrite E. apply Qle_refl.
  - intros Hlt. apply Qltb_lt in Hlt. apply Qlt_le_weak. exact Hlt.
Qed.

Lemma band_ltb_false (x y : Q * string) : band_ltb x y = false -> by_wavelength y x.
Proof.
  unfold band_ltb, by_wavelength.
  destruct (Qeq_bool (fst x) (fst y)) eqn:E.
  - intros _. apply Qeq_bool_iff in E. rewrite E. apply Qle_refl.
  - intros Hge. apply Qltb_ge in Hge. exact Hge.
Qed.

Lemma insert_band_perm (x : Q * string) (l : list (Q * string)) :
  Permutation (insert_band x l) (x :: l).
Proof.
  induction l as [| y l IH]; simpl; [reflexivity |].
  destruct (band_ltb x y); [reflexivity |].
  rewrite IH. apply perm_swap.
Qed.

Lemma sorted_perm (l : list (Q * string)) : Permutation (sorted l) l.
Proof.
  unfold sorted.
  assert (Hgen : forall acc, Permutation (fold_left (fun a x => insert_band x a) l acc)
                                         (acc ++ l)).
  { induction l as [| x l IH]; intros acc; simpl.
    - rewrite app_nil_r. reflexivity.
    - rewrite IH. rewrite insert_band_perm. simpl.
      apply Permutation_cons_app. reflexivity. }
  apply (Hgen []).
Qed.

Lemma insert_band_sorted (x : Q * string) (l : list (Q * string)) :
  StronglySorted by_wavelength l -> StronglySorted by_wavelength (insert_band x l).
Proof.
  induction l as [| y l IH]; intros Hs; simpl.
  - constructor; constructor.
  - inversion Hs as [| y' l' Hl Hy]; subst.
    destruct (band_ltb x y) eqn:E.
    + constructor; [exact Hs |]. constructor.
      * apply band_ltb_true. exact E.
      * apply band_ltb_true in E. eapply Forall_impl; [| exact Hy].
        intros z Hz. unfold by_wavelength in *. eapply Qle_trans; eassumption.
    + constructor; [apply IH; exact Hl |].
      apply (Permutation_Forall (Permutation_sym (insert_band_perm x l))).
      constructor; [apply band_ltb_false; exact E | exact Hy].
Qed.

Lemma sorted_by_wavelength (l : list (Q * string)) :
  StronglySorted by_wavelength (sorted l).
Proof.
  unfold sorted.
  assert (Hgen : forall acc, StronglySorted by_wavelength acc ->
            StronglySorted by_wavelength (fold_left (fun a x => insert_band x a) l acc)).
  { induction l as [| x l IH]; intros acc Ha; simpl; [exact Ha |].
    apply IH, insert_band_sorted, Ha. }
  apply Hgen. constructor.
Qed.

Lemma sorted_first_components (l : list (Q * string)) :
  StronglySorted by_wavelength l -> StronglySorted Qle (map fst l).
Proof.
  induction 1 as [| b l Hl IH Hb]; simpl; constructor; [exact IH |].
  rewrite Forall_map. exact Hb.
Qed.

Lemma file_tells_name (full_name : string) (cache cache' : filter_cache)
    (s s' : store) (F : FilterResponse.t) :
  named_like_file full_name ->
  lookup full_name cache = None ->
  load_filter full_name true cache s = (Ok (F, cache'), s') ->
  FilterResponse.name F = full_name /\
  canonical_name full_name /\
  cache' = (full_name, F) :: cache.
Proof.
  intros Hnamed Hmiss Hload.
  assert (Hmiss' : (if true then lookup full_name cache else None) = None) by exact Hmiss.
  destruct (load_filter_miss full_name true cache cache' s s' F Hmiss' Hload)
    as [_ [_ [table [wc [rc [wu [Hread [_ [_ [_ [_ Hnew]]]]]]]]]]].
  apply new_FilterResponse_ok in Hnew. destruct Hnew as [HF Hcache].
  destruct (Hnamed table Hread) as [g [b [Hg [Hb Hfull]]]].
  destruct (FilterResponse_init_ok _ _ _ _ _ _ HF) as [wr [s1 [rr [_ [_ Hi]]]]].
  destruct (init_arrays_meta _ _ _ _ Hi) as [m [g' [b' [Hm [_ [Hg' [Hb' Hn]]]]]]].
  injection Hm as <-.
  apply check_required_ok in Hg', Hb'.
  destruct Hg' as [Hg' Hgp], Hb' as [Hb' Hbp].
  rewrite Hg in Hg'. rewrite Hb in Hb'. injection Hg' as <-. injection Hb' as <-.
  assert (Hname : FilterResponse.name F = full_name) by congruence.
  split; [exact Hname |]. split.
  - exists g, b. auto.
  - rewrite Hcache, Hname. reflexivity.
Qed.

(** One load during the scan: the filter has the name asked for, the cache
    keeps what it had, and holds the filter under that name. *)
Lemma load_filter_named (full_name : string) (cache cache' : filter_cache)
    (s s' : store) (F : FilterResponse.t) :
  cache_by_name cache -> named_like_file full_name ->
  load_filter full_name true cache s = (Ok (F, cache'), s') ->
  cache_by_name cache' /\
  lookup full_name cache' = Some F /\
  (forall k G, lookup k cache = Some G -> lookup k cache' = Some G).
Proof.
  intros Hc Hnamed Hload.
  destruct (lookup full_name cache) as [G |] eqn:Ehit.
  - rewrite (load_filter_hit full_name cache G s Ehit) in Hload.
    injection Hload as <- <- <-. auto.
  - destruct (file_tells_name full_name cache cache' s s' F Hnamed Ehit Hload)
      as [Hname [Hcanon ->]].
    split; [| split].
    + rewrite <- Hname. apply cache_by_name_cons; [exact Hc |].
      rewrite Hname. exact Hcanon.
    + apply lookup_head.
    + intros k G Hk. simpl.
      destruct (String.eqb_spec full_name k) as [<- | _]; [congruence | exact Hk].
Qed.

Lemma scan_group_spec (file_names : list string) :
  forall (cache cache' : filter_cache) (s s' : store) (bands : list (Q * string)),
  cache_by_name cache ->
  Forall named_like_file
    (map (fun f => fst (Os.splitext (Os.basename f))) file_names) ->
  scan_group file_names cache s = (Ok (bands, cache'), s') ->
  cache_by_name cache' /\
  map snd bands = map (fun f => fst (Os.splitext (Os.basename f))) file_names /\
  (forall k G, lookup k cache = Some G -> lookup k cache' = Some G) /\
  Forall (fun b => exists F, lookup (snd b) cache' = Some F /\
                    value_of (FilterResponse.effective_wavelength F) = fst b) bands.
Proof.
  induction file_names as [| f rest IH]; intros cache cache' s s' bands Hc Hnamed Hscan.
  - simpl in Hscan. unfold ret in Hscan. injection Hscan as <- <- <-.
    split; [exact Hc |]. split; [reflexivity |]. split; [auto | constructor].
  - simpl in Hscan, Hnamed. inversion Hnamed as [| n ns Hn Hns]; subst.
    apply bind_ok in Hscan. destruct Hscan as [[F cache1] [s1 [Hload Hscan]]].
    apply bind_ok in Hscan. destruct Hscan as [[bands' cache2] [s2 [Hrest Hret]]].
    unfold ret in Hret. injection Hret as <- <- <-.
    destruct (load_filter_named _ _ _ _ _ _ Hc Hn Hload) as [Hc1 [Hl1 Hkeep1]].
    destruct (IH _ _ _ _ _ Hc1 Hns Hrest) as [Hc2 [Hnames [Hkeep2 Hall]]].
    split; [exact Hc2 |]. split; [simpl; rewrite Hnames; reflexivity |].
    split; [intros k G Hk; apply Hkeep2, Hkeep1, Hk |].
    constructor; [| exact Hall].
    exists F. split; [apply Hkeep2; exact Hl1 | reflexivity].
Qed.

Lemma load_each_hits (cache : filter_cache) (names : list string)
    (responses : list FilterResponse.t) (s : store) :
  Forall2 (fun n F => lookup n cache = Some F) names responses ->
  load_each names cache s = (Ok (responses, cache), s).
Proof.
  induction 1 as [| n F names responses Hn _ IH]; simpl; [reflexivity |].
  unfold bind. rewrite (load_filter_hit n cache F s Hn). rewrite IH. reflexivity.
Qed.

Lemma Forall_choice {A B} (P : A -> B -> Prop) (l : list A) :
  Forall (fun a => exists b, P a b) l -> exists l', Forall2 P l l'.
Proof.
  induction 1 as [| a l [b Hb] _ [l' IH]].
  - exists []. constructor.
  - exists (b :: l'). constructor; assumption.
Qed.

(** X25.  A group asked for with a wildcard comes back in order of
    effective wavelength, and holds exactly the filters of the listed
    files: this is so for a cache with every filter under its own name and
    files whose metadata give the name of the file; the order in which the
    file system lists the files does not matter. *)
Theorem load_filters_group_sorted (name : string) (cache cache' : filter_cache)
    (s s' : store) (responses : FilterSequence.t) :
  let pattern := Os.join (_find_pkg_data_path "data/filters/") (name ++ ".ecsv") in
  let full_names := map (fun f => fst (Os.splitext (Os.basename f))) (glob pattern) in
  _group_wildcard_match name = true ->
  cache_by_name cache ->
  Forall named_like_file full_names ->
  load_filters [name] cache s = (Ok (responses, cache'), s') ->
  StronglySorted Qle (FilterSequence.effective_wavelengths responses) /\
  Permutation (FilterSequence.names responses) full_names.
Proof.
  intros pattern full_names Hwild Hc Hnamed Hload.
  unfold load_filters in Hload.
  apply bind_ok in Hload. destruct Hload as [[to_load cache1] [s1 [Hlist Heach]]].
  simpl in Hlist. rewrite Hwild in Hlist. fold pattern in Hlist.
  apply bind_ok in Hlist. destruct Hlist as [[bands cache2] [s2 [Hscan Hret]]].
  unfold bind, ret in Hret. injection Hret as <- <- <-.
  rewrite app_nil_r in Heach.
  destruct (scan_group_spec _ _ _ _ _ _ Hc Hnamed Hscan) as [Hc2 [Hnames [_ Hall]]].
  assert (Hsorted_all :
            Forall (fun b => exists F, lookup (snd b) cache2 = Some F /\
                      value_of (FilterResponse.effective_wavelength F) = fst b)
                   (sorted bands))
    by (apply (Permutation_Forall (Permutation_sym (sorted_perm bands))); exact Hall).
  apply Forall_choice in Hsorted_all. destruct Hsorted_all as [Fs HFs].
  assert (Hhits : Forall2 (fun n F => lookup n cache2 = Some F)
                          (map snd (sorted bands)) Fs).
  { clear - HFs. induction HFs as [| b F l l' [Hb _] _ IH]; simpl; constructor; auto. }
  rewrite (load_each_hits cache2 _ Fs s2 Hhits) in Heach.
  injection Heach as <- <- <-.
  assert (Hweff : FilterSequence.effective_wavelengths Fs = map fst (sorted bands)).
  { clear - HFs. unfold FilterSequence.effective_wavelengths.
    induction HFs as [| b F l l' [_ Hb] _ IH]; simpl; [reflexivity |].
    rewrite Hb, IH. reflexivity. }
  assert (Hnm : FilterSequence.names Fs = map snd (sorted bands)).
  { clear - HFs Hc2. unfold FilterSequence.names.
    induction HFs as [| b F l l' [Hb _] _ IH]; simpl; [reflexivity |].
    rewrite (proj1 (Hc2 _ _ Hb)), IH. reflexivity. }
  split.
  - rewrite Hweff. apply sorted_first_components, sorted_by_wavelength.
  - rewrite Hnm. fold full_names in Hnames. rewrite <- Hnames.
    apply Permutation_map, sorted_perm.
Qed.

End Groups.

(** The files have to say who they are: when one file carries the name
    of another, a group can come back out of order. *)
Example load_filters_order_needs_names :
  match fst (@load_filters example_env misnamed_package misnamed_directory
               ["example-*"%string] [] []) with
  | Ok (responses, _) =>
      FilterSequence.names responses
        = ["example-c"%string; "example-b"%string; "example-c"%string] /\
      map Qred (FilterSequence.effective_wavelengths responses) = [2000; 6000; 2000]
  | Raise _ => False
  end.
Proof. vm_compute. split; reflexivity. Qed.

(** ** Instances of the further properties *)




Lemma FilterConvolution_call_succeeds_witness :
  exists p s',
    @FilterConvolution.init example_env band_filter
      (PyList [3000; 4000; 6000; 7000]) true true None [] = (Ok p, s') /\
    (exists x, fst (@FilterConvolution.call example_env p (PyList [1; 2; 2; 1]) "simps" [])
               = Ok (Float x)) /\
    fst (@FilterConvolution.call example_env p (PyList [1; 2; 2]) "simps" [])
    = Raise (ValueError "Expected {0} values along axis {1}.").
Proof.
  assert (Hp : exists p s',
    @FilterConvolution.init example_env band_filter
      (PyList [3000; 4000; 6000; 7000]) true true None [] = (Ok p, s') /\
    FilterConvolution.num_wavelength p = 4%nat)
    by (vm_compute; eauto).
  destruct Hp as [p [s' [Hp Hn]]]. exists p, s'. split; [exact Hp |].
  pose proof (@FilterConvolution_call_succeeds example_env _ _ _ _ _ _ _ _ _ _ _ _ _
                (PyList [1; 2; 2; 1]) "simps" [] band_filter_init Hp eq_refl
                (or_intror eq_refl)) as H4.
  pose proof (@FilterConvolution_call_succeeds example_env _ _ _ _ _ _ _ _ _ _ _ _ _
                (PyList [1; 2; 2]) "simps" [] band_filter_init Hp eq_refl
                (or_intror eq_refl)) as H3.
  simpl values_of in H4, H3. rewrite Hn in H4, H3.
  split; [exact H4 | exact H3].
Defined.

Lemma FilterConvolution_call_unknown_method_witness :
  exists p s',
    @FilterConvolution.init example_env band_filter
      (PyList [3000; 4000; 6000; 7000]) true true None [] = (Ok p, s') /\
    @FilterConvolution.call example_env p (PyList [1; 2; 2; 1]) "romberg" []
    = (Raise (ValueError "Invalid method {0}, pick one of {1}."), []).
Proof.
  assert (Hp : exists p s',
    @FilterConvolution.init example_env band_filter
      (PyList [3000; 4000; 6000; 7000]) true true None [] = (Ok p, s'))
    by (vm_compute; eauto).
  destruct Hp as [p [s' Hp]]. exists p, s'. split; [exact Hp |].
  apply (@FilterConvolution_call_unknown_method example_env p (PyList [1; 2; 2; 1])
           "romberg" []); discriminate.
Defined.

Lemma FilterConvolution_call_unit_refusal_witness :
  exists p s',
    @FilterConvolution.init example_env band_filter
      (PyList [3000; 4000; 6000; 7000]) true true (Some default_flux_unit) []
    = (Ok p, s') /\
    exists msg,
      @FilterConvolution.call example_env p (QuantityArray 0%nat nm) "trapz" [[1; 2; 2; 1]]
      = (Raise (ValueError msg), [[1; 2; 2; 1]]).
Proof.
  assert (Hp : exists p s',
    @FilterConvolution.init example_env band_filter
      (PyList [3000; 4000; 6000; 7000]) true true (Some default_flux_unit) []
    = (Ok p, s') /\
    FilterConvolution.num_wavelength p = 4%nat /\
    FilterConvolution.input_units p = Some default_flux_unit)
    by (vm_compute; eauto 6).
  destruct Hp as [p [s' [Hp [Hn Hu]]]]. exists p, s'. split; [exact Hp |].
  apply (@FilterConvolution_call_unit_refusal example_env p 0%nat nm "trapz"
           [[1; 2; 2; 1]]).
  - left. reflexivity.
  - rewrite Hn. reflexivity.
  - rewrite Hu. reflexivity.
Defined.

Lemma validate_wavelength_array_accepts_witness :
  fst (validate_wavelength_array (PyList [1; 2]) 3 [])
    = Raise (ValueError "Minimum length is {0}.") /\
  fst (validate_wavelength_array (PyList [1; 3; 3]) 3 [])
    = Raise (ValueError "Wavelength values must be strictly increasing.").
Proof.
  split.
  - apply (proj1 (@validate_wavelength_array_accepts example_env (PyList [1; 2]) 3 []
                    eq_refl eq_refl)).
    simpl. lia.
  - apply (proj1 (proj2 (@validate_wavelength_array_accepts example_env
                           (PyList [1; 3; 3]) 3 [] eq_refl eq_refl))).
    + simpl. lia.
    + intros Hinc. specialize (Hinc 1%nat 2%nat). simpl in Hinc.
      specialize (Hinc ltac:(lia) ltac:(lia)). vm_compute in Hinc. discriminate.
Defined.

Lemma validate_wavelength_array_store_witness :
  validate_wavelength_array (QuantityArray 0%nat nm) 3 [[500; 700; 600]]
  = (Raise (ValueError "Wavelength values must be strictly increasing."),
     [[500 * 10; 700 * 10; 600 * 10]]) /\
  [[500 * 10; 700 * 10; 600 * 10]]
  = update 0%nat (Np.scale (10 / 1) (contents [[500; 700; 600]] 0%nat)) [[500; 700; 600]].
Proof.
  assert (Hv : validate_wavelength_array (QuantityArray 0%nat nm) 3 [[500; 700; 600]]
               = (Raise (ValueError "Wavelength values must be strictly increasing."),
                  [[500 * 10; 700 * 10; 600 * 10]]))
    by (vm_compute; reflexivity).
  split; [exact Hv |].
  exact (validate_wavelength_array_store (QuantityArray 0%nat nm) 3 _ _ _ Hv).
Defined.


Lemma FilterResponse_init_name_witness :
  exists group band,
    example_meta = Some (FilterResponse.meta triangle_filter) /\
    lookup "group_name" (FilterResponse.meta triangle_filter) = Some (MetaStr group) /\
    lookup "band_name" (FilterResponse.meta triangle_filter) = Some (MetaStr band) /\
    _name_pattern_match group = true /\ _name_pattern_match band = true /\
    FilterResponse.name triangle_filter = (group ++ "-" ++ band)%string.
Proof.
  exact (@FilterResponse_init_name example_env _ _ _ _ _ _ triangle_filter_init).
Defined.

Lemma filter_name_determines_group_and_band_witness :
  FilterResponse.name triangle_filter = FilterResponse.name band_filter /\
  lookup "group_name" (FilterResponse.meta triangle_filter)
    = lookup "group_name" (FilterResponse.meta band_filter) /\
  lookup "band_name" (FilterResponse.meta triangle_filter)
    = lookup "band_name" (FilterResponse.meta band_filter).
Proof.
  split; [reflexivity |].
  exact (@filter_name_determines_group_and_band example_env _ _ _ _ _ _ _ _ _ _ _ _
           triangle_filter_init band_filter_init eq_refl).
Defined.


Lemma tabulate_element_by_element_witness :
  tabulate_function_of_wavelength one_at_a_time [5000; 6000]
  = Ok (Array [5000; 6000], Some default_wavelength_unit).
Proof.
  exact (tabulate_element_by_element one_at_a_time (fun x => x)
           (fun _ => Some default_wavelength_unit) [5000; 6000]
           eq_refl eq_refl (fun x _ => eq_refl)).
Defined.

Lemma tabulate_invalid_function_witness :
  tabulate_function_of_wavelength always_raises [5000; 6000]
    = Raise (ValueError "Invalid function.") /\
  (exists x, In x [5000; 6000] /\ on_scalar always_raises true x = None /\
             runtime_error always_raises true x = None).
Proof.
  assert (Ht : tabulate_function_of_wavelength always_raises [5000; 6000]
               = Raise (ValueError "Invalid function.")) by reflexivity.
  split; [exact Ht |].
  destruct (tabulate_invalid_function always_raises [5000; 6000] _ Ht)
    as [Hk | [_ [_ [_ [Hx _]]]]]; [discriminate | exact Hx].
Defined.

Lemma tabulate_keeps_units_of_failed_attempt_witness :
  tabulate_function_of_wavelength units_below_5500 [5000; 6000; 7000]
  = Raise (RuntimeError "Inconsistent function units: {0}, none.").
Proof.
  apply (tabulate_keeps_units_of_failed_attempt units_below_5500 (fun _ => 1) 1
           default_flux_unit 5000 6000 [7000]).
  - reflexivity.
  - reflexivity.
  - reflexivity.
  - exists 6000. split; [left; reflexivity | reflexivity].
  - intros x _ _. reflexivity.
  - intros x [<- | [<- | []]] Hx; exfalso; apply Hx; reflexivity.
  - intros x [<- | [<- | [<- | []]]]; reflexivity.
Defined.

Lemma constructed_filter_is_loaded_from_cache_witness :
  @new_FilterResponse example_env (PyList [5000; 6000; 7000]) (PyList [0; 1; 0])
    example_meta [] []
  = (Ok (triangle_filter, [("example-r"%string, triangle_filter)]),
     [[5000; 6000; 7000]; [0; 1; 0]]) /\
  @load_filter example_env example_files "example-r" true
    [("example-r"%string, triangle_filter)] []
  = (Ok (triangle_filter, [("example-r"%string, triangle_filter)]), []).
Proof.
  assert (Hn : @new_FilterResponse example_env (PyList [5000; 6000; 7000])
                 (PyList [0; 1; 0]) example_meta [] []
               = (Ok (triangle_filter, [("example-r"%string, triangle_filter)]),
                  [[5000; 6000; 7000]; [0; 1; 0]]))
    by (vm_compute; reflexivity).
  split; [exact Hn |].
  exact (@constructed_filter_is_loaded_from_cache example_env example_files
           _ _ _ _ _ _ _ _ Hn []).
Defined.

Lemma load_filter_then_cached_witness :
  exists F cache' s',
    @load_filter example_env example_files "custom/r.ecsv" true [] [] = (Ok (F, cache'), s') /\
    cache_by_name cache' /\
    forall s2,
      @load_filter example_env example_files (FilterResponse.name F) true cache' s2
      = (Ok (F, cache'), s2).
Proof.
  assert (Hl : exists F cache' s',
    @load_filter example_env example_files "custom/r.ecsv" true [] []
    = (Ok (F, cache'), s')) by (vm_compute; eauto).
  destruct Hl as [F [cache' [s' Hl]]]. exists F, cache', s'. split; [exact Hl |].
  apply (@load_filter_then_cached example_env example_files _ _ _ _ _ _ _
           (fun k G (Hk : lookup k [] = Some G) =>
              match Hk in _ = o return match o with None => True | Some _ => _ end
              with eq_refl => I end) Hl).
Defined.

Lemma load_filter_custom_file_not_cached_witness :
  snd (Os.splitext "custom/r.ecsv") <> EmptyString /\
  @load_filter example_env example_files "custom/r.ecsv" true [] []
  = @load_filter example_env example_files "custom/r.ecsv" false [] [].
Proof.
  split; [vm_compute; discriminate |].
  apply (@load_filter_custom_file_not_cached example_env example_files).
  - intros k G Hk. discriminate.
  - vm_compute. discriminate.
Defined.

Lemma load_filter_from_table_witness :
  exists F cache' s',
    @load_filter example_env example_files "custom/r.ecsv" false [] [] = (Ok (F, cache'), s') /\
    exists file_name table wavelength_column response_column wavelength_unit factor,
      @read_table example_files file_name = Ok table /\
      lookup "wavelength" (Table.columns table) = Some wavelength_column /\
      lookup "response" (Table.columns table) = Some response_column /\
      Column.unit wavelength_column = Some wavelength_unit /\
      unit_to wavelength_unit default_wavelength_unit = Some factor /\
      (FilterResponse._wavelength F, FilterResponse.response F)
      = FilterResponse.trim (Np.scale factor (Column.data wavelength_column))
          (Column.data response_column) /\
      FilterResponse.meta F = Table.meta table /\
      cache' = [(FilterResponse.name F, F)].
Proof.
  assert (Hl : exists F cache' s',
    @load_filter example_env example_files "custom/r.ecsv" false [] []
    = (Ok (F, cache'), s')) by (vm_compute; eauto).
  destruct Hl as [F [cache' [s' Hl]]]. exists F, cache', s'. split; [exact Hl |].
  exact (@load_filter_from_table example_env example_files _ _ _ _ _ _ Hl).
Defined.

Lemma load_filters_group_sorted_witness :
  exists responses cache' s',
    @load_filters example_env example_package example_directory
      ["example-*"%string] [] [] = (Ok (responses, cache'), s') /\
    FilterSequence.names responses = ["example-g"%string; "example-r"%string] /\
    StronglySorted Qle (FilterSequence.effective_wavelengths responses) /\
    Permutation (FilterSequence.names responses)
      ["example-r"%string; "example-g"%string].
Proof.
  assert (Hl : exists responses cache' s',
    @load_filters example_env example_package example_directory
      ["example-*"%string] [] [] = (Ok (responses, cache'), s') /\
    FilterSequence.names responses = ["example-g"%string; "example-r"%string])
    by (vm_compute; eauto 6).
  destruct Hl as [responses [cache' [s' [Hl Hn]]]].
  exists responses, cache', s'. split; [exact Hl |]. split; [exact Hn |].
  apply (@load_filters_group_sorted example_env example_package example_directory
           "example-*" [] cache' [] s' responses).
  - reflexivity.
  - intros k G Hk. discriminate.
  - constructor; [| constructor; [| constructor]];
      intros table Ht; vm_compute in Ht; injection Ht as <-.
    + exists "example"%string, "r"%string. repeat split.
    + exists "example"%string, "g"%string. repeat split.
  - exact Hl.
Defined.
